(** * Data-quality profiler: profile construction, quality score and reports

  Shallow embedding of [scripts/data_profiler.py] of the
  modern-elt-warehouse project, and the properties of its profiling and
  scoring routine.

  Numbers are the ones the interpreter uses: Python [int]s are [Z], and
  every Python [float] / NumPy [float64] is an IEEE 754 binary64 value,
  here Rocq's primitive [float] (same format, round to nearest even),
  whose operations are specified by [SpecFloat].  A missing value of a
  [float64] column is NaN, as in pandas.

  The pandas and NumPy calls of the script are modelled by their
  documented behaviour (pandas 2.x, NumPy >= 1.19):
  - [np.int64 / int] is binary64 division and never raises: 0/0 is NaN;
  - [round(x, 2)] on a [np.float64] is [rint(x * 100.0) / 100.0];
  - Python [int / int] raises [ZeroDivisionError] on a zero divisor;
  - [int(nan)] raises [ValueError];
  - reductions skip missing values and return NaN on no values;
  - text is held as its UTF-8 encoding, and [len] counts characters;
  - [read_csv] returns frames with distinct column names, and columns
    of dtype [object] for a file with a header and no row. *)

From Stdlib Require Import ZArith String Ascii Bool Lia Floats Uint63.
From Stdlib Require Import Sorted Permutation List.
Import ListNotations.

#[local] Set Warnings "-inexact-float".
#[local] Open Scope Z_scope.

(** ** Python layer: exceptions, numbers, dictionaries *)

Module Py.

Inductive exn :=
| ZeroDivisionError
| ValueError
| OverflowError.

(** A computation that returns or raises. *)
Inductive result (A : Type) :=
| Ok (a : A)
| Raise (e : exn).
Arguments Ok {A} a.
Arguments Raise {A} e.

Definition bind {A B} (c : result A) (k : A -> result B) : result B :=
  match c with
  | Ok a => k a
  | Raise e => Raise e
  end.

Definition raises {A} (c : result A) (e : exn) : Prop := c = Raise e.
Definition returns {A} (c : result A) : Prop := exists a, c = Ok a.

(** The value of [max(0, score)] is the [int] 0 or the [float] score. *)
Inductive num :=
| Int (z : Z)
| Float (f : float).

(** [float(n)] for an [int] in the [int64] range: the nearest binary64
    value, with the sign of the integer. *)
Definition float_of_int (z : Z) : float :=
  if 0 <=? z then of_uint63 (Uint63.of_Z z)
  else if z =? - 2 ^ 63 then (- 9223372036854775808)%float
  else (- of_uint63 (Uint63.of_Z (- z)))%float.

Definition to_float (n : num) : float :=
  match n with
  | Int z => float_of_int z
  | Float f => f
  end.

(** [max(0, x)]: the first argument is kept unless [x > 0] holds, so a
    NaN gives the [int] 0. *)
Definition max0 (x : float) : num :=
  if (0 <? x)%float then Float x else Int 0.

(** [a / b] on two [int]s. *)
Definition int_truediv (a b : Z) : result float :=
  if b =? 0 then Raise ZeroDivisionError
  else Ok (float_of_int a / float_of_int b)%float.

(** [int(x)]: an [int] is returned as it is; a [float] is truncated
    towards zero, NaN is a [ValueError] and an infinity an
    [OverflowError]. *)
Definition int_ (n : num) : result Z :=
  match n with
  | Int z => Ok z
  | Float f =>
      match Prim2SF f with
      | S754_nan => Raise ValueError
      | S754_infinity _ => Raise OverflowError
      | S754_zero _ => Ok 0
      | S754_finite s m e =>
          let a := if 0 <=? e then Zpos m * 2 ^ e else Zpos m / 2 ^ (- e) in
          Ok (if s then - a else a)
      end
  end.

(** [a + b]: [int] addition, or binary64 addition once a [float] is
    involved. *)
Definition add (a b : num) : num :=
  match a, b with
  | Int x, Int y => Int (x + y)
  | _, _ => Float (to_float a + to_float b)%float
  end.

(** [sum(xs)]: a left-to-right sum that starts from the [int] 0. *)
Definition sum (xs : list num) : num := fold_left add xs (Int 0).

(** [total / n] with an [int] count [n]: on an [int] total a zero count
    raises; a [float] total is a NumPy scalar here, whose division does
    not raise. *)
Definition truediv (total : num) (n : Z) : result float :=
  match total with
  | Int z => int_truediv z n
  | Float f => Ok (f / float_of_int n)%float
  end.

(** [x >= n] for an [int] bound [n]. *)
Definition geb (x : num) (n : Z) : bool :=
  match x with
  | Int z => n <=? z
  | Float f => (float_of_int n <=? f)%float
  end.

(** Insertion-ordered [dict]: assignment to an existing key keeps its
    position, a new key goes last. *)
Definition dict (V : Type) := list (string * V).

Fixpoint setitem {V} (d : dict V) (k : string) (v : V) : dict V :=
  match d with
  | [] => [(k, v)]
  | (k', v') :: d' =>
      if String.eqb k k' then (k, v) :: d' else (k', v') :: setitem d' k v
  end.

Fixpoint getitem {V} (d : dict V) (k : string) : option V :=
  match d with
  | [] => None
  | (k', v') :: d' => if String.eqb k k' then Some v' else getitem d' k
  end.

Definition values {V} (d : dict V) : list V := map snd d.
Definition keys {V} (d : dict V) : list string := map fst d.

(** A [str] is held as its UTF-8 encoding, one [ascii] per byte.  A
    character starts at every byte that is not a continuation byte
    (10xxxxxx), so [len(s)], the number of characters, counts these. *)
Definition is_continuation (c : ascii) : bool :=
  match c with
  | Ascii _ _ _ _ _ _ false true => true
  | _ => false
  end.

Fixpoint len (s : string) : nat :=
  match s with
  | EmptyString => 0%nat
  | String c r => ((if is_continuation c then 0 else 1) + len r)%nat
  end.

(** The number of continuation bytes that a leading byte announces:
    0xxxxxxx none, 110xxxxx one, 1110xxxx two, 11110xxx three. *)
Definition trailing (c : ascii) : option nat :=
  match c with
  | Ascii _ _ _ _ _ _ _ false => Some 0%nat
  | Ascii _ _ _ _ _ false true true => Some 1%nat
  | Ascii _ _ _ _ false true true true => Some 2%nat
  | Ascii _ _ _ false true true true true => Some 3%nat
  | _ => None
  end.

(** The byte strings that encode a [str]: leading bytes followed by the
    continuation bytes they announce. *)
Fixpoint utf8_from (pending : nat) (s : string) : bool :=
  match s with
  | EmptyString => (pending =? 0)%nat
  | String c r =>
      match pending with
      | O => match trailing c with
             | Some n => utf8_from n r
             | None => false
             end
      | S n => is_continuation c && utf8_from n r
      end
  end.

Definition utf8 (s : string) : bool := utf8_from 0 s.

(** Text that [rich] prints as it is: ASCII, and free of the bracket
    that opens console markup. *)
Definition is_ascii (c : ascii) : bool :=
  match c with
  | Ascii _ _ _ _ _ _ _ false => true
  | _ => false
  end.

Fixpoint plain (s : string) : bool :=
  match s with
  | EmptyString => true
  | String c r => is_ascii c && negb (Ascii.eqb c "["%char) && plain r
  end.

(** [s.replace(old, new)] for a non-empty [old]: every occurrence, from
    left to right and without overlap.  [skip] counts the bytes of a
    matched occurrence that are still to be passed over. *)
Fixpoint replace_from (old new : string) (skip : nat) (s : string) : string :=
  match s with
  | EmptyString => EmptyString
  | String c r =>
      match skip with
      | S k => replace_from old new k r
      | O =>
          if String.prefix old s
          then String.append new (replace_from old new (String.length old - 1)%nat r)
          else String c (replace_from old new 0 r)
      end
  end.

Definition replace (s old new : string) : string := replace_from old new 0 s.

(** ASCII letters and their two cases. *)
Definition is_upper (c : ascii) : bool :=
  (65 <=? nat_of_ascii c)%nat && (nat_of_ascii c <=? 90)%nat.
Definition is_lower (c : ascii) : bool :=
  (97 <=? nat_of_ascii c)%nat && (nat_of_ascii c <=? 122)%nat.
Definition to_upper (c : ascii) : ascii :=
  if is_lower c then ascii_of_nat (nat_of_ascii c - 32)%nat else c.
Definition to_lower (c : ascii) : ascii :=
  if is_upper c then ascii_of_nat (nat_of_ascii c + 32)%nat else c.

(** [s.title()] on ASCII text: a letter that follows a letter is put in
    lower case, any other letter in upper case. *)
Fixpoint title_from (previous_is_cased : bool) (s : string) : string :=
  match s with
  | EmptyString => EmptyString
  | String c r =>
      String (if previous_is_cased then to_lower c else to_upper c)
             (title_from (is_upper c || is_lower c) r)
  end.

Definition title (s : string) : string := title_from false s.

End Py.

Notation "x <- c ;; k" := (Py.bind c (fun x => k))
(at level 61, c at next level, right associativity).

(** ** NumPy layer: scalar arithmetic on [int64] and [float64] *)

Module Np.

(** Conversion of an [int64] to [float64]: the nearest binary64 value
    (exact below 2^53), with the sign of the integer. *)
Definition float_of_int64 (z : Z) : float :=
  if 0 <=? z then of_uint63 (Uint63.of_Z z)
  else if z =? - 2 ^ 63 then (- 9223372036854775808)%float
  else (- of_uint63 (Uint63.of_Z (- z)))%float.

(** [np.int64 / int]: true division in binary64.  A zero divisor is a
    warning, never an exception: the quotient is NaN or an infinity. *)
Definition int64_truediv (a b : Z) : float :=
  (float_of_int64 a / float_of_int64 b)%float.

(** Nearest integer to [m / 2^n], ties to the even one. *)
Definition rne_shift (m n : Z) : Z :=
  let q := m / 2 ^ n in
  let r := m mod 2 ^ n in
  match 2 * r ?= 2 ^ n with
  | Lt => q
  | Gt => q + 1
  | Eq => if Z.even q then q else q + 1
  end.

(** [np.rint]: the nearest integral value, ties to even, sign kept. *)
Definition rint (x : float) : float :=
  match Prim2SF x with
  | S754_finite s m e =>
      if 0 <=? e then x
      else
        let k := rne_shift (Zpos m) (- e) in
        if k =? 0 then (if s then neg_zero else zero)
        else if s then (- float_of_int64 k)%float else float_of_int64 k
  | _ => x
  end.

(** [round(x, 2)] on a [float64] scalar: scale by 10^2, [rint], scale
    back. *)
Definition round2 (x : float) : float := (rint (x * 100) / 100)%float.

End Np.

(** ** pandas layer: typed columns, missing values, reductions *)

Module Pd.

(** A column as [read_csv] infers it: [int64] (no missing value),
    [float64] (NaN is the missing value) or [object] (text, with
    missing entries). *)
Inductive Series :=
| Int64 (xs : list Z)
| Float64 (xs : list float)
| Object (xs : list (option string)).

(** One entry of a column, with every missing value identified. *)
Inductive cell :=
| NA
| I (z : Z)
| F (x : float)
| T (s : string).

Definition cell_of_float (x : float) : cell := if is_nan x then NA else F x.
Definition cell_of_object (o : option string) : cell :=
  match o with Some s => T s | None => NA end.

Definition cells (s : Series) : list cell :=
  match s with
  | Int64 xs => map I xs
  | Float64 xs => map cell_of_float xs
  | Object xs => map cell_of_object xs
  end.

Definition len (s : Series) : nat := length (cells s).

Definition dtype (s : Series) : string :=
  match s with
  | Int64 _ => "int64"
  | Float64 _ => "float64"
  | Object _ => "object"
  end.

Definition is_na (c : cell) : bool :=
  match c with NA => true | _ => false end.

Definition isna (s : Series) : list bool := map is_na (cells s).
Definition notna (s : Series) : list bool := map negb (isna s).

(** [.sum()] of a boolean column: the number of [True]s, an [int64]. *)
Definition sum_bool (bs : list bool) : Z :=
  Z.of_nat (length (filter (fun b => b) bs)).

(** Equality of entries as the hash tables of pandas see it: missing
    values are equal to each other, numbers by [==] (so 0.0 and -0.0
    are one value), text by content. *)
Definition cell_eqb (a b : cell) : bool :=
  match a, b with
  | NA, NA => true
  | I x, I y => x =? y
  | F x, F y => PrimFloat.eqb x y
  | T x, T y => String.eqb x y
  | _, _ => false
  end.

(** [Series.unique()]: first occurrences, in order of appearance. *)
Fixpoint unique_from (seen : list cell) (xs : list cell) : list cell :=
  match xs with
  | [] => []
  | x :: r =>
      if existsb (cell_eqb x) seen then unique_from seen r
      else x :: unique_from (x :: seen) r
  end.

Definition unique (s : Series) : list cell := unique_from [] (cells s).

(** [Series.nunique()] ([dropna=True]): the unique entries, the
    missing one removed. *)
Definition nunique (s : Series) : Z :=
  Z.of_nat (length (filter (fun c => negb (is_na c)) (unique s))).

Definition is_numeric_dtype (s : Series) : bool :=
  match s with
  | Int64 _ | Float64 _ => true
  | Object _ => false
  end.

(** [is_string_dtype] on an [object] column holds when every entry is
    text, which an empty column satisfies. *)
Definition is_string_dtype (s : Series) : bool :=
  match s with
  | Object xs => forallb (fun o => match o with Some _ => true | None => false end) xs
  | _ => false
  end.

(** *** Numeric reductions ([skipna=True]) *)

(** The non-missing values of a numeric column, as [float64]. *)
Definition valid_values (s : Series) : list float :=
  match s with
  | Int64 xs => map Np.float_of_int64 xs
  | Float64 xs => filter (fun x => negb (is_nan x)) xs
  | Object _ => []
  end.

Definition count (vs : list float) : float :=
  Np.float_of_int64 (Z.of_nat (length vs)).

(** The sum of the values, taken from left to right.  NumPy adds long
    arrays in blocks, which can change the last bits of [mean] and [std]
    on longer columns; the properties below fix these two only where
    there is nothing to add. *)
Definition fsum (vs : list float) : float := fold_left PrimFloat.add vs 0%float.

(** One step of NumPy's [minimum] and [maximum] reductions on values
    that are not NaN: the running value [a] is kept only when it is
    strictly below (above) the next value [b], so of two equal values,
    such as 0.0 and -0.0, the later one stays. *)
Definition fmin (a b : float) : float := if (a <? b)%float then a else b.
Definition fmax (a b : float) : float := if (b <? a)%float then a else b.

Fixpoint insert_sorted (x : float) (l : list float) : list float :=
  match l with
  | [] => [x]
  | y :: r => if (x <=? y)%float then x :: l else y :: insert_sorted x r
  end.

Definition sort (l : list float) : list float := fold_right insert_sorted [] l.

Definition mean_of (vs : list float) : float :=
  match vs with
  | [] => nan
  | _ => (fsum vs / count vs)%float
  end.

Definition median_of (vs : list float) : float :=
  match vs with
  | [] => nan
  | _ =>
      let n := length vs in
      let sorted := sort vs in
      if Nat.even n
      then ((nth (n / 2 - 1) sorted nan + nth (n / 2) sorted nan) / 2)%float
      else nth (n / 2) sorted nan
  end.

Definition min_of (vs : list float) : float :=
  match vs with
  | [] => nan
  | v :: r => fold_left fmin r v
  end.

Definition max_of (vs : list float) : float :=
  match vs with
  | [] => nan
  | v :: r => fold_left fmax r v
  end.

(** Sample standard deviation ([ddof=1]); undefined on fewer than two
    values. *)
Definition std_of (vs : list float) : float :=
  match vs with
  | [] | [_] => nan
  | _ =>
      let avg := mean_of vs in
      let sqr := map (fun v => ((avg - v) * (avg - v))%float) vs in
      PrimFloat.sqrt (fsum sqr / Np.float_of_int64 (Z.of_nat (length vs) - 1))%float
  end.

Definition mean (s : Series) : float := mean_of (valid_values s).
Definition median (s : Series) : float := median_of (valid_values s).
Definition min (s : Series) : float := min_of (valid_values s).
Definition max (s : Series) : float := max_of (valid_values s).
Definition std (s : Series) : float := std_of (valid_values s).

(** *** Text reductions *)

(** [.str.len()]: the length of every text entry in characters, missing
    where the entry is. *)
Definition str_len (s : Series) : list (option Z) :=
  match s with
  | Object xs => map (option_map (fun t => Z.of_nat (Py.len t))) xs
  | _ => []
  end.

Fixpoint present (l : list (option Z)) : list Z :=
  match l with
  | [] => []
  | Some z :: r => z :: present r
  | None :: r => present r
  end.

(** [.min()] and [.max()] of the lengths: an integer, or NaN when there
    is no length to reduce. *)
Definition len_min (l : list (option Z)) : Py.num :=
  match present l with
  | [] => Py.Float nan
  | z :: r => Py.Int (fold_left Z.min r z)
  end.

Definition len_max (l : list (option Z)) : Py.num :=
  match present l with
  | [] => Py.Float nan
  | z :: r => Py.Int (fold_left Z.max r z)
  end.

(** [(lengths == 0).sum()] *)
Definition count_zero (l : list (option Z)) : Z :=
  sum_bool (map (fun o => match o with Some z => z =? 0 | None => false end) l).

(** *** Data frames *)

(** Named columns over a common index; [memory_usage] is what
    [memory_usage(deep=True).sum()] reports, in bytes. *)
Record DataFrame := {
  index_len : nat;
  columns : list (string * Series);
  memory_usage : Z
}.

(** Every column spans the index, and column names are distinct. *)
Definition well_formed (df : DataFrame) : Prop :=
  Forall (fun c => len (snd c) = index_len df) (columns df)
  /\ NoDup (map fst (columns df)).

Definition row (df : DataFrame) (i : nat) : list cell :=
  map (fun c => nth i (cells (snd c)) NA) (columns df).

Definition rows (df : DataFrame) : list (list cell) :=
  map (row df) (seq 0 (index_len df)).

Fixpoint row_eqb (a b : list cell) : bool :=
  match a, b with
  | [], [] => true
  | x :: a', y :: b' => cell_eqb x y && row_eqb a' b'
  | _, _ => false
  end.

(** [keep="first"]: a row is marked when an equal row was seen before
    it. *)
Fixpoint duplicated_from (seen : list (list cell)) (rs : list (list cell))
  : list bool :=
  match rs with
  | [] => []
  | r :: rest =>
      if existsb (row_eqb r) seen then true :: duplicated_from seen rest
      else false :: duplicated_from (r :: seen) rest
  end.

(** [DataFrame.empty]: some axis has length 0. *)
Definition empty (df : DataFrame) : bool :=
  (index_len df =? 0)%nat || (length (columns df) =? 0)%nat.

(** [DataFrame.duplicated()]: an empty frame yields an empty result. *)
Definition duplicated (df : DataFrame) : list bool :=
  if empty df then [] else duplicated_from [] (rows df).

End Pd.

(** ** The profiler *)

Module Profiler.

(** Type-specific entries of a column's dictionary: none, the numeric
    ones or the text ones. *)
Inductive TypeStats :=
| NoStats
| NumericStats (mean median min max std : float)
| TextStats (min_length max_length empty_strings : Z).

Record ColumnInfo := {
  dtype : string;
  non_null : Z;
  null : Z;
  null_percentage : float;
  unique : Z;
  stats : TypeStats
}.

Record Duplicates := {
  total : Z;
  percentage : float
}.

Record Profile := {
  filename : string;
  rows : Z;
  columns : Z;
  size_mb : float;
  duplicates : Duplicates;
  columns_info : Py.dict ColumnInfo
}.

Definition set_columns_info (p : Profile) (ci : Py.dict ColumnInfo) : Profile :=
  {| filename := filename p; rows := rows p; columns := columns p;
     size_mb := size_mb p; duplicates := duplicates p; columns_info := ci |}.

Definition df_len (df : Pd.DataFrame) : Z := Z.of_nat (Pd.index_len df).

(** The body of the column loop of [analyze_dataframe]: the dictionary
    built for [df[col]]. *)
Definition column_info (df : Pd.DataFrame) (col : Pd.Series)
  : Py.result ColumnInfo :=
  let base := fun st =>
    {| dtype := Pd.dtype col;
       non_null := Pd.sum_bool (Pd.notna col);
       null := Pd.sum_bool (Pd.isna col);
       null_percentage :=
         Np.round2 (Np.int64_truediv (Pd.sum_bool (Pd.isna col)) (df_len df) * 100)%float;
       unique := Pd.nunique col;
       stats := st |} in
  if Pd.is_numeric_dtype col then
    Py.Ok (base (NumericStats (Pd.mean col) (Pd.median col) (Pd.min col)
                              (Pd.max col) (Pd.std col)))
  else if Pd.is_string_dtype col then
    min_length <- Py.int_ (Pd.len_min (Pd.str_len col)) ;;
    max_length <- Py.int_ (Pd.len_max (Pd.str_len col)) ;;
    Py.Ok (base (TextStats min_length max_length (Pd.count_zero (Pd.str_len col))))
  else Py.Ok (base NoStats).

(** [analyze_dataframe] on a frame whose column names are distinct, as
    [read_csv] returns them (repeated headers are renamed): [df[col]] is
    then a column.  With a repeated name [df[col]] is a frame and the
    code stops on its missing [dtype]; the properties of the analysis
    are stated for [Pd.well_formed] frames. *)
Definition analyze_dataframe (df : Pd.DataFrame) (filename : string)
  : Py.result Profile :=
  let profile :=
    {| filename := filename;
       rows := df_len df;
       columns := Z.of_nat (length (Pd.columns df));
       size_mb := Np.int64_truediv (Pd.memory_usage df) (1024 * 1024);
       duplicates :=
         {| total := Pd.sum_bool (Pd.duplicated df);
            percentage :=
              Np.round2 (Np.int64_truediv (Pd.sum_bool (Pd.duplicated df)) (df_len df)
                         * 100)%float |};
       columns_info := [] |} in
  fold_left
    (fun acc c =>
       profile <- acc ;;
       col_info <- column_info df (snd c) ;;
       Py.Ok (set_columns_info profile
                (Py.setitem (columns_info profile) (fst c) col_info)))
    (Pd.columns df) (Py.Ok profile).

(** Start with 100 points, deduct 0.5 per percent of nulls of every
    column and 2 per percent of duplicate rows, floor at 0. *)
Definition generate_quality_score (profile : Profile) : Py.num :=
  let score := 100%float in
  let score :=
    fold_left (fun score col_info => (score - null_percentage col_info * 0.5)%float)
              (Py.values (columns_info profile)) score in
  let score := (score - percentage (duplicates profile) * 2)%float in
  Py.max0 score.

(** *** Summary table *)

(** One row of the table: the file it is built from, then the cells
    handed to [table.add_row], numbers before they are formatted. *)
Record TableRow := {
  row_table : string;
  row_name : string;
  row_rows : Z;
  row_columns : Z;
  row_avg_null : float;
  row_duplicates : Z;
  row_score : Py.num;
  row_color : string
}.

(** The average null percentage of one profile, as the table computes
    it. *)
Definition avg_null (profile : Profile) : Py.result float :=
  Py.truediv
    (Py.sum (map (fun col => Py.Float (null_percentage col))
                 (Py.values (columns_info profile))))
    (Z.of_nat (length (columns_info profile))).

(** The name shown for a file: the suffix dropped, underscores turned
    into spaces, words capitalised. *)
Definition table_name (filename : string) : string :=
  Py.title (Py.replace (Py.replace filename "_dataset.csv" EmptyString) "_" " ").

(** The body of the loop of [print_profile_table].  The name cell is
    ASCII text without console markup for every file of [CSV_FILES];
    what [rich] does with markup in other names is not modelled. *)
Definition table_row (filename : string) (profile : Profile)
  : Py.result TableRow :=
  let table_name := table_name filename in
  avg <- avg_null profile ;;
  let quality_score := generate_quality_score profile in
  let score_color :=
    if Py.geb quality_score 90 then "green"%string
    else if Py.geb quality_score 70 then "yellow"%string
    else "red"%string in
  Py.Ok {| row_table := filename;
           row_name := table_name;
           row_rows := rows profile;
           row_columns := columns profile;
           row_avg_null := avg;
           row_duplicates := total (duplicates profile);
           row_score := quality_score;
           row_color := score_color |}.

(** The rows handed to the console table, one per profile, in
    dictionary order; cell formatting is left to the console. *)
Fixpoint print_profile_table (profiles : Py.dict Profile)
  : Py.result (list TableRow) :=
  match profiles with
  | [] => Py.Ok []
  | (filename, profile) :: rest =>
      r <- table_row filename profile ;;
      rs <- print_profile_table rest ;;
      Py.Ok (r :: rs)
  end.

(** *** Markdown report *)

Record ColumnLine := {
  line_name : string;
  line_dtype : string;
  line_non_null_pct : float;
  line_unique : Z
}.

Inductive Issue :=
| NullValues (col_name : string) (pct : float)
| DuplicateRows (pct : float).

Record Section := {
  sec_file : string;
  sec_score : Py.num;
  sec_rows : Z;
  sec_columns : Z;
  sec_size_mb : float;
  sec_duplicates : Duplicates;
  sec_lines : list ColumnLine;
  sec_issues : list Issue
}.

Record Report := {
  avg_score : float;
  sections : list Section
}.

Definition column_line (profile : Profile) (c : string * ColumnInfo)
  : Py.result ColumnLine :=
  q <- Py.int_truediv (non_null (snd c)) (rows profile) ;;
  Py.Ok {| line_name := fst c;
           line_dtype := dtype (snd c);
           line_non_null_pct := (q * 100)%float;
           line_unique := unique (snd c) |}.

Fixpoint column_lines (profile : Profile) (cs : Py.dict ColumnInfo)
  : Py.result (list ColumnLine) :=
  match cs with
  | [] => Py.Ok []
  | c :: rest =>
      l <- column_line profile c ;;
      ls <- column_lines profile rest ;;
      Py.Ok (l :: ls)
  end.

Definition quality_issues (profile : Profile) : list Issue :=
  flat_map (fun c =>
              if (10 <? null_percentage (snd c))%float
              then [NullValues (fst c) (null_percentage (snd c))] else [])
           (columns_info profile)
  ++ (if (5 <? percentage (duplicates profile))%float
      then [DuplicateRows (percentage (duplicates profile))] else []).

Definition report_section (filename : string) (profile : Profile)
  : Py.result Section :=
  lines <- column_lines profile (columns_info profile) ;;
  Py.Ok {| sec_file := filename;
           sec_score := generate_quality_score profile;
           sec_rows := rows profile;
           sec_columns := columns profile;
           sec_size_mb := size_mb profile;
           sec_duplicates := duplicates profile;
           sec_lines := lines;
           sec_issues := quality_issues profile |}.

Fixpoint report_sections (profiles : Py.dict Profile)
  : Py.result (list Section) :=
  match profiles with
  | [] => Py.Ok []
  | (filename, profile) :: rest =>
      s <- report_section filename profile ;;
      ss <- report_sections rest ;;
      Py.Ok (s :: ss)
  end.

(** [sorted(profiles.items())]: by file name. *)
Fixpoint insert_item (x : string * Profile) (l : Py.dict Profile)
  : Py.dict Profile :=
  match l with
  | [] => [x]
  | y :: r =>
      match String.compare (fst x) (fst y) with
      | Gt => y :: insert_item x r
      | _ => x :: l
      end
  end.

Definition sorted_items (profiles : Py.dict Profile) : Py.dict Profile :=
  fold_right insert_item [] profiles.

(** The content of the report: the average score, then one section per
    profile. *)
Definition generate_markdown_report (profiles : Py.dict Profile)
  : Py.result Report :=
  avg <- Py.truediv (Py.sum (map generate_quality_score (Py.values profiles)))
                    (Z.of_nat (length profiles)) ;;
  secs <- report_sections (sorted_items profiles) ;;
  Py.Ok {| avg_score := avg; sections := secs |}.

(** *** JSON profile *)

Record Summary := {
  total_tables : Z;
  avg_quality_score : float
}.

(** The dictionary handed to [json.dump]: the profiles and the summary
    (the time stamp is left out).  How the values are written is left to
    [json.dump]: with [default=str] the [np.int64] duplicate total comes
    out as text and a NaN as the bare token [NaN]. *)
Record JsonOutput := {
  json_profiles : Py.dict Profile;
  json_summary : Summary
}.

Definition save_profile_json (profiles : Py.dict Profile) : Py.result JsonOutput :=
  avg <- Py.truediv (Py.sum (map generate_quality_score (Py.values profiles)))
                    (Z.of_nat (length profiles)) ;;
  Py.Ok {| json_profiles := profiles;
           json_summary := {| total_tables := Z.of_nat (length profiles);
                              avg_quality_score := avg |} |}.

(** *** The command *)

Definition CSV_FILES : list string :=
  ["olist_orders_dataset.csv";
   "olist_order_items_dataset.csv";
   "olist_customers_dataset.csv";
   "olist_sellers_dataset.csv";
   "olist_products_dataset.csv";
   "olist_order_payments_dataset.csv";
   "olist_order_reviews_dataset.csv";
   "olist_geolocation_dataset.csv";
   "product_category_name_translation.csv"]%string.

(** What the command sees of the file system: whether the raw data
    directory exists, which of its files exist, and what [pd.read_csv]
    does on a file: it returns a frame, or raises. *)
Record Env := {
  raw_dir_exists : bool;
  file_exists : string -> bool;
  read_csv : string -> option Pd.DataFrame
}.

(** [load_csv]: any exception of [read_csv] is caught and reported as
    [(False, None)]. *)
Definition load_csv (env : Env) (file_path : string) : bool * option Pd.DataFrame :=
  match read_csv env file_path with
  | Some df => (true, Some df)
  | None => (false, None)
  end.

(** The loop of [main] over the expected files: a file that does not
    exist or does not load is skipped, a loaded one is analysed and its
    profile stored under the file name. *)
Fixpoint load_profiles (env : Env) (files : list string) (profiles : Py.dict Profile)
  : Py.result (Py.dict Profile) :=
  match files with
  | [] => Py.Ok profiles
  | filename :: rest =>
      if file_exists env filename then
        match load_csv env filename with
        | (true, Some df) =>
            profile <- analyze_dataframe df filename ;;
            load_profiles env rest (Py.setitem profiles filename profile)
        | _ => load_profiles env rest profiles
        end
      else load_profiles env rest profiles
  end.

(** What a run leaves behind. *)
Inductive Artefact :=
| ConsoleTable (table : list TableRow)
| JsonProfile (output : JsonOutput)
| MarkdownReport (report : Report).

(** How a run ends when no exception escapes: [sys.exit(code)], or the
    end of [main]. *)
Inductive Status :=
| Exit (code : Z)
| Completed.

(** [main]: the artefacts produced, and the status or the exception that
    escapes.  Console messages other than the table are left out; the
    report counts once it is written in full. *)
Definition main (env : Env) : list Artefact * Py.result Status :=
  if negb (raw_dir_exists env) then ([], Py.Ok (Exit 1))
  else
    match load_profiles env CSV_FILES [] with
    | Py.Raise e => ([], Py.Raise e)
    | Py.Ok [] => ([], Py.Ok (Exit 1))
    | Py.Ok profiles =>
        match print_profile_table profiles with
        | Py.Raise e => ([], Py.Raise e)
        | Py.Ok table =>
            match save_profile_json profiles with
            | Py.Raise e => ([ConsoleTable table], Py.Raise e)
            | Py.Ok output =>
                match generate_markdown_report profiles with
                | Py.Raise e => ([ConsoleTable table; JsonProfile output], Py.Raise e)
                | Py.Ok report =>
                    ([ConsoleTable table; JsonProfile output; MarkdownReport report],
                     Py.Ok Completed)
                end
            end
        end
    end.

End Profiler.

Import Profiler.

(** ** The scorer on the interpreter state

    [generate_quality_score] once more, this time with what the
    interpreter holds in view: a profile is a dictionary object on the
    heap, reached through a reference and shared by every caller, its
    entries are references to further dictionaries, and next to the heap
    there is the console.  Every statement is a step on this state, so a
    write to the profile, a line on the console or a read of anything
    but the argument would show. *)

Module Obj.

Definition ref := nat.

(** The values a profile holds: numbers, text and references to
    dictionaries. *)
Inductive value :=
| VInt (z : Z)
| VFloat (f : float)
| VStr (s : string)
| VDict (r : ref).

(** A dictionary object. *)
Definition object := Py.dict value.

(** The heap (the object at reference [r] is the [r]-th one) and the
    lines printed on the console so far. *)
Record state := {
  heap : list object;
  console : list string
}.

Inductive error :=
| KeyError (key : string)
| TypeError
| AttributeError
| OverflowError.

Inductive outcome (A : Type) :=
| Return (a : A)
| Throw (e : error).
Arguments Return {A} a.
Arguments Throw {A} e.

(** A statement: from a state to an outcome and the state it leaves. *)
Definition M (A : Type) := state -> outcome A * state.

Definition ret {A} (a : A) : M A := fun st => (Return a, st).
Definition throw {A} (e : error) : M A := fun st => (Throw e, st).

Definition bind {A B} (c : M A) (k : A -> M B) : M B :=
  fun st =>
    match c st with
    | (Return a, st') => k a st'
    | (Throw e, st') => (Throw e, st')
    end.

(** The object behind a value, for an operation that only a dictionary
    has and that fails with [e] on anything else.  A reference always
    points into the heap; a state where one does not is no state of the
    interpreter, and reading through it is reported as this error. *)
Definition deref (v : value) (e : error) : M object :=
  fun st =>
    match v with
    | VDict r =>
        match nth_error (heap st) r with
        | Some o => (Return o, st)
        | None => (Throw e, st)
        end
    | _ => (Throw e, st)
    end.

(** [d[key]]: a number or a text subscripted with a key is a
    [TypeError]. *)
Definition getitem (d : value) (key : string) : M value :=
  bind (deref d TypeError) (fun o =>
    match Py.getitem o key with
    | Some v => ret v
    | None => throw (KeyError key)
    end).

(** [d.values()], read in insertion order; numbers and texts have no
    such method. *)
Definition values (d : value) : M (list value) :=
  bind (deref d AttributeError) (fun o => ret (Py.values o)).

(** A new dictionary object: it gets the next free reference. *)
Definition alloc (o : object) : M value :=
  fun st => (Return (VDict (length (heap st))),
             {| heap := heap st ++ [o]; console := console st |}).

(** [console.print(line)] *)
Definition print (line : string) : M unit :=
  fun st => (Return tt, {| heap := heap st; console := console st ++ [line] |}).

(** A value as a number; arithmetic on anything else is a
    [TypeError]. *)
Definition number (v : value) : M Py.num :=
  match v with
  | VInt z => ret (Py.Int z)
  | VFloat f => ret (Py.Float f)
  | _ => throw TypeError
  end.

(** [float(z)] for any [int]: the nearest binary64 value, and an
    [OverflowError] beyond the largest one. *)
Definition float_of_int (z : Z) : M float :=
  let f := SF2Prim (binary_normalize prec emax z 0 false) in
  if is_infinity f then throw OverflowError else ret f.

Definition as_float (n : Py.num) : M float :=
  match n with
  | Py.Float f => ret f
  | Py.Int z => float_of_int z
  end.

(** [a * b] and [a - b] on numbers: [int] arithmetic on two [int]s,
    binary64 arithmetic once a [float] is involved. *)
Definition mul (a b : Py.num) : M Py.num :=
  match a, b with
  | Py.Int x, Py.Int y => ret (Py.Int (x * y))
  | _, _ => bind (as_float a) (fun x => bind (as_float b) (fun y =>
            ret (Py.Float (x * y)%float)))
  end.

Definition sub (a b : Py.num) : M Py.num :=
  match a, b with
  | Py.Int x, Py.Int y => ret (Py.Int (x - y))
  | _, _ => bind (as_float a) (fun x => bind (as_float b) (fun y =>
            ret (Py.Float (x - y)%float)))
  end.

(** [max(0, x)]: the [int] 0 unless [x > 0]. *)
Definition max0 (x : Py.num) : Py.num :=
  match x with
  | Py.Int z => if 0 <? z then x else Py.Int 0
  | Py.Float f => Py.max0 f
  end.

(** A [for] loop that updates one local variable. *)
Fixpoint for_each {A B} (xs : list A) (acc : B) (body : B -> A -> M B) : M B :=
  match xs with
  | [] => ret acc
  | x :: rest => bind (body acc x) (fun acc' => for_each rest acc' body)
  end.

(** [generate_quality_score(profile)], statement by statement. *)
Definition generate_quality_score (profile : value) : M Py.num :=
  let score := Py.Float 100 in
  bind (getitem profile "columns_info") (fun columns_info =>
  bind (values columns_info) (fun col_infos =>
  bind (for_each col_infos score (fun score col_info =>
          bind (getitem col_info "null_percentage") (fun v =>
          bind (number v) (fun null_pct =>
          bind (mul null_pct (Py.Float 0.5)) (fun penalty =>
          sub score penalty))))) (fun score =>
  bind (getitem profile "duplicates") (fun duplicates =>
  bind (getitem duplicates "percentage") (fun v =>
  bind (number v) (fun dup_pct =>
  bind (mul dup_pct (Py.Int 2)) (fun penalty =>
  bind (sub score penalty) (fun score =>
  ret (max0 score))))))))).

(** Two calls, one after the other, on the same argument. *)
Definition twice (profile : value) : M (Py.num * Py.num) :=
  bind (generate_quality_score profile) (fun first =>
  bind (generate_quality_score profile) (fun second =>
  ret (first, second))).

(** The outcome of two calls that both give [o]. *)
Definition both {A} (o : outcome A) : outcome (A * A) :=
  match o with
  | Return a => Return (a, a)
  | Throw e => Throw e
  end.

(** The dictionaries of a profile as [analyze_dataframe] leaves them on
    the heap. *)
Definition store_stats (s : TypeStats) : object :=
  match s with
  | NoStats => []
  | NumericStats mean median min max std =>
      [("mean", VFloat mean); ("median", VFloat median); ("min", VFloat min);
       ("max", VFloat max); ("std", VFloat std)]%string
  | TextStats min_length max_length empty_strings =>
      [("min_length", VInt min_length); ("max_length", VInt max_length);
       ("empty_strings", VInt empty_strings)]%string
  end.

Definition store_column (c : ColumnInfo) : M value :=
  alloc ([("dtype", VStr (dtype c)); ("non_null", VInt (non_null c));
          ("null", VInt (null c)); ("null_percentage", VFloat (null_percentage c));
          ("unique", VInt (unique c))]%string ++ store_stats (stats c)).

Fixpoint store_columns (cs : Py.dict ColumnInfo) : M object :=
  match cs with
  | [] => ret []
  | (col, c) :: rest =>
      bind (store_column c) (fun v =>
      bind (store_columns rest) (fun o => ret ((col, v) :: o)))
  end.

Definition store (p : Profile) : M value :=
  bind (alloc [("total", VInt (total (duplicates p)));
               ("percentage", VFloat (percentage (duplicates p)))]%string)
       (fun duplicates =>
  bind (store_columns (columns_info p)) (fun o =>
  bind (alloc o) (fun columns_info =>
  alloc [("filename", VStr (filename p)); ("rows", VInt (rows p));
         ("columns", VInt (columns p)); ("size_mb", VFloat (size_mb p));
         ("duplicates", duplicates); ("columns_info", columns_info)]%string))).

(** A statement that leaves the state as it found it. *)
Definition pure {A} (c : M A) : Prop := forall st, snd (c st) = st.

End Obj.

(** ** Specification-side definitions *)

Module Spec.

(** The column loop of [analyze_dataframe] seen as one traversal. *)
Fixpoint column_infos (df : Pd.DataFrame) (cols : list (string * Pd.Series))
  : Py.result (Py.dict ColumnInfo) :=
  match cols with
  | [] => Py.Ok []
  | c :: rest =>
      col_info <- column_info df (snd c) ;;
      infos <- column_infos df rest ;;
      Py.Ok ((fst c, col_info) :: infos)
  end.

(** The profile before the column loop. *)
Definition empty_profile (df : Pd.DataFrame) (filename : string) : Profile :=
  {| filename := filename;
     rows := df_len df;
     columns := Z.of_nat (length (Pd.columns df));
     size_mb := Np.int64_truediv (Pd.memory_usage df) (1024 * 1024);
     duplicates :=
       {| total := Pd.sum_bool (Pd.duplicated df);
          percentage :=
            Np.round2 (Np.int64_truediv (Pd.sum_bool (Pd.duplicated df)) (df_len df)
                       * 100)%float |};
     columns_info := [] |}.

(** The number of distinct values of a list of entries. *)
Fixpoint count_distinct (l : list Pd.cell) : nat :=
  match l with
  | [] => 0
  | x :: r => (if existsb (Pd.cell_eqb x) r then 0 else 1) + count_distinct r
  end.

(** Row [i] equals an earlier row, entry by entry. *)
Definition earlier_duplicate (df : Pd.DataFrame) (i : nat) : bool :=
  existsb (fun j => Pd.row_eqb (Pd.row df i) (Pd.row df j)) (seq 0 i).

(** [max(0.0, x)] *)
Definition max0_float (x : float) : float := if (0 <? x)%float then x else 0%float.

(** The penalties of a profile: 0.5 per percent of nulls of each column,
    then 2 per percent of duplicate rows. *)
Definition penalties (p : Profile) : list float :=
  map (fun c => (null_percentage c * 0.5)%float) (Py.values (columns_info p))
  ++ [(percentage (duplicates p) * 2)%float].

(** The score as the specification gives it: the penalties taken from
    100, floored at 0. *)
Definition score_formula (p : Profile) : float :=
  max0_float (fold_left PrimFloat.sub (penalties p) 100%float).

(** The score as a function of the percentages alone. *)
Definition score_of (nulls : list float) (dup : float) : Py.num :=
  Py.max0 (fold_left (fun s a => (s - a * 0.5)%float) nulls 100 - dup * 2)%float.

(** A column entry with another null percentage. *)
Definition with_null_percentage (c : ColumnInfo) (v : float) : ColumnInfo :=
  {| dtype := dtype c; non_null := non_null c; null := null c;
     null_percentage := v; unique := unique c; stats := stats c |}.

(** The running score of the second profile stays behind the first: it
    is NaN or minus infinity, which both end in the score 0, or it is at
    most the running score of the first. *)
Definition behind (s' s : float) : Prop :=
  Prim2SF s' = S754_nan \/ Prim2SF s' = S754_infinity true
  \/ (s' <=? s)%float = true.

(** An entry of an [object] column that is text, and one that is the
    empty text. *)
Definition is_text (o : option string) : bool :=
  match o with Some _ => true | None => false end.

Definition is_empty_text (o : option string) : bool :=
  match o with
  | Some EmptyString => true
  | _ => false
  end.

(** An entry that is text in its UTF-8 encoding, as every [str] is
    held. *)
Definition is_str (o : option string) : bool :=
  match o with
  | Some t => Py.utf8 t
  | None => false
  end.

(** File names in ascending order. *)
Definition name_lt (a b : string) : Prop := String.compare a b = Lt.
Definition name_le (a b : string) : Prop := String.compare a b <> Gt.

(** The frame of an expected file that exists and loads. *)
Definition loaded (env : Env) (filename : string) : option Pd.DataFrame :=
  if file_exists env filename then read_csv env filename else None.

Definition loads (env : Env) (filename : string) : bool :=
  match loaded env filename with Some _ => true | None => false end.

(** What [pd.read_csv] returns: a frame with at least one column, its
    columns spanning the index under distinct names (repeated headers
    are renamed), and every column of dtype [object] when the file has a
    header and no row. *)
Definition csv_frame (df : Pd.DataFrame) : Prop :=
  Pd.well_formed df
  /\ Pd.columns df <> []
  /\ (Pd.index_len df = 0%nat ->
      Forall (fun c => Pd.dtype (snd c) = "object"%string) (Pd.columns df)).

(** A byte of plain text. *)
Definition plain_char (c : ascii) : bool :=
  Py.is_ascii c && negb (Ascii.eqb c "["%char).

(** The state holds, behind [v], the dictionary of a column whose null
    percentage is [pct]. *)
Definition column_at (st : Obj.state) (v : Obj.value) (pct : float) : Prop :=
  exists r o, v = Obj.VDict r /\ nth_error (Obj.heap st) r = Some o
              /\ Py.getitem o "null_percentage"%string = Some (Obj.VFloat pct).

(** The state holds the profile [p] behind [v], as far as the scorer
    reads it: the dictionary of the profile, the one of its columns with
    one dictionary per column, and the one of its duplicates. *)
Definition profile_at (st : Obj.state) (v : Obj.value) (p : Profile) : Prop :=
  exists r o rc oc rd od,
    v = Obj.VDict r /\ nth_error (Obj.heap st) r = Some o
    /\ Py.getitem o "columns_info"%string = Some (Obj.VDict rc)
    /\ nth_error (Obj.heap st) rc = Some oc
    /\ Py.keys oc = Py.keys (columns_info p)
    /\ Forall2 (column_at st) (Py.values oc)
               (map null_percentage (Py.values (columns_info p)))
    /\ Py.getitem o "duplicates"%string = Some (Obj.VDict rd)
    /\ nth_error (Obj.heap st) rd = Some od
    /\ Py.getitem od "percentage"%string
       = Some (Obj.VFloat (percentage (duplicates p))).

End Spec.

(** ** binary64 values as integers

    Every finite binary64 value is an integer multiple of 2^-1074.  [key]
    is that integer, the infinities standing at +-2^2098; on valid
    non-NaN floats the order of the keys is the order of the floats, and
    every operation rounds the exact result to the nearest key. *)

Module Binary64.

Definition sgn (s : bool) : Z := if s then -1 else 1.

(** The key of plus infinity: one binade above the largest finite key. *)
Definition key_inf : Z := 2 ^ 2098.

Arguments key_inf : simpl never.

Definition key (x : spec_float) : Z :=
  match x with
  | S754_zero _ => 0
  | S754_nan => 0
  | S754_infinity s => sgn s * key_inf
  | S754_finite s m e => sgn s * (Zpos m * 2 ^ (e + 1074))
  end.

Definition is_fin (x : spec_float) : bool :=
  match x with
  | S754_zero _ | S754_finite _ _ _ => true
  | _ => false
  end.

(** Rounding of the non-negative integer [V], in units of 2^-(1074+c), to
    the nearest binary64 value, ties to even: its key. *)
Definition round_key (c V : Z) : Z :=
  let k := Z.max (Z.log2 V + 1 - 53) c in
  Z.min (Np.rne_shift V k * 2 ^ (k - c)) key_inf.

Definition round_mult (c V : Z) : Z :=
  let k := Z.max (Z.log2 V + 1 - 53) c in Np.rne_shift V k * 2 ^ k.

Definition round_skey (c V : Z) : Z :=
  if V <? 0 then - round_key c (- V) else round_key c V.

Definition Rep (N j : Z) (mrs : shr_record) : Prop :=
  shr_m mrs = N / 2 ^ j
  /\ shr_r mrs = Z.odd (N / 2 ^ (j - 1))
  /\ shr_s mrs = negb (N mod 2 ^ (j - 1) =? 0).

(** The position of an exact value inside its unit interval, in
    quarters. *)
Definition loc_code (l : location) : Z :=
  match l with
  | loc_Exact => 0
  | loc_Inexact Lt => 1
  | loc_Inexact Eq => 2
  | loc_Inexact Gt => 3
  end.

Definition fkey (x : float) : Z := key (Prim2SF x).
Definition fin (x : float) : bool := is_fin (Prim2SF x).
Definition not_nan (x : float) : Prop := Prim2SF x <> S754_nan.

(** [k / 100] lies in [0, 100]. *)
Definition cents_in_range (k : Z) : bool :=
  ((0 <=? Np.float_of_int64 k / 100) && (Np.float_of_int64 k / 100 <=? 100))%float.

(** [cents_in_range] on the [n] integers from [k] on. *)
Fixpoint cents_from (n : nat) (k : Z) : bool :=
  match n with
  | O => true
  | S n' => cents_in_range k && cents_from n' (k + 1)
  end.

(** The key of 1.0. *)
Definition key_unit : Z := 2 ^ 1074.

Arguments key_unit : simpl never.

End Binary64.

(** ** Percentages and scores *)

Module Range.

Import Binary64.

(** A percentage: a float between 0 and 100. *)
Definition percent (a : float) : Prop :=
  (0 <=? a)%float = true /\ (a <=? 100)%float = true.

(** A score: the [int] 0 or a float between 0 and 100. *)
Definition score_value (v : Py.num) : Prop :=
  v = Py.Int 0 \/ exists f, v = Py.Float f /\ percent f.

(** A running sum of at most [k] scores. *)
Definition score_sum (k : Z) (v : Py.num) : Prop :=
  v = Py.Int 0
  \/ exists s, v = Py.Float s /\ fin s = true /\ 0 <= fkey s <= k * 100 * key_unit.

(** A running sum of any scores: the [int] 0, or a float that is zero
    or above. *)
Definition nonneg_num (v : Py.num) : Prop :=
  v = Py.Int 0 \/ exists f, v = Py.Float f /\ (0 <=? f)%float = true.

End Range.

Ltac solve_cmp :=
  match goal with
  | |- (_ ?= _) = Lt => apply Z.compare_lt_iff
  | |- (_ ?= _) = Gt => apply Z.compare_gt_iff
  | |- (_ ?= _) = Eq => apply Z.compare_eq_iff
  end.

(** ** Sample data *)

Module Examples.

#[local] Open Scope string_scope.

Definition scenario_frame : Pd.DataFrame :=
  {| Pd.index_len := 3;
     Pd.columns := [("A", Pd.Float64 [1.5; nan; 2]%float); ("B", Pd.Int64 [1; 2; 3])];
     Pd.memory_usage := 180 |}.

Definition repeated_frame : Pd.DataFrame :=
  {| Pd.index_len := 4;
     Pd.columns := [("id", Pd.Int64 [7; 8; 7; 9]);
                    ("city", Pd.Object [Some "rio"; Some "sp"; Some "rio"; Some "sp"])];
     Pd.memory_usage := 420 |}.

Definition zero_rows_frame : Pd.DataFrame :=
  {| Pd.index_len := 0;
     Pd.columns := [("A", Pd.Float64 [])];
     Pd.memory_usage := 132 |}.

Definition header_only_frame : Pd.DataFrame :=
  {| Pd.index_len := 0;
     Pd.columns := [("A", Pd.Object [])];
     Pd.memory_usage := 132 |}.

Definition no_columns_frame : Pd.DataFrame :=
  {| Pd.index_len := 2; Pd.columns := []; Pd.memory_usage := 16 |}.

Definition column_with (pct : float) : ColumnInfo :=
  {| dtype := "float64"; non_null := 0; null := 0; null_percentage := pct;
     unique := 0; stats := NoStats |}.

Definition sample_profile (name : string) (pct_b : float) : Profile :=
  {| filename := name; rows := 100; columns := 2; size_mb := 1;
     duplicates := {| total := 3; percentage := 3 |};
     columns_info := [("A", column_with 10); ("B", column_with pct_b)] |}.

Definition no_columns_profile : Profile :=
  {| filename := "empty.csv"; rows := 2; columns := 0; size_mb := 0;
     duplicates := {| total := 0; percentage := 0 |};
     columns_info := [] |}.

(** The profile of [repeated_frame]. *)
Definition repeated_profile : Profile :=
  Eval vm_compute in
    match analyze_dataframe repeated_frame "cities.csv" with
    | Py.Ok p => p
    | Py.Raise _ => no_columns_profile
    end.

(** The claims that fail, as they are stated. *)
Definition zero_row_claim (df : Pd.DataFrame) (name : string) : Prop :=
  exists p,
    analyze_dataframe df name = Py.Ok p
    /\ rows p = 0
    /\ (forall col ci, In (col, ci) (columns_info p) -> null_percentage ci = 0%float)
    /\ percentage (duplicates p) = 0%float
    /\ Py.to_float (generate_quality_score p) = 100%float
    /\ generate_markdown_report [(name, p)] <> Py.Raise Py.ZeroDivisionError.

Definition duplicate_claim (df : Pd.DataFrame) (name : string) : Prop :=
  exists p,
    analyze_dataframe df name = Py.Ok p
    /\ total (duplicates p)
       = Z.of_nat (length (filter (Spec.earlier_duplicate df) (seq 0 (Pd.index_len df))))
    /\ percentage (duplicates p)
       = Np.round2 (Np.int64_truediv (total (duplicates p)) (rows p) * 100)%float
    /\ (0 <=? percentage (duplicates p))%float = true
    /\ (percentage (duplicates p) <=? 100)%float = true.

Definition scenario_claim (df : Pd.DataFrame) (name col : string) : Prop :=
  exists p ci,
    analyze_dataframe df name = Py.Ok p
    /\ Py.getitem (columns_info p) col = Some ci
    /\ null_percentage ci = 33.33%float
    /\ Py.to_float (generate_quality_score p) = 83.34%float.

Definition text_frame : Pd.DataFrame :=
  {| Pd.index_len := 3;
     Pd.columns := [("city", Pd.Object [Some "são"; Some EmptyString; Some "recife"])];
     Pd.memory_usage := 200 |}.

(** A file system where one expected file exists and loads as [df]. *)
Definition one_file (df : Pd.DataFrame) : Env :=
  {| raw_dir_exists := true;
     file_exists := fun f => String.eqb f "olist_orders_dataset.csv";
     read_csv := fun f =>
       if String.eqb f "olist_orders_dataset.csv" then Some df else None |}.

(** A file system with the raw data directory and no file in it. *)
Definition no_file : Env :=
  {| raw_dir_exists := true;
     file_exists := fun _ => false;
     read_csv := fun _ => None |}.

(** The profile of [scenario_frame]. *)
Definition scenario_profile_value : Profile :=
  Eval vm_compute in
    match analyze_dataframe scenario_frame "orders.csv" with
    | Py.Ok p => p
    | Py.Raise _ => no_columns_profile
    end.

Definition first_column (p : Profile) : string * ColumnInfo :=
  match columns_info p with
  | c :: _ => c
  | [] => (EmptyString, column_with 0)
  end.

(** [sample_profile] with another duplicate percentage. *)
Definition with_duplicates (p : Profile) (pct : float) : Profile :=
  {| filename := filename p; rows := rows p; columns := columns p;
     size_mb := size_mb p;
     duplicates := {| total := total (duplicates p); percentage := pct |};
     columns_info := columns_info p |}.

(** An interpreter state: something on the console, and the
    dictionaries of [sample_profile] on the heap. *)
Definition sample_state : Obj.state :=
  Eval vm_compute in
    snd (Obj.store (sample_profile "orders.csv" 20)
           {| Obj.heap := []; Obj.console := ["Profiling CSV files..."] |}).

Definition sample_profiles : Py.dict Profile :=
  [("orders.csv", sample_profile "orders.csv" 20);
   ("customers.csv", sample_profile "customers.csv" 50)].

(** The report on [sample_profiles]. *)
Definition sample_report : Report :=
  Eval vm_compute in
    match generate_markdown_report sample_profiles with
    | Py.Ok r => r
    | Py.Raise _ => {| avg_score := 0; sections := [] |}
    end.

End Examples.

Ltac frame_well_formed :=
  split; [repeat constructor | repeat constructor; simpl; intuition discriminate].

(** * Properties *)

Import Spec Binary64 Range Examples.

Lemma key_inf_pos : 0 < key_inf.
Proof. reflexivity. Qed.

Ltac klia := pose proof key_inf_pos; lia.

(** ** Rounding to nearest even is monotone *)

Lemma pow2_pos k : 0 <= k -> 0 < 2 ^ k.
Proof. intros; apply Z.pow_pos_nonneg; lia. Qed.

Lemma rne_shift_bounds a k :
  0 <= k -> a / 2 ^ k <= Np.rne_shift a k <= a / 2 ^ k + 1.
Proof.
  intros Hk. unfold Np.rne_shift.
  destruct (2 * (a mod 2 ^ k) ?= 2 ^ k); try lia.
  destruct (Z.even (a / 2 ^ k)); lia.
Qed.

Lemma rne_shift_exact w k : 0 <= k -> Np.rne_shift (w * 2 ^ k) k = w.
Proof.
  intros Hk. pose proof (pow2_pos k Hk) as Hp. unfold Np.rne_shift.
  rewrite Z.mod_mul, Z.div_mul by lia.
  assert (C : (2 * 0 ?= 2 ^ k) = Lt) by (apply Z.compare_lt_iff; lia).
  now rewrite C.
Qed.

Lemma rne_shift_mono a b k :
  0 <= k -> a <= b -> Np.rne_shift a k <= Np.rne_shift b k.
Proof.
  intros Hk Hab. pose proof (pow2_pos k Hk) as Hp.
  pose proof (Z.div_le_mono a b (2 ^ k) Hp Hab) as Hq.
  destruct (Z.eq_dec (a / 2 ^ k) (b / 2 ^ k)) as [E|N].
  - assert (Hr : a mod 2 ^ k <= b mod 2 ^ k).
    { pose proof (Z.div_mod a (2 ^ k) ltac:(lia)) as Ha.
      pose proof (Z.div_mod b (2 ^ k) ltac:(lia)) as Hb.
      rewrite E in Ha. lia. }
    unfold Np.rne_shift. rewrite E.
    destruct (Z.compare_spec (2 * (a mod 2 ^ k)) (2 ^ k));
      destruct (Z.compare_spec (2 * (b mod 2 ^ k)) (2 ^ k));
      destruct (Z.even (b / 2 ^ k)); lia.
  - pose proof (rne_shift_bounds a k Hk). pose proof (rne_shift_bounds b k Hk). lia.
Qed.

Lemma rne_shift_scale a j k :
  0 <= j -> 0 <= k -> Np.rne_shift (a * 2 ^ j) (k + j) = Np.rne_shift a k.
Proof.
  intros Hj Hk. pose proof (pow2_pos j Hj). pose proof (pow2_pos k Hk).
  unfold Np.rne_shift.
  rewrite Z.pow_add_r by lia.
  rewrite Z.div_mul_cancel_r by lia.
  rewrite Z.mul_mod_distr_r by lia.
  assert (C : (2 * (a mod 2 ^ k * 2 ^ j) ?= 2 ^ k * 2 ^ j)
              = (2 * (a mod 2 ^ k) ?= 2 ^ k)).
  { destruct (Z.compare_spec (2 * (a mod 2 ^ k)) (2 ^ k));
      [apply Z.compare_eq_iff | apply Z.compare_lt_iff | apply Z.compare_gt_iff]; nia. }
  now rewrite C.
Qed.

(** rounding to a multiple of 2^k never crosses a multiple of 2^k *)
Lemma rne_shift_le_multiple a w k :
  0 <= k -> a <= w * 2 ^ k -> Np.rne_shift a k <= w.
Proof.
  intros Hk H. rewrite <- (rne_shift_exact w k Hk). now apply rne_shift_mono.
Qed.

Lemma rne_shift_ge_multiple a w k :
  0 <= k -> w * 2 ^ k <= a -> w <= Np.rne_shift a k.
Proof.
  intros Hk H. rewrite <- (rne_shift_exact w k Hk). now apply rne_shift_mono.
Qed.

Lemma log2_digits_bounds V : 0 < V -> 2 ^ (Z.log2 V) <= V < 2 ^ (Z.log2 V + 1).
Proof. intros H. pose proof (Z.log2_spec V H). replace (Z.log2 V + 1) with (Z.succ (Z.log2 V)) by lia. lia. Qed.

Lemma round_mult_mono c V1 V2 :
  0 <= c -> 0 <= V1 <= V2 -> round_mult c V1 <= round_mult c V2.
Proof.
  intros Hc [H1 H12]. unfold round_mult.
  set (k1 := Z.max (Z.log2 V1 + 1 - 53) c).
  set (k2 := Z.max (Z.log2 V2 + 1 - 53) c).
  assert (Hl : Z.log2 V1 <= Z.log2 V2) by (apply Z.log2_le_mono; lia).
  assert (Hk1 : 0 <= k1) by lia. assert (Hk2 : 0 <= k2) by lia.
  assert (Hk : k1 <= k2) by lia.
  destruct (Z.eq_dec k1 k2) as [E|N].
  - rewrite E. apply Z.mul_le_mono_nonneg_r. { pose proof (pow2_pos k2 Hk2); lia. }
    apply rne_shift_mono; lia.
  - assert (Hk2' : k2 = Z.log2 V2 + 1 - 53) by lia.
    assert (HV2 : 0 < V2). { destruct (Z.eq_dec V2 0); [subst; simpl in *; lia | lia]. }
    pose proof (log2_digits_bounds V2 HV2) as [HV2l _].
    set (W := 2 ^ (k2 + 52)).
    assert (HW2 : W = 2 ^ 52 * 2 ^ k2). { unfold W. rewrite Z.pow_add_r by lia. ring. }
    assert (HW1 : W = 2 ^ (k2 + 52 - k1) * 2 ^ k1).
    { unfold W. rewrite <- Z.pow_add_r by lia. f_equal. lia. }
    assert (HV1W : V1 <= W).
    { destruct (Z.eq_dec V1 0) as [->|]. { unfold W. pose proof (pow2_pos (k2 + 52)). lia. }
      pose proof (log2_digits_bounds V1 ltac:(lia)) as [_ HV1u].
      assert (2 ^ (Z.log2 V1 + 1) <= W). { unfold W. apply Z.pow_le_mono_r; lia. }
      lia. }
    assert (HWV2 : W <= V2). { unfold W. replace (k2 + 52) with (Z.log2 V2) by lia. exact HV2l. }
    transitivity W.
    + rewrite HW1. apply Z.mul_le_mono_nonneg_r. { pose proof (pow2_pos k1 Hk1); lia. }
      apply rne_shift_le_multiple; lia.
    + rewrite HW2. apply Z.mul_le_mono_nonneg_r. { pose proof (pow2_pos k2 Hk2); lia. }
      apply rne_shift_ge_multiple; lia.
Qed.

Lemma round_key_mult c V : 0 <= c -> round_key c V * 2 ^ c = Z.min (round_mult c V) (key_inf * 2 ^ c).
Proof.
  intros Hc. unfold round_key, round_mult. cbv zeta.
  set (k := Z.max (Z.log2 V + 1 - 53) c).
  pose proof (pow2_pos c Hc).
  rewrite <- Z.mul_min_distr_nonneg_r by lia.
  f_equal.
  rewrite <- Z.mul_assoc, <- Z.pow_add_r by lia. do 2 f_equal. lia.
Qed.

Lemma round_key_mono c V1 V2 :
  0 <= c -> 0 <= V1 <= V2 -> round_key c V1 <= round_key c V2.
Proof.
  intros Hc H. pose proof (pow2_pos c Hc).
  apply (Z.mul_le_mono_pos_r _ _ (2 ^ c)); [lia|].
  rewrite !round_key_mult by lia.
  apply Z.min_le_compat_r. now apply round_mult_mono.
Qed.

(** ** The rounding of [SpecFloat], bit by bit *)

Lemma fexp_eq x : fexp prec emax x = Z.max (x - 53) (-1074).
Proof. reflexivity. Qed.

Lemma log2_double (q : positive) (b : bool) :
  Z.log2 (Zpos (if b then xI q else xO q)) = Z.log2 (Zpos q) + 1.
Proof. destruct b, q; simpl; lia. Qed.

Lemma digits2_log2 p : Zpos (digits2_pos p) = Z.log2 (Zpos p) + 1.
Proof.
  induction p as [p IH|p IH|]; simpl digits2_pos; try reflexivity.
  - rewrite Pos2Z.inj_succ, IH. rewrite (log2_double p true). lia.
  - rewrite Pos2Z.inj_succ, IH. rewrite (log2_double p false). lia.
Qed.

Lemma shr_1_nonneg m r s :
  0 <= m -> shr_1 {| shr_m := m; shr_r := r; shr_s := s |}
            = {| shr_m := m / 2; shr_r := Z.odd m; shr_s := r || s |}.
Proof.
  intros Hm. rewrite <- Z.div2_div.
  destruct m as [|p|p]; [reflexivity| |lia].
  destruct p; reflexivity.
Qed.

Lemma shr_1_rep N j mrs :
  0 <= N -> 1 <= j -> Rep N j mrs -> Rep N (j + 1) (shr_1 mrs).
Proof.
  intros HN Hj (Hm & Hr & Hs). destruct mrs as [m r s]. simpl in Hm, Hr, Hs.
  pose proof (pow2_pos j ltac:(lia)) as Hpj.
  pose proof (pow2_pos (j - 1) ltac:(lia)) as Hpj1.
  assert (Hm0 : 0 <= m) by (subst m; apply Z.div_pos; lia).
  rewrite shr_1_nonneg by assumption. unfold Rep.
  replace (j + 1 - 1) with j by lia.
  assert (Hpow : 2 ^ j = 2 ^ (j - 1) * 2).
  { replace j with (j - 1 + 1) at 1 by lia. rewrite Z.pow_add_r by lia. reflexivity. }
  repeat split; simpl.
  - subst m. rewrite Z.pow_add_r, Z.div_div by lia. reflexivity.
  - now subst m.
  - subst r s. rewrite Hpow at 1. rewrite Z.rem_mul_r by lia.
    pose proof (Z.mod_pos_bound N (2 ^ (j - 1)) Hpj1) as Hb.
    generalize (N mod 2 ^ (j - 1)) Hb; intros a Ha.
    rewrite Zodd_mod.
    pose proof (Z.mod_pos_bound (N / 2 ^ (j - 1)) 2 ltac:(lia)) as Hc.
    generalize ((N / 2 ^ (j - 1)) mod 2) Hc; intros b Hb2.
    destruct (Z.eqb_spec b 1), (Z.eqb_spec a 0), (Z.eqb_spec (a + 2 ^ (j - 1) * b) 0);
      simpl; try reflexivity; nia.
Qed.

Lemma iter_shr_1_rep N p : 0 <= N ->
  forall j mrs, 1 <= j -> Rep N j mrs -> Rep N (j + Zpos p) (iter_pos shr_1 p mrs).
Proof.
  intros HN. induction p as [p IH|p IH|]; intros j mrs Hj H; simpl iter_pos.
  - replace (j + Zpos p~1) with (j + 1 + Zpos p + Zpos p) by lia.
    apply IH; [lia|]. apply IH; [lia|]. now apply shr_1_rep.
  - replace (j + Zpos p~0) with (j + Zpos p + Zpos p) by lia.
    apply IH; [lia|]. now apply IH.
  - now apply shr_1_rep.
Qed.

Lemma loc_code_range l : 0 <= loc_code l <= 3.
Proof. destruct l as [|[]]; simpl; lia. Qed.

Lemma rep_of_loc m l : 0 <= m -> Rep (4 * m + loc_code l) 2 (shr_record_of_loc m l).
Proof.
  intros Hm. unfold Rep. change (2 ^ 2) with 4. change (2 ^ (2 - 1)) with 2.
  assert (H1 : (4 * m + loc_code l) / 4 = m).
  { pose proof (loc_code_range l). symmetry. apply (Z.div_unique _ 4 m (loc_code l)); lia. }
  assert (H2 : forall q r, loc_code l = 2 * q + r -> 0 <= r < 2 ->
               (4 * m + loc_code l) / 2 = 2 * m + q /\ (4 * m + loc_code l) mod 2 = r).
  { intros q r E Hr. split; [symmetry; apply (Z.div_unique _ 2 _ r) | symmetry; apply (Z.mod_unique _ 2 (2 * m + q))]; lia. }
  rewrite H1.
  destruct l as [|[]]; simpl shr_record_of_loc; simpl shr_m; simpl shr_r; simpl shr_s.
  - destruct (H2 0 0) as [-> ->]; [reflexivity|lia|].
    rewrite Z.add_0_r, Z.odd_mul. repeat split; reflexivity.
  - destruct (H2 1 0) as [-> ->]; [reflexivity|lia|].
    rewrite Z.add_comm, Z.odd_add_mul_2. repeat split; reflexivity.
  - destruct (H2 0 1) as [-> ->]; [reflexivity|lia|].
    rewrite Z.add_0_r, Z.odd_mul. repeat split; reflexivity.
  - destruct (H2 1 1) as [-> ->]; [reflexivity|lia|].
    rewrite Z.add_comm, Z.odd_add_mul_2. repeat split; reflexivity.
Qed.

Lemma rne_of_rep N j mrs :
  0 <= N -> 1 <= j -> Rep N j mrs ->
  round_nearest_even (shr_m mrs) (loc_of_shr_record mrs) = Np.rne_shift N j.
Proof.
  intros HN Hj (Hm & Hr & Hs). destruct mrs as [m r s]. simpl in Hm, Hr, Hs.
  pose proof (pow2_pos (j - 1) ltac:(lia)) as Hp.
  assert (Hpow : 2 ^ j = 2 ^ (j - 1) * 2).
  { replace j with (j - 1 + 1) at 1 by lia. rewrite Z.pow_add_r by lia. reflexivity. }
  unfold Np.rne_shift. rewrite <- Hm.
  assert (Hmod : N mod 2 ^ j = N mod 2 ^ (j - 1) + 2 ^ (j - 1) * ((N / 2 ^ (j - 1)) mod 2)).
  { rewrite Hpow at 1. apply Z.rem_mul_r; lia. }
  rewrite Hmod. rewrite Zodd_mod in Hr.
  pose proof (Z.mod_pos_bound N (2 ^ (j - 1)) Hp) as Ha.
  pose proof (Z.mod_pos_bound (N / 2 ^ (j - 1)) 2 ltac:(lia)) as Hb.
  revert Hr Hs Ha Hb.
  generalize (N mod 2 ^ (j - 1)) ((N / 2 ^ (j - 1)) mod 2). intros a b Hr Hs Ha Hb.
  destruct (Z.compare_spec (2 * (a + 2 ^ (j - 1) * b)) (2 ^ j)) as [C|C|C];
    destruct (Z.eqb_spec b 1), (Z.eqb_spec a 0); simpl in Hr, Hs; subst r s;
    simpl; try reflexivity; nia.
Qed.

Lemma shr_rep N m e l n :
  0 <= m -> N = 4 * m + loc_code l -> 0 <= n ->
  let '(mrs, e') := shr (shr_record_of_loc m l) e n in
  Rep N (2 + n) mrs /\ e' = e + n.
Proof.
  intros Hm HN Hn. pose proof (loc_code_range l).
  unfold shr. destruct n as [|p|p]; [| |lia].
  - split; [|lia]. subst N. now apply rep_of_loc.
  - split; [|reflexivity]. apply iter_shr_1_rep; [lia|lia|]. subst N. now apply rep_of_loc.
Qed.

Lemma shr_nonpos mrs e n : n <= 0 -> shr mrs e n = (mrs, e).
Proof. intros H. destruct n; [reflexivity|lia|reflexivity]. Qed.

Lemma Zdigits2_log2 m : 0 < m -> Zdigits2 m = Z.log2 m + 1.
Proof. intros H. destruct m; try lia. apply digits2_log2. Qed.

Lemma round_aux_key s m e l c :
  0 < m -> 0 <= c -> - (1074 + c) <= e - 2 ->
  e <= fexp prec emax (Zdigits2 m + e) ->
  binary_round_aux prec emax s m e l <> S754_nan
  /\ key (binary_round_aux prec emax s m e l)
     = sgn s * round_key c ((4 * m + loc_code l) * 2 ^ (e - 2 + 1074 + c)).
Proof.
  intros Hm Hc He Hal.
  rewrite Zdigits2_log2 in Hal by assumption. rewrite fexp_eq in Hal.
  unfold binary_round_aux, shr_fexp.
  rewrite (Zdigits2_log2 m Hm), fexp_eq.
  set (d := Z.log2 m + 1) in *.
  set (E := Z.max (d + e - 53) (-1074)) in *.
  set (N := 4 * m + loc_code l).
  pose proof (loc_code_range l) as Hcode.
  pose proof (Z.log2_nonneg m) as Hlog0.
  pose proof (log2_digits_bounds m Hm) as [Hml Hmu]. fold d in Hmu.
  assert (Hm0 : 0 <= m) by lia.
  assert (HEe : 0 <= E - e) by lia.
  pose proof (shr_rep N m e l (E - e) Hm0 eq_refl HEe) as Hshr.
  destruct (shr (shr_record_of_loc m l) e (E - e)) as [mrs' e'].
  destruct Hshr as [Hrep He']. replace (e + (E - e)) with E in He' by lia. subst e'.
  assert (HN0 : 0 <= N) by (unfold N; lia).
  rewrite (rne_of_rep N (2 + (E - e)) mrs' HN0 ltac:(lia) Hrep).
  set (q' := Np.rne_shift N (2 + (E - e))).
  (* the rounded mantissa *)
  set (t := e - 2 + 1074 + c).
  assert (Ht : 0 <= t) by (unfold t; lia).
  assert (HlogN : Z.log2 N = Z.log2 m + 2).
  { apply Z.log2_unique; [lia|]. replace (Z.succ (Z.log2 m + 2)) with (d + 2) by (unfold d; lia).
    unfold d in *. rewrite !Z.pow_add_r by lia. change (2 ^ 2) with 4. unfold N.
    rewrite Z.pow_add_r in Hmu by lia. lia. }
  assert (HlogV : Z.log2 (N * 2 ^ t) = Z.log2 N + t).
  { rewrite <- Z.shiftl_mul_pow2 by lia. apply Z.log2_shiftl; lia. }
  assert (Hk : Z.max (Z.log2 (N * 2 ^ t) + 1 - 53) c = (2 + (E - e)) + t).
  { rewrite HlogV, HlogN. unfold E, t, d. lia. }
  assert (Hrk : round_key c (N * 2 ^ t) = Z.min (q' * 2 ^ (E + 1074)) key_inf).
  { unfold round_key. cbv zeta. rewrite Hk. rewrite rne_shift_scale by lia.
    fold q'. do 2 f_equal. unfold t. f_equal. lia. }
  rewrite Hrk.
  (* bounds on the rounded mantissa *)
  assert (Hq : N / 2 ^ (2 + (E - e)) = m / 2 ^ (E - e)).
  { rewrite Z.pow_add_r by lia. rewrite <- Z.div_div by (try lia; apply Z.pow_pos_nonneg; lia).
    f_equal. change (2 ^ 2) with 4. unfold N. symmetry.
    apply (Z.div_unique _ 4 m (loc_code l)); lia. }
  pose proof (rne_shift_bounds N (2 + (E - e)) ltac:(lia)) as Hqb. fold q' in Hqb.
  rewrite Hq in Hqb.
  pose proof (pow2_pos (E - e) ltac:(lia)) as Hpk.
  assert (Hqu : m / 2 ^ (E - e) < 2 ^ 53).
  { apply Z.div_lt_upper_bound; [lia|]. rewrite <- Z.pow_add_r by lia.
    eapply Z.lt_le_trans; [exact Hmu|]. apply Z.pow_le_mono_r; unfold E; lia. }
  assert (Hq0 : 0 <= m / 2 ^ (E - e)) by (apply Z.div_pos; lia).
  assert (Hql : -1074 < E -> 2 ^ 52 <= m / 2 ^ (E - e)).
  { intros HE. apply Z.div_le_lower_bound; [lia|]. rewrite <- Z.pow_add_r by lia.
    eapply Z.le_trans; [|exact Hml]. apply Z.pow_le_mono_r; unfold E, d in *; lia. }
  pose proof (pow2_pos (E + 1074) ltac:(unfold E; lia)) as HpE.
  destruct (Z.eq_dec q' 0) as [Hz|Hnz].
  - (* rounds to zero *)
    rewrite Hz. simpl Zdigits2. rewrite fexp_eq.
    rewrite shr_nonpos by (unfold E; lia). simpl shr_m.
    split; [discriminate|]. cbn [key]. klia.
  - assert (Hq'pos : 0 < q') by lia.
    rewrite (Zdigits2_log2 q' Hq'pos), fexp_eq.
    pose proof (log2_digits_bounds q' Hq'pos) as [Hq'l Hq'u].
    destruct (Z.eq_dec q' (2 ^ 53)) as [Hcarry|Hnc].
    + (* carry into the next binade *)
      rewrite Hcarry. change (Z.log2 (2 ^ 53)) with 53.
      replace (Z.max (53 + 1 + E - 53) (-1074) - E) with 1 by (unfold E; lia).
      assert (Hs : shr (shr_record_of_loc (2 ^ 53) loc_Exact) E 1
                   = ({| shr_m := Zpos 4503599627370496; shr_r := false; shr_s := false |}, E + 1))
        by reflexivity.
      rewrite Hs. cbv iota beta. simpl shr_m. cbv iota beta.
      change (Z.sub emax prec) with 971.
      destruct (Z.leb_spec (E + 1) 971) as [Hle|Hgt].
      * split; [discriminate|]. cbn [key].
        change (Zpos 4503599627370496) with (2 ^ 52).
        assert (Hval : 2 ^ 52 * 2 ^ (E + 1 + 1074) = 2 ^ 53 * 2 ^ (E + 1074)).
        { replace (E + 1 + 1074) with (1 + (E + 1074)) by lia.
          rewrite Z.pow_add_r by lia. change (2 ^ 53) with (2 ^ 52 * 2 ^ 1). ring. }
        rewrite Hval. rewrite Z.min_l; [reflexivity|]. unfold key_inf.
        rewrite <- Z.pow_add_r by lia. apply Z.pow_le_mono_r; lia.
      * split; [discriminate|]. cbn [key].
        rewrite Z.min_r; [reflexivity|]. unfold key_inf.
        rewrite <- Z.pow_add_r by lia. apply Z.pow_le_mono_r; lia.
    + assert (Hq'lt : q' < 2 ^ 53) by lia.
      assert (Hlog : Z.log2 q' < 53).
      { apply Z.log2_lt_pow2; lia. }
      rewrite shr_nonpos by (unfold E; lia). simpl shr_m.
      destruct q' as [|p|p] eqn:Eq; try lia.
      change (Z.sub emax prec) with 971.
      destruct (Z.leb_spec E 971) as [Hle|Hgt].
      * split; [discriminate|]. cbn [key].
        rewrite Z.min_l; [reflexivity|].
        assert (Zpos p * 2 ^ (E + 1074) <= 2 ^ 53 * 2 ^ (E + 1074)) by nia.
        eapply Z.le_trans; [exact H|]. unfold key_inf. rewrite <- Z.pow_add_r by lia.
        apply Z.pow_le_mono_r; lia.
      * split; [discriminate|]. cbn [key].
        rewrite Z.min_r; [reflexivity|].
        specialize (Hql ltac:(lia)).
        assert (2 ^ 52 * 2 ^ (E + 1074) <= Zpos p * 2 ^ (E + 1074)) by nia.
        eapply Z.le_trans; [|exact H]. unfold key_inf. rewrite <- Z.pow_add_r by lia.
        apply Z.pow_le_mono_r; lia.
Qed.

(** ** Keys and the order of floats *)

Lemma rne_shift_0 k : 0 <= k -> Np.rne_shift 0 k = 0.
Proof. intros. apply (rne_shift_exact 0 k H). Qed.

Lemma round_key_0 c : 0 <= c -> round_key c 0 = 0.
Proof.
  intros Hc. unfold round_key. cbv zeta. rewrite rne_shift_0 by (simpl; lia).
  simpl. reflexivity.
Qed.

Lemma round_key_nonneg c V : 0 <= c -> 0 <= V -> 0 <= round_key c V.
Proof.
  intros Hc HV. rewrite <- (round_key_0 c Hc). apply round_key_mono; lia.
Qed.

Lemma round_skey_mono c V1 V2 : 0 <= c -> V1 <= V2 -> round_skey c V1 <= round_skey c V2.
Proof.
  intros Hc H. unfold round_skey.
  destruct (Z.ltb_spec V1 0), (Z.ltb_spec V2 0); try lia.
  - pose proof (round_key_mono c (- V2) (- V1) Hc). lia.
  - pose proof (round_key_nonneg c (- V1) Hc). pose proof (round_key_nonneg c V2 Hc). lia.
  - apply round_key_mono; lia.
Qed.

Lemma round_skey_sgn c s V : 0 <= c -> 0 <= V -> round_skey c (sgn s * V) = sgn s * round_key c V.
Proof.
  intros Hc HV. unfold round_skey, sgn. destruct s.
  - replace (-1 * V) with (- V) by lia. rewrite Z.opp_involutive.
    destruct (Z.ltb_spec (- V) 0); [lia|].
    assert (V = 0) by lia. subst V. change (- 0) with 0. rewrite round_key_0 by lia. reflexivity.
  - rewrite Z.mul_1_l. destruct (Z.ltb_spec V 0); lia.
Qed.

Lemma round_key_scale c j V :
  0 <= c -> 0 <= j -> 0 <= V -> round_key (c + j) (V * 2 ^ j) = round_key c V.
Proof.
  intros Hc Hj HV. destruct (Z.eq_dec V 0) as [->|Hnz].
  { rewrite Z.mul_0_l, !round_key_0 by lia. reflexivity. }
  unfold round_key. cbv zeta.
  assert (Hlog : Z.log2 (V * 2 ^ j) = Z.log2 V + j).
  { rewrite <- Z.shiftl_mul_pow2 by lia. apply Z.log2_shiftl; lia. }
  rewrite Hlog.
  replace (Z.max (Z.log2 V + j + 1 - 53) (c + j)) with (Z.max (Z.log2 V + 1 - 53) c + j) by lia.
  rewrite rne_shift_scale by lia. do 2 f_equal. f_equal. lia.
Qed.

(** *** Valid floats *)

Lemma valid_finite s m e :
  valid_binary (S754_finite s m e) = true ->
  -1074 <= e <= 971 /\ Zpos m < 2 ^ 53 /\ (-1074 < e -> 2 ^ 52 <= Zpos m)
  /\ e = Z.max (Z.log2 (Zpos m) + 1 + e - 53) (-1074).
Proof.
  unfold valid_binary, bounded, canonical_mantissa. rewrite fexp_eq, digits2_log2.
  change (Z.sub emax prec) with 971.
  intros H. apply andb_true_iff in H as [H1 H2].
  apply Z.eqb_eq in H1. apply Z.leb_le in H2.
  pose proof (log2_digits_bounds (Zpos m) ltac:(lia)) as [Hl Hu].
  pose proof (Z.log2_nonneg (Zpos m)).
  repeat split; try lia.
  - eapply Z.lt_le_trans; [exact Hu|]. apply Z.pow_le_mono_r; lia.
  - intros He. eapply Z.le_trans; [|exact Hl]. apply Z.pow_le_mono_r; lia.
Qed.

Lemma key_finite_bounds s m e :
  valid_binary (S754_finite s m e) = true ->
  0 < Zpos m * 2 ^ (e + 1074) < key_inf.
Proof.
  intros H. apply valid_finite in H as (He & Hm & _ & _).
  pose proof (pow2_pos (e + 1074) ltac:(lia)).
  split; [lia|].
  assert (Zpos m * 2 ^ (e + 1074) < 2 ^ 53 * 2 ^ (e + 1074)) by nia.
  eapply Z.lt_le_trans; [exact H0|]. rewrite <- Z.pow_add_r by lia.
  apply Z.pow_le_mono_r; lia.
Qed.

Lemma key_range x : valid_binary x = true -> - key_inf <= key x <= key_inf.
Proof.
  intros H. destruct x as [s|s| |s m e]; cbn [key]; unfold sgn.
  - klia.
  - destruct s; klia.
  - klia.
  - pose proof (key_finite_bounds s m e H). destruct s; klia.
Qed.

Lemma key_finite_lt s1 m1 e1 m2 e2 :
  valid_binary (S754_finite s1 m1 e1) = true ->
  valid_binary (S754_finite s1 m2 e2) = true ->
  e1 < e2 -> Zpos m1 * 2 ^ (e1 + 1074) < Zpos m2 * 2 ^ (e2 + 1074).
Proof.
  intros H1 H2 He.
  apply valid_finite in H1 as (He1 & Hm1 & _ & _).
  apply valid_finite in H2 as (He2 & _ & Hm2 & _).
  specialize (Hm2 ltac:(lia)).
  pose proof (pow2_pos (e1 + 1074) ltac:(lia)).
  assert (A : Zpos m1 * 2 ^ (e1 + 1074) < 2 ^ 53 * 2 ^ (e1 + 1074)) by nia.
  assert (B : 2 ^ 52 * 2 ^ (e2 + 1074) <= Zpos m2 * 2 ^ (e2 + 1074)).
  { apply Z.mul_le_mono_nonneg_r; [|lia]. apply Z.pow_nonneg; lia. }
  assert (C : 2 ^ 53 * 2 ^ (e1 + 1074) <= 2 ^ 52 * 2 ^ (e2 + 1074)).
  { rewrite <- !Z.pow_add_r by lia. apply Z.pow_le_mono_r; lia. }
  lia.
Qed.

Lemma SFcompare_key x y :
  valid_binary x = true -> valid_binary y = true ->
  x <> S754_nan -> y <> S754_nan ->
  SFcompare x y = Some (key x ?= key y).
Proof.
  intros Vx Vy Nx Ny.
  pose proof key_inf_pos as P.
  destruct x as [sx|sx| |sx mx ex]; try congruence;
    destruct y as [sy|sy| |sy my ey]; try congruence; cbn [SFcompare key]; f_equal;
    try (pose proof (key_finite_bounds _ _ _ Vx) as Bx);
    try (pose proof (key_finite_bounds _ _ _ Vy) as By);
    unfold sgn; symmetry.
  8: {
    destruct sx, sy.
    + destruct (Z.compare_spec ex ey) as [E|L|G].
      * subst ey. change (Pos.compare_cont Eq mx my) with (Pos.compare mx my).
        rewrite <- Pos.compare_antisym. rewrite Pos2Z.inj_compare.
        pose proof (pow2_pos (ex + 1074) ltac:(apply valid_finite in Vx; klia)).
        destruct (Z.compare_spec (Zpos my) (Zpos mx)); solve_cmp; nia.
      * pose proof (key_finite_lt true mx ex my ey Vx Vy L). solve_cmp. klia.
      * pose proof (key_finite_lt true my ey mx ex Vy Vx G). solve_cmp. klia.
    + solve_cmp. klia.
    + solve_cmp. klia.
    + destruct (Z.compare_spec ex ey) as [E|L|G].
      * subst ey. change (Pos.compare_cont Eq mx my) with (Pos.compare mx my).
        rewrite Pos2Z.inj_compare.
        pose proof (pow2_pos (ex + 1074) ltac:(apply valid_finite in Vx; klia)).
        destruct (Z.compare_spec (Zpos mx) (Zpos my)); solve_cmp; nia.
      * pose proof (key_finite_lt false mx ex my ey Vx Vy L). solve_cmp. klia.
      * pose proof (key_finite_lt false my ey mx ex Vy Vx G). solve_cmp. klia. }
  all: try destruct sx; try destruct sy; solve_cmp; klia.
Qed.

(** ** Subtraction and multiplication round the exact result *)

Lemma iter_xO m d : Zpos (Pos.iter xO m d) = Zpos m * 2 ^ Zpos d.
Proof.
  induction d using Pos.peano_ind.
  - simpl Pos.iter. rewrite Pos2Z.inj_xO. change (2 ^ 1) with 2. lia.
  - rewrite Pos.iter_succ, Pos2Z.inj_xO, IHd, Pos2Z.inj_succ, Z.pow_succ_r by lia. ring.
Qed.

Lemma shl_align_spec mx ex e' :
  snd (shl_align mx ex e') = Z.min ex e'
  /\ Zpos (fst (shl_align mx ex e')) = Zpos mx * 2 ^ (ex - Z.min ex e').
Proof.
  unfold shl_align. destruct (e' - ex) as [|d|d] eqn:E; cbn [fst snd].
  - replace (Z.min ex e') with ex by lia. rewrite Z.sub_diag. simpl. lia.
  - replace (Z.min ex e') with ex by lia. rewrite Z.sub_diag. simpl. lia.
  - replace (Z.min ex e') with e' by lia. split; [reflexivity|].
    rewrite iter_xO. do 2 f_equal. lia.
Qed.

Lemma log2_mul_pow2 m j : 0 < m -> 0 <= j -> Z.log2 (m * 2 ^ j) = Z.log2 m + j.
Proof. intros. rewrite <- Z.shiftl_mul_pow2 by lia. apply Z.log2_shiftl; lia. Qed.

Lemma round_exact_key s m e c :
  0 < m -> 0 <= c -> - (1074 + c) <= e ->
  e <= fexp prec emax (Zdigits2 m + e) ->
  binary_round_aux prec emax s m e loc_Exact <> S754_nan
  /\ key (binary_round_aux prec emax s m e loc_Exact)
     = sgn s * round_key c (m * 2 ^ (e + 1074 + c)).
Proof.
  intros Hm Hc He Hal.
  destruct (round_aux_key s m e loc_Exact (c + 2) Hm ltac:(lia) ltac:(lia) Hal) as [Hn Hk].
  split; [exact Hn|]. rewrite Hk. f_equal. cbn [loc_code].
  rewrite <- (round_key_scale c 2 (m * 2 ^ (e + 1074 + c))); try lia.
  f_equal. replace (e - 2 + 1074 + (c + 2)) with (e + 1074 + c) by lia.
  change (2 ^ 2) with 4. ring.
Qed.

Lemma binary_round_key s m e c :
  0 <= c -> - (1074 + c) <= e ->
  binary_round prec emax s m e <> S754_nan
  /\ key (binary_round prec emax s m e)
     = sgn s * round_key c (Zpos m * 2 ^ (e + 1074 + c)).
Proof.
  intros Hc He. unfold binary_round.
  pose proof (shl_align_spec m e (fexp prec emax (Zpos (digits2_pos m) + e))) as [H1 H2].
  destruct (shl_align m e (fexp prec emax (Zpos (digits2_pos m) + e))) as [mz ez].
  cbn [fst snd] in H1, H2. rewrite fexp_eq, digits2_log2 in H1, H2.
  pose proof (Z.log2_nonneg (Zpos m)) as Hl.
  assert (Hez : - (1074 + c) <= ez) by lia.
  assert (Hlog : Z.log2 (Zpos mz) = Z.log2 (Zpos m) + (e - ez)).
  { rewrite H2, H1. apply log2_mul_pow2; lia. }
  destruct (round_exact_key s (Zpos mz) ez c ltac:(lia) Hc Hez) as [Hn Hk].
  { rewrite Zdigits2_log2, fexp_eq by lia. rewrite Hlog. lia. }
  split; [exact Hn|]. rewrite Hk. do 2 f_equal.
  rewrite H2, <- H1, <- Z.mul_assoc, <- Z.pow_add_r by lia. do 2 f_equal. lia.
Qed.

Lemma binary_normalize_key z e sz c :
  0 <= c -> - (1074 + c) <= e ->
  binary_normalize prec emax z e sz <> S754_nan
  /\ key (binary_normalize prec emax z e sz) = round_skey c (z * 2 ^ (e + 1074 + c)).
Proof.
  intros Hc He. pose proof (pow2_pos (e + 1074 + c) ltac:(lia)) as Hp.
  destruct z as [|m|m]; cbn [binary_normalize].
  - split; [discriminate|]. cbn [key]. unfold round_skey. simpl. now rewrite round_key_0.
  - destruct (binary_round_key false m e c Hc He) as [Hn Hk]. split; [exact Hn|].
    rewrite Hk. rewrite <- round_skey_sgn by lia. f_equal. unfold sgn. lia.
  - destruct (binary_round_key true m e c Hc He) as [Hn Hk]. split; [exact Hn|].
    rewrite Hk. rewrite <- round_skey_sgn by lia. f_equal. unfold sgn. lia.
Qed.

Lemma round_key_valid s m e :
  valid_binary (S754_finite s m e) = true ->
  round_key 0 (Zpos m * 2 ^ (e + 1074)) = Zpos m * 2 ^ (e + 1074).
Proof.
  intros V. pose proof (key_finite_bounds s m e V) as B.
  apply valid_finite in V as (He & Hm & _ & Hc).
  unfold round_key. cbv zeta.
  rewrite log2_mul_pow2 by lia.
  replace (Z.max (Z.log2 (Zpos m) + (e + 1074) + 1 - 53) 0) with (e + 1074) by lia.
  rewrite rne_shift_exact by lia. rewrite Z.sub_0_r. lia.
Qed.

Lemma round_skey_valid x :
  valid_binary x = true -> is_fin x = true -> round_skey 0 (key x) = key x.
Proof.
  intros V F. destruct x as [s|s| |s m e]; try discriminate; cbn [key].
  - unfold round_skey. simpl. now rewrite round_key_0.
  - pose proof (key_finite_bounds s m e V) as [H _]. apply Z.lt_le_incl in H.
    rewrite round_skey_sgn by (assumption || reflexivity).
    now rewrite (round_key_valid s m e V).
Qed.

Lemma cond_Zopp_sgn s z : cond_Zopp s z = sgn s * z.
Proof. destruct s; unfold sgn, cond_Zopp; lia. Qed.

Lemma SFsub_key x y :
  valid_binary x = true -> valid_binary y = true ->
  is_fin x = true -> is_fin y = true ->
  SF64sub x y <> S754_nan
  /\ key (SF64sub x y) = round_skey 0 (key x - key y).
Proof.
  intros Vx Vy Fx Fy. unfold SF64sub.
  destruct x as [sx|sx| |sx mx ex]; try discriminate;
    destruct y as [sy|sy| |sy my ey]; try discriminate; cbn [SFsub].
  - split; [destruct sx, sy; discriminate|].
    replace (key (S754_zero sx) - key (S754_zero sy)) with 0 by reflexivity.
    unfold round_skey. simpl (0 <? 0). rewrite round_key_0 by lia. destruct sx, sy; reflexivity.
  - split; [discriminate|].
    assert (V' : valid_binary (S754_finite (negb sy) my ey) = true) by exact Vy.
    rewrite <- (round_skey_valid _ V' eq_refl). f_equal. cbn [key]. unfold sgn. destruct sy; simpl negb; lia.
  - split; [discriminate|].
    rewrite <- (round_skey_valid _ Vx eq_refl) at 1. f_equal. cbn [key]. lia.
  - pose proof (valid_finite _ _ _ Vx) as (Hex & _). pose proof (valid_finite _ _ _ Vy) as (Hey & _).
    set (ez := Z.min ex ey).
    destruct (binary_normalize_key
                (cond_Zopp sx (Zpos (fst (shl_align mx ex ez)))
                 - cond_Zopp sy (Zpos (fst (shl_align my ey ez)))) ez false 0 ltac:(lia) ltac:(unfold ez; lia))
      as [Hn Hk].
    split; [exact Hn|]. rewrite Hk. f_equal.
    pose proof (shl_align_spec mx ex ez) as [_ ->].
    pose proof (shl_align_spec my ey ez) as [_ ->].
    replace (Z.min ex ez) with ez by (unfold ez; lia).
    replace (Z.min ey ez) with ez by (unfold ez; lia).
    rewrite !cond_Zopp_sgn. cbn [key]. rewrite Z.add_0_r, Z.mul_sub_distr_r.
    rewrite <- !Z.mul_assoc, <- !Z.pow_add_r by (unfold ez; lia).
    replace (ex - ez + (ez + 1074)) with (ex + 1074) by lia.
    replace (ey - ez + (ez + 1074)) with (ey + 1074) by lia. reflexivity.
Qed.

Lemma sgn_xorb a b : sgn (xorb a b) = sgn a * sgn b.
Proof. destruct a, b; reflexivity. Qed.

Lemma SFmul_key x y :
  valid_binary x = true -> valid_binary y = true ->
  is_fin x = true -> is_fin y = true ->
  SF64mul x y <> S754_nan
  /\ key (SF64mul x y) = round_skey 1074 (key x * key y).
Proof.
  intros Vx Vy Fx Fy. unfold SF64mul.
  assert (Z0 : round_skey 1074 0 = 0).
  { unfold round_skey. simpl (0 <? 0). now rewrite round_key_0. }
  destruct x as [sx|sx| |sx mx ex]; try discriminate;
    destruct y as [sy|sy| |sy my ey]; try discriminate; cbn [SFmul].
  - split; [discriminate|]. cbn [key]. now rewrite Z.mul_0_l, Z0.
  - split; [discriminate|]. cbn [key]. now rewrite Z.mul_0_l, Z0.
  - split; [discriminate|]. cbn [key]. now rewrite Z.mul_0_r, Z0.
  - pose proof (valid_finite _ _ _ Vx) as (Hex & _ & _ & Hcx).
    pose proof (valid_finite _ _ _ Vy) as (Hey & _ & _ & Hcy).
    pose proof (Z.log2_mul_below (Zpos mx) (Zpos my) ltac:(lia) ltac:(lia)) as Hlog.
    pose proof (Z.log2_nonneg (Zpos mx)). pose proof (Z.log2_nonneg (Zpos my)).
    destruct (round_exact_key (xorb sx sy) (Zpos (mx * my)) (ex + ey) 1074
                ltac:(lia) ltac:(lia) ltac:(lia)) as [Hn Hk].
    { rewrite Zdigits2_log2, fexp_eq by lia. rewrite Pos2Z.inj_mul. lia. }
    split; [exact Hn|]. rewrite Hk. cbn [key].
    pose proof (pow2_pos (ex + 1074) ltac:(lia)). pose proof (pow2_pos (ey + 1074) ltac:(lia)).
    replace (sgn sx * (Zpos mx * 2 ^ (ex + 1074)) * (sgn sy * (Zpos my * 2 ^ (ey + 1074))))
      with (sgn (xorb sx sy) * ((Zpos mx * 2 ^ (ex + 1074)) * (Zpos my * 2 ^ (ey + 1074))))
      by (rewrite sgn_xorb; ring).
    rewrite round_skey_sgn by nia. do 2 f_equal.
    rewrite Pos2Z.inj_mul.
    replace (ex + ey + 1074 + 1074) with ((ex + 1074) + (ey + 1074)) by lia.
    rewrite Z.pow_add_r by lia. ring.
Qed.

(** ** The primitive operations *)

Lemma fkey_range x : - key_inf <= fkey x <= key_inf.
Proof. apply key_range, Prim2SF_valid. Qed.

Lemma nan_dec (a : spec_float) : {a = S754_nan} + {a <> S754_nan}.
Proof. destruct a; (now left) || (right; discriminate). Qed.

Lemma SFleb_iff a b :
  valid_binary a = true -> valid_binary b = true ->
  SFleb a b = true <-> a <> S754_nan /\ b <> S754_nan /\ key a <= key b.
Proof.
  intros Va Vb. unfold SFleb.
  destruct (nan_dec a) as [->|Na].
  { cbn [SFcompare]. split; [discriminate|]. intros (H & _); congruence. }
  destruct (nan_dec b) as [->|Nb].
  { replace (SFcompare a S754_nan) with (@None comparison) by (destruct a; reflexivity).
    split; [discriminate|]. intros (_ & H & _); congruence. }
  rewrite SFcompare_key by assumption.
  destruct (Z.compare_spec (key a) (key b)); split; try discriminate; try tauto;
    try (intros _; repeat split; assumption || lia); intros (_ & _ & H'); lia.
Qed.

Lemma SFltb_iff a b :
  valid_binary a = true -> valid_binary b = true ->
  SFltb a b = true <-> a <> S754_nan /\ b <> S754_nan /\ key a < key b.
Proof.
  intros Va Vb. unfold SFltb.
  destruct (nan_dec a) as [->|Na].
  { cbn [SFcompare]. split; [discriminate|]. intros (H & _); congruence. }
  destruct (nan_dec b) as [->|Nb].
  { replace (SFcompare a S754_nan) with (@None comparison) by (destruct a; reflexivity).
    split; [discriminate|]. intros (_ & H & _); congruence. }
  rewrite SFcompare_key by assumption.
  destruct (Z.compare_spec (key a) (key b)); split; try discriminate; try tauto;
    try (intros _; repeat split; assumption || lia); intros (_ & _ & H'); lia.
Qed.

Lemma leb_iff x y :
  (x <=? y)%float = true <-> not_nan x /\ not_nan y /\ fkey x <= fkey y.
Proof. rewrite FloatAxioms.leb_spec. apply SFleb_iff; apply Prim2SF_valid. Qed.

Lemma ltb_iff x y :
  (x <? y)%float = true <-> not_nan x /\ not_nan y /\ fkey x < fkey y.
Proof. rewrite FloatAxioms.ltb_spec. apply SFltb_iff; apply Prim2SF_valid. Qed.

Lemma is_nan_iff x : is_nan x = true <-> Prim2SF x = S754_nan.
Proof.
  unfold is_nan. rewrite FloatAxioms.eqb_spec. unfold SFeqb.
  pose proof (Prim2SF_valid x) as Vx.
  destruct (nan_dec (Prim2SF x)) as [E|N].
  - rewrite E. cbn. tauto.
  - rewrite SFcompare_key by assumption. rewrite Z.compare_refl. cbn.
    split; [discriminate|congruence].
Qed.

Lemma sub_fin x y :
  fin x = true -> fin y = true ->
  not_nan (x - y) /\ fkey (x - y)%float = round_skey 0 (fkey x - fkey y).
Proof.
  intros Fx Fy. unfold not_nan, fkey. rewrite FloatAxioms.sub_spec.
  apply SFsub_key; auto using Prim2SF_valid.
Qed.

Lemma mul_fin x y :
  fin x = true -> fin y = true ->
  not_nan (x * y) /\ fkey (x * y)%float = round_skey 1074 (fkey x * fkey y).
Proof.
  intros Fx Fy. unfold not_nan, fkey. rewrite FloatAxioms.mul_spec.
  apply SFmul_key; auto using Prim2SF_valid.
Qed.

Lemma key_fin_strict a :
  valid_binary a = true -> is_fin a = true -> - key_inf < key a < key_inf.
Proof.
  intros V F. destruct a as [s|s| |s m e]; try discriminate; cbn [key].
  - klia.
  - pose proof (key_finite_bounds s m e V). unfold sgn. destruct s; klia.
Qed.

Lemma key_not_fin a :
  a <> S754_nan -> is_fin a = false -> exists s, a = S754_infinity s.
Proof. intros N F. destruct a; try discriminate; try congruence. now exists s. Qed.

Lemma fkey_fin x : fin x = true -> - key_inf < fkey x < key_inf.
Proof. apply key_fin_strict, Prim2SF_valid. Qed.

Lemma fin_not_nan x : fin x = true -> not_nan x.
Proof. unfold fin, not_nan. destruct (Prim2SF x); discriminate || (intros; discriminate). Qed.

Lemma fkey_not_fin x :
  not_nan x -> fin x = false -> fkey x = key_inf \/ fkey x = - key_inf.
Proof.
  intros N F. destruct (key_not_fin _ N F) as [s E]. unfold fkey. rewrite E.
  cbn [key]. unfold sgn. destruct s; klia.
Qed.

Lemma round_skey_fix x : fin x = true -> round_skey 0 (fkey x) = fkey x.
Proof. intros F. apply round_skey_valid; [apply Prim2SF_valid|exact F]. Qed.

Lemma fkey_zero : fkey 0 = 0.
Proof. reflexivity. Qed.

(** multiplication by a positive finite constant *)
Lemma mul_pos_ext c x :
  fin c = true -> 0 < fkey c -> not_nan x -> 0 <= fkey x ->
  not_nan (x * c)
  /\ fkey (x * c)%float
     = if fin x then round_skey 1074 (fkey x * fkey c) else key_inf.
Proof.
  intros Fc Kc Nx Kx. destruct (fin x) eqn:Fx.
  - now apply mul_fin.
  - destruct (key_not_fin _ Nx Fx) as [sx Ex].
    unfold fkey in Kx. rewrite Ex in Kx. destruct sx; [cbn [key] in Kx; unfold sgn in Kx; klia|].
    unfold not_nan, fkey. rewrite FloatAxioms.mul_spec, Ex.
    unfold fin, fkey in Fc, Kc.
    destruct (Prim2SF c) as [sc|sc| |sc mc ec]; try discriminate.
    destruct sc.
    + exfalso. cbn [key] in Kc. unfold sgn in Kc. klia.
    + cbn. split; (discriminate || reflexivity).
Qed.

Lemma mul_pos_mono c a a' :
  fin c = true -> 0 < fkey c ->
  (0 <=? a)%float = true -> (a <=? a')%float = true ->
  (0 <=? a * c)%float = true /\ (a * c <=? a' * c)%float = true.
Proof.
  intros Fc Kc H1 H2.
  apply leb_iff in H1 as (N0 & Na & K1). apply leb_iff in H2 as (_ & Na' & K2).
  rewrite fkey_zero in K1.
  destruct (mul_pos_ext c a Fc Kc Na K1) as [N1 E1].
  destruct (mul_pos_ext c a' Fc Kc Na' ltac:(klia)) as [N2 E2].
  assert (Z0 : round_skey 1074 0 = 0) by (unfold round_skey; simpl (0 <? 0); now rewrite round_key_0).
  pose proof (fkey_range (a * c)) as R1.
  rewrite !leb_iff, fkey_zero. repeat split; try assumption.
  - rewrite E1. destruct (fin a); [|klia]. rewrite <- Z0. apply round_skey_mono; nia.
  - rewrite E2. destruct (fin a') eqn:Fa'; [|klia].
    rewrite E1. destruct (fin a) eqn:Fa.
    + apply round_skey_mono; nia.
    + destruct (fkey_not_fin a Na Fa); pose proof (fkey_fin a' Fa'); klia.
Qed.

(** *** All floats: infinities and NaN *)

(** A float that is not NaN is finite, plus infinity or minus infinity. *)
Lemma float_class x :
  not_nan x ->
  (fin x = true /\ - key_inf < fkey x < key_inf)
  \/ (Prim2SF x = S754_infinity false /\ fkey x = key_inf)
  \/ (Prim2SF x = S754_infinity true /\ fkey x = - key_inf).
Proof.
  intros N. destruct (fin x) eqn:F.
  - left. split; [reflexivity|]. now apply fkey_fin.
  - destruct (key_not_fin _ N F) as [[] E]; unfold fkey; rewrite E; cbn [key]; unfold sgn.
    + right; right. split; [reflexivity|lia].
    + right; left. split; [reflexivity|lia].
Qed.

Lemma sub_nan_left x y : Prim2SF x = S754_nan -> Prim2SF (x - y) = S754_nan.
Proof. intros E. rewrite FloatAxioms.sub_spec, E. reflexivity. Qed.

Lemma sub_nan_right x y : Prim2SF y = S754_nan -> Prim2SF (x - y) = S754_nan.
Proof.
  intros E. rewrite FloatAxioms.sub_spec, E. unfold SF64sub.
  destruct (Prim2SF x) as [[]|[]| |]; reflexivity.
Qed.

Lemma sub_inf_fin x y s :
  Prim2SF x = S754_infinity s -> fin y = true -> Prim2SF (x - y) = S754_infinity s.
Proof.
  intros E F. rewrite FloatAxioms.sub_spec, E. unfold fin in F.
  destruct (Prim2SF y); try discriminate; reflexivity.
Qed.

Lemma sub_fin_inf x y s :
  fin x = true -> Prim2SF y = S754_infinity s ->
  Prim2SF (x - y) = S754_infinity (negb s).
Proof.
  intros F E. rewrite FloatAxioms.sub_spec, E. unfold fin in F.
  destruct (Prim2SF x); try discriminate; reflexivity.
Qed.

Lemma sub_inf_inf x y sx sy :
  Prim2SF x = S754_infinity sx -> Prim2SF y = S754_infinity sy ->
  Prim2SF (x - y) = if Bool.eqb sx (negb sy) then S754_infinity sx else S754_nan.
Proof.
  intros Ex Ey. rewrite FloatAxioms.sub_spec, Ex, Ey. destruct sx, sy; reflexivity.
Qed.

Lemma round_skey_range c V : 0 <= c -> - key_inf <= round_skey c V <= key_inf.
Proof.
  intros Hc. pose proof key_inf_pos as P. unfold round_skey.
  destruct (Z.ltb_spec V 0) as [L|L].
  - pose proof (round_key_nonneg c (- V) Hc ltac:(lia)).
    assert (round_key c (- V) <= key_inf) by (unfold round_key; cbv zeta; apply Z.le_min_r).
    lia.
  - pose proof (round_key_nonneg c V Hc L).
    assert (round_key c V <= key_inf) by (unfold round_key; cbv zeta; apply Z.le_min_r).
    lia.
Qed.

Lemma inf_key x s :
  Prim2SF x = S754_infinity s -> not_nan x /\ fkey x = sgn s * key_inf.
Proof. intros E. unfold not_nan, fkey. rewrite E. split; [discriminate|reflexivity]. Qed.

(** What is known of [a - b] from the classes of [a] and [b]. *)
Ltac sub_facts a b :=
  match goal with
  | Fa : fin a = true, Fb : fin b = true |- _ =>
      let N := fresh "N" in let K := fresh "K" in
      destruct (sub_fin a b Fa Fb) as [N K];
      pose proof (round_skey_range 0 (fkey a - fkey b) ltac:(lia))
  | Ea : Prim2SF a = S754_infinity _, Fb : fin b = true |- _ =>
      let N := fresh "N" in let K := fresh "K" in
      destruct (inf_key _ _ (sub_inf_fin a b _ Ea Fb)) as [N K]
  | Fa : fin a = true, Eb : Prim2SF b = S754_infinity _ |- _ =>
      let N := fresh "N" in let K := fresh "K" in
      destruct (inf_key _ _ (sub_fin_inf a b _ Fa Eb)) as [N K]
  | Ea : Prim2SF a = S754_infinity _, Eb : Prim2SF b = S754_infinity _ |- _ =>
      let N := fresh "N" in let K := fresh "K" in
      let E := fresh "E" in
      pose proof (sub_inf_inf a b _ _ Ea Eb) as E; cbn [Bool.eqb negb] in E;
      try destruct (inf_key _ _ E) as [N K]
  end.

(** Subtraction keeps the second score behind the first: the same
    deduction from both, or a larger one from the second. *)
Lemma sub_behind s s' q q' :
  behind s' s ->
  Prim2SF q' = S754_nan \/ (q <=? q')%float = true ->
  behind (s' - q') (s - q).
Proof.
  intros B Q. unfold behind. pose proof key_inf_pos as P.
  destruct Q as [Q|Q]; [left; now apply sub_nan_right|].
  destruct B as [B|[B|B]]; [left; now apply sub_nan_left| |].
  - apply leb_iff in Q as (Nq & Nq' & _).
    destruct (float_class q' Nq') as [[F _]|[[E _]|[E _]]].
    + right; left. now apply sub_inf_fin.
    + right; left. now rewrite (sub_inf_inf _ _ _ _ B E).
    + left. now rewrite (sub_inf_inf _ _ _ _ B E).
  - apply leb_iff in Q as (Nq & Nq' & Kq). apply leb_iff in B as (Ns' & Ns & Ks).
    pose proof (round_skey_mono 0 (fkey s' - fkey q') (fkey s - fkey q) ltac:(lia) ltac:(lia)) as M.
    destruct (float_class s' Ns') as [[Fs' Rs']|[[Es' Rs']|[Es' Rs']]];
      destruct (float_class q' Nq') as [[Fq' Rq']|[[Eq' Rq']|[Eq' Rq']]];
      try (left; rewrite (sub_inf_inf _ _ _ _ Es' Eq'); reflexivity);
      try (right; left; rewrite (sub_inf_inf _ _ _ _ Es' Eq'); reflexivity);
      try (right; left; now apply sub_inf_fin);
      try (right; left; apply (sub_fin_inf _ _ false Fs' Eq'));
      right; right; apply leb_iff;
      destruct (float_class s Ns) as [[Fs Rs]|[[Es Rs]|[Es Rs]]]; try lia;
      destruct (float_class q Nq) as [[Fq Rq]|[[Eq Rq]|[Eq Rq]]]; try lia;
      sub_facts s' q'; sub_facts s q; unfold sgn in *; cbn [negb] in *;
      repeat split; try assumption; lia.
Qed.

(** An infinity times a positive finite constant is that infinity. *)
Lemma mul_inf_pos c x s :
  fin c = true -> 0 < fkey c -> Prim2SF x = S754_infinity s ->
  Prim2SF (x * c) = S754_infinity s.
Proof.
  intros Fc Kc E. rewrite FloatAxioms.mul_spec, E. unfold fin, fkey in Fc, Kc.
  destruct (Prim2SF c) as [sc|sc| |sc mc ec]; try discriminate.
  destruct sc.
  - exfalso. cbn [key] in Kc. unfold sgn in Kc. lia.
  - destruct s; reflexivity.
Qed.

(** Multiplication by a positive finite constant is monotone on all
    floats, the infinities included. *)
Lemma mul_pos_leb c a a' :
  fin c = true -> 0 < fkey c ->
  (a <=? a')%float = true -> (a * c <=? a' * c)%float = true.
Proof.
  intros Fc Kc H. pose proof key_inf_pos as P.
  apply leb_iff in H as (Na & Na' & K). apply leb_iff.
  pose proof (round_skey_mono 1074 (fkey a * fkey c) (fkey a' * fkey c) ltac:(lia)
                ltac:(apply Z.mul_le_mono_nonneg_r; lia)) as M.
  pose proof (round_skey_range 1074 (fkey a * fkey c) ltac:(lia)) as R.
  pose proof (round_skey_range 1074 (fkey a' * fkey c) ltac:(lia)) as R'.
  destruct (float_class a Na) as [[Fa Ra]|[[Ea Ra]|[Ea Ra]]];
    destruct (float_class a' Na') as [[Fa' Ra']|[[Ea' Ra']|[Ea' Ra']]]; try lia.
  all: repeat match goal with
       | F : fin ?x = true |- context [(?x * ?y)%float] =>
           let N := fresh "N" in let E := fresh "E" in
           destruct (mul_fin x y F Fc) as [N E]; revert N E;
           generalize (x * y)%float; intros ? N E
       | F : Prim2SF ?x = S754_infinity _ |- context [(?x * ?y)%float] =>
           let N := fresh "N" in let E := fresh "E" in
           destruct (inf_key _ _ (mul_inf_pos y x _ Fc Kc F)) as [N E]; revert N E;
           generalize (x * y)%float; intros ? N E
       end.
  all: unfold sgn in *; repeat split; try assumption; lia.
Qed.

Lemma leb_refl_or_nan q : Prim2SF q = S754_nan \/ (q <=? q)%float = true.
Proof.
  destruct (nan_dec (Prim2SF q)) as [E|N]; [now left|right].
  apply leb_iff. repeat split; auto. lia.
Qed.

(** ** Quotients of counts, and percentages *)

Lemma new_location_0 nb : new_location nb 0 = loc_Exact.
Proof. unfold new_location, new_location_even, new_location_odd. destruct (Z.even nb); reflexivity. Qed.

Lemma normal_log2 m : 2 ^ 52 <= m < 2 ^ 53 -> Z.log2 m = 52.
Proof. intros H. apply Z.log2_unique; [lia|]. exact H. Qed.

Lemma round_key_pow2 c j :
  0 <= c -> c <= j -> j < 2098 + c -> round_key c (2 ^ j) = 2 ^ (j - c).
Proof.
  intros Hc Hj Hu. unfold round_key. cbv zeta.
  rewrite Z.log2_pow2 by lia.
  set (k := Z.max (j + 1 - 53) c).
  assert (Hk : 0 <= k <= j) by lia.
  replace (2 ^ j) with (2 ^ (j - k) * 2 ^ k) at 1
    by (rewrite <- Z.pow_add_r by lia; f_equal; lia).
  rewrite rne_shift_exact by lia.
  rewrite <- Z.pow_add_r by lia. replace (j - k + (k - c)) with (j - c) by lia.
  apply Z.min_l. apply Z.pow_le_mono_r; lia.
Qed.

(** The quotient of two positive normal floats x <= y is at most 1. *)
Lemma SFdiv_le_one mx ex my ey :
  valid_binary (S754_finite false mx ex) = true ->
  valid_binary (S754_finite false my ey) = true ->
  2 ^ 52 <= Zpos mx -> 2 ^ 52 <= Zpos my -> -1021 <= ex - ey ->
  Zpos mx * 2 ^ (ex + 1074) <= Zpos my * 2 ^ (ey + 1074) ->
  SF64div (S754_finite false mx ex) (S754_finite false my ey) <> S754_nan
  /\ 0 <= key (SF64div (S754_finite false mx ex) (S754_finite false my ey)) <= 2 ^ 1074.
Proof.
  intros Vx Vy Nx Ny He Hle.
  pose proof (valid_finite _ _ _ Vx) as (Hex & Hmx & _ & _).
  pose proof (valid_finite _ _ _ Vy) as (Hey & Hmy & _ & _).
  assert (Hexy : ex <= ey).
  { destruct (Z.le_gt_cases ex ey) as [|G]; [assumption|].
    pose proof (key_finite_lt false my ey mx ex Vy Vx ltac:(lia)). lia. }
  unfold SF64div. cbn [SFdiv xorb]. unfold SFdiv_core_binary.
  rewrite !Zdigits2_log2 by lia. rewrite !normal_log2 by lia. rewrite fexp_eq.
  replace (Z.min (Z.max (52 + 1 + ex - (52 + 1 + ey) - 53) (-1074)) (ex - ey))
    with (ex - ey - 53) by lia.
  replace (ex - ey - (ex - ey - 53)) with 53 by lia.
  set (e' := ex - ey - 53).
  rewrite Z.shiftl_mul_pow2 by lia.
  set (m' := Zpos mx * 2 ^ 53).
  pose proof (Z.div_mod m' (Zpos my) ltac:(lia)) as Hdm.
  pose proof (Z.mod_pos_bound m' (Zpos my) ltac:(lia)) as Hr.
  unfold Z.div, Z.modulo in Hdm, Hr.
  destruct (Z.div_eucl m' (Zpos my)) as [q r].
  assert (Hq52 : 2 ^ 52 <= q).
  { assert (2 ^ 52 * Zpos my <= m') by (unfold m'; nia). nia. }
  pose proof (loc_code_range (new_location (Zpos my) r)) as Hc.
  assert (Hlq : 52 <= Z.log2 q) by (apply Z.log2_le_pow2; lia).
  destruct (round_aux_key false q e' (new_location (Zpos my) r) 2 ltac:(lia) ltac:(lia)
              ltac:(unfold e'; lia)) as [Hn Hk].
  { rewrite Zdigits2_log2, fexp_eq by lia. lia. }
  split; [exact Hn|]. rewrite Hk. unfold sgn. rewrite Z.mul_1_l.
  replace (e' - 2 + 1074 + 2) with (e' + 1074) by lia.
  split.
  { apply round_key_nonneg; [lia|]. apply Z.mul_nonneg_nonneg; [lia|]. apply Z.pow_nonneg; lia. }
  change (2 ^ 1074) with (2 ^ (1076 - 2)).
  rewrite <- (round_key_pow2 2 1076) by lia.
  apply round_key_mono; [lia|]. split.
  { apply Z.mul_nonneg_nonneg; [lia|]. apply Z.pow_nonneg; lia. }
  replace 1076 with ((2 - e') + (e' + 1074)) by lia.
  rewrite (Z.pow_add_r 2 (2 - e') (e' + 1074)) by (unfold e'; lia).
  apply Z.mul_le_mono_nonneg_r; [apply Z.pow_nonneg; lia|].
  (* q <= 2^(-e'), with equality only on an exact quotient *)
  assert (Hpow : 2 ^ (2 - e') = 4 * 2 ^ (ey - ex + 53)).
  { replace (2 - e') with (2 + (ey - ex + 53)) by (unfold e'; lia).
    rewrite Z.pow_add_r by lia. reflexivity. }
  rewrite Hpow.
  set (P := 2 ^ (ey - ex + 53)).
  assert (HP : 0 < P) by (apply pow2_pos; lia).
  assert (Hmm : m' <= Zpos my * P).
  { unfold m', P. rewrite (Z.pow_add_r 2 (ey - ex) 53) by lia.
    assert (Zpos mx <= Zpos my * 2 ^ (ey - ex)).
    { replace (ey + 1074) with ((ey - ex) + (ex + 1074)) in Hle by lia.
      rewrite (Z.pow_add_r 2 (ey - ex) (ex + 1074)) in Hle by lia.
      pose proof (pow2_pos (ex + 1074) ltac:(lia)). nia. }
    nia. }
  assert (Hqle : q <= P) by nia.
  destruct (Z.eq_dec q P) as [E|N].
  - assert (Hr0 : r = 0) by nia. subst r. rewrite new_location_0. cbn [loc_code]. lia.
  - lia.
Qed.

Lemma float_of_int64_nonneg z :
  0 <= z -> Np.float_of_int64 z = of_uint63 (Uint63.of_Z z).
Proof.
  intros Hz. unfold Np.float_of_int64.
  destruct (Z.leb_spec 0 z) as [_|H]; [reflexivity|lia].
Qed.

Lemma float_of_int64_key z :
  0 <= z < 2 ^ 63 ->
  not_nan (Np.float_of_int64 z)
  /\ fkey (Np.float_of_int64 z) = round_key 0 (z * 2 ^ 1074).
Proof.
  intros Hz. rewrite float_of_int64_nonneg by lia. unfold not_nan, fkey.
  rewrite of_uint63_spec, Uint63.of_Z_spec.
  rewrite Z.mod_small by (change wB with (2 ^ 63); lia).
  destruct (binary_normalize_key z 0 false 0 ltac:(lia) ltac:(lia)) as [Hn Hk].
  split; [exact Hn|]. rewrite Hk. unfold round_skey.
  destruct (Z.ltb_spec (z * 2 ^ (0 + 1074 + 0)) 0) as [H|H]; [|reflexivity].
  pose proof (pow2_pos 1074 ltac:(lia)). simpl Z.add in H. nia.
Qed.

Lemma float_of_int64_normal z :
  1 <= z < 2 ^ 63 ->
  exists m e,
    Prim2SF (Np.float_of_int64 z) = S754_finite false m e
    /\ 2 ^ 52 <= Zpos m /\ -52 <= e <= 11
    /\ Zpos m * 2 ^ (e + 1074) = round_key 0 (z * 2 ^ 1074).
Proof.
  intros Hz. destruct (float_of_int64_key z ltac:(lia)) as [Hn Hk].
  pose proof (Prim2SF_valid (Np.float_of_int64 z)) as V.
  unfold not_nan, fkey in *.
  assert (Hlo : 2 ^ 1074 <= round_key 0 (z * 2 ^ 1074)).
  { rewrite <- (Z.sub_0_r 1074) at 1. rewrite <- (round_key_pow2 0 1074) by lia.
    apply round_key_mono; [lia|]. pose proof (pow2_pos 1074 ltac:(lia)). nia. }
  assert (Hhi : round_key 0 (z * 2 ^ 1074) <= 2 ^ 1137).
  { replace (2 ^ 1137) with (2 ^ (1137 - 0)) by reflexivity.
    rewrite <- (round_key_pow2 0 1137) by lia.
    apply round_key_mono; [lia|]. pose proof (pow2_pos 1074 ltac:(lia)).
    change (2 ^ 1137) with (2 ^ 63 * 2 ^ 1074). nia. }
  rewrite <- Hk in Hlo, Hhi.
  assert (P1 : 0 < 2 ^ 1074) by (apply pow2_pos; lia).
  assert (P2 : 2 ^ 1137 < key_inf) by (apply Z.pow_lt_mono_r; lia).
  destruct (Prim2SF (Np.float_of_int64 z)) as [s|s| |s m e]; cbn [key] in *; unfold sgn in *.
  - lia.
  - destruct s; lia.
  - congruence.
  - pose proof (key_finite_bounds s m e V).
    destruct s; [lia|]. rewrite Z.mul_1_l in *.
    pose proof (valid_finite _ _ _ V) as (He & Hm & Hnorm & _).
    assert (He1 : -53 < e).
    { destruct (Z.le_gt_cases e (-53)) as [L|G]; [|lia]. exfalso.
      assert (Zpos m * 2 ^ (e + 1074) < 2 ^ 53 * 2 ^ (e + 1074)).
      { apply Z.mul_lt_mono_pos_r; [apply pow2_pos; lia|lia]. }
      rewrite <- Z.pow_add_r in H0 by lia.
      assert (2 ^ (53 + (e + 1074)) <= 2 ^ 1074) by (apply Z.pow_le_mono_r; lia). lia. }
    specialize (Hnorm ltac:(lia)).
    assert (He2 : e <= 11).
    { destruct (Z.le_gt_cases e 11) as [L|G]; [lia|]. exfalso.
      assert (2 ^ 52 * 2 ^ (e + 1074) <= Zpos m * 2 ^ (e + 1074)).
      { apply Z.mul_le_mono_nonneg_r; [apply Z.pow_nonneg; lia|lia]. }
      rewrite <- Z.pow_add_r in H0 by lia.
      assert (2 ^ 1138 <= 2 ^ (52 + (e + 1074))) by (apply Z.pow_le_mono_r; lia).
      assert (2 ^ 1137 < 2 ^ 1138) by (apply Z.pow_lt_mono_r; lia). lia. }
    exists m, e. repeat split; first [lia | exact Hk].
Qed.

Lemma fkey_one : fkey 1 = 2 ^ 1074.
Proof. vm_compute. reflexivity. Qed.

Lemma truediv_unit d n :
  0 <= d <= n -> 1 <= n < 2 ^ 63 ->
  (0 <=? Np.int64_truediv d n)%float = true
  /\ (Np.int64_truediv d n <=? 1)%float = true.
Proof.
  intros Hd Hn. unfold Np.int64_truediv.
  assert (P1 : 0 <= 2 ^ 1074) by (apply Z.pow_nonneg; lia).
  destruct (float_of_int64_normal n Hn) as (my & ey & Ey & Ny & Hey & Ky).
  pose proof (Prim2SF_valid (Np.float_of_int64 n)) as Vy. rewrite Ey in Vy.
  destruct (Z.eq_dec d 0) as [->|Hd0].
  - assert (Q : Prim2SF (Np.float_of_int64 0 / Np.float_of_int64 n) = S754_zero false).
    { rewrite FloatAxioms.div_spec, Ey. reflexivity. }
    rewrite !leb_iff, fkey_one, fkey_zero. unfold not_nan, fkey. rewrite Q. cbn [key].
    repeat split; try discriminate; lia.
  - destruct (float_of_int64_normal d ltac:(lia)) as (mx & ex & Ex & Nx & Hex & Kx).
    pose proof (Prim2SF_valid (Np.float_of_int64 d)) as Vx. rewrite Ex in Vx.
    assert (Hle : Zpos mx * 2 ^ (ex + 1074) <= Zpos my * 2 ^ (ey + 1074)).
    { rewrite Kx, Ky. apply round_key_mono; [lia|]. nia. }
    destruct (SFdiv_le_one mx ex my ey Vx Vy Nx Ny ltac:(lia) Hle) as [Hnn Hk].
    rewrite !leb_iff, fkey_one, fkey_zero. unfold not_nan, fkey. rewrite FloatAxioms.div_spec, Ex, Ey.
    repeat split; try discriminate; try exact Hnn; cbn [key]; lia.
Qed.

Lemma fkey_10000 : fkey 10000 = 10000 * 2 ^ 1074.
Proof. vm_compute. reflexivity. Qed.

Lemma rint_range y :
  (0 <=? y)%float = true -> (y <=? 10000)%float = true ->
  Np.rint y = neg_zero
  \/ exists k, 0 <= k <= 10000 /\ Np.rint y = Np.float_of_int64 k.
Proof.
  intros H0 H1.
  apply leb_iff in H0 as (_ & Ny & K0). apply leb_iff in H1 as (_ & _ & K1).
  rewrite fkey_zero in K0. rewrite fkey_10000 in K1.
  pose proof (Prim2SF_valid y) as V.
  assert (P : 0 < 2 ^ 1074) by (apply pow2_pos; lia).
  assert (P2 : 10000 * 2 ^ 1074 < key_inf).
  { change key_inf with (2 ^ 1024 * 2 ^ 1074).
    apply Z.mul_lt_mono_pos_r; [exact P|]. vm_compute. reflexivity. }
  unfold Np.rint, not_nan, fkey in *.
  destruct (Prim2SF y) as [s|s| |s m e] eqn:E.
  - rewrite <- (SF2Prim_Prim2SF y), E. destruct s; [now left|].
    right. exists 0. split; [lia|]. reflexivity.
  - exfalso. cbn [key] in *. unfold sgn in *. destruct s; lia.
  - congruence.
  - cbn [key] in *. pose proof (key_finite_bounds s m e V) as B. unfold sgn in *.
    destruct s; [lia|]. rewrite Z.mul_1_l in *.
    pose proof (valid_finite _ _ _ V) as (He & Hm & Hnorm & _).
    destruct (Z.leb_spec 0 e) as [Hpos|Hneg].
    + exfalso. specialize (Hnorm ltac:(lia)).
      assert (2 ^ 52 * 2 ^ 1074 <= Zpos m * 2 ^ (e + 1074)).
      { apply Z.mul_le_mono_nonneg; try lia. apply Z.pow_le_mono_r; lia. }
      assert (10000 < 2 ^ 52) by (vm_compute; reflexivity). nia.
    + right. set (k := Np.rne_shift (Zpos m) (- e)).
      assert (Hk0 : 0 <= k).
      { pose proof (rne_shift_bounds (Zpos m) (- e) ltac:(lia)) as [L _].
        pose proof (Z.div_pos (Zpos m) (2 ^ (- e)) ltac:(lia) ltac:(apply pow2_pos; lia)).
        unfold k. lia. }
      assert (Hk1 : k <= 10000).
      { apply rne_shift_le_multiple; [lia|].
        assert (Hsplit : 2 ^ 1074 = 2 ^ (- e) * 2 ^ (e + 1074)).
        { rewrite <- Z.pow_add_r by lia. f_equal. lia. }
        rewrite Hsplit in K1. pose proof (pow2_pos (e + 1074) ltac:(lia)). nia. }
      exists k. split; [lia|].
      destruct (Z.eqb_spec k 0) as [->|]; reflexivity.
Qed.

Lemma cents_from_spec n k j :
  cents_from n k = true -> k <= j < k + Z.of_nat n -> cents_in_range j = true.
Proof.
  revert k. induction n as [|n IH]; intros k H Hj.
  - simpl in Hj. lia.
  - cbn [cents_from] in H. apply andb_true_iff in H as [H1 H2].
    destruct (Z.eq_dec j k) as [->|N]; [exact H1|].
    apply (IH (k + 1)); [exact H2|lia].
Qed.

Lemma all_cents_in_range : cents_from (Z.to_nat 10001) 0 = true.
Proof. vm_compute. reflexivity. Qed.

Lemma cents_range k : 0 <= k <= 10000 -> cents_in_range k = true.
Proof.
  intros H. apply (cents_from_spec _ 0 k all_cents_in_range).
  rewrite Z2Nat.id; lia.
Qed.

Lemma fin_100 : fin 100 = true /\ 0 < fkey 100.
Proof. split; vm_compute; reflexivity. Qed.

Lemma round2_range x :
  (0 <=? x)%float = true -> (x <=? 100)%float = true ->
  (0 <=? Np.round2 x)%float = true /\ (Np.round2 x <=? 100)%float = true.
Proof.
  intros H0 H1. destruct fin_100 as [F K].
  destruct (mul_pos_mono 100 x 100 F K H0 H1) as [A B].
  change (100 * 100)%float with 10000%float in B.
  unfold Np.round2.
  destruct (rint_range (x * 100) A B) as [->|(k & Hk & ->)].
  - split; vm_compute; reflexivity.
  - pose proof (cents_range k Hk) as C. unfold cents_in_range in C.
    apply andb_true_iff in C. exact C.
Qed.

Lemma percentage_range d n :
  0 <= d <= n -> 1 <= n < 2 ^ 63 ->
  (0 <=? Np.round2 (Np.int64_truediv d n * 100))%float = true
  /\ (Np.round2 (Np.int64_truediv d n * 100) <=? 100)%float = true.
Proof.
  intros Hd Hn. destruct (truediv_unit d n Hd Hn) as [A B].
  destruct fin_100 as [F K].
  destruct (mul_pos_mono 100 _ 1 F K A B) as [A' B'].
  change (1 * 100)%float with 100%float in B'.
  now apply round2_range.
Qed.

(** ** The profile of a frame *)

Lemma setitem_fresh {V} (d : Py.dict V) k v :
  ~ In k (Py.keys d) -> Py.setitem d k v = d ++ [(k, v)].
Proof.
  induction d as [|[k' v'] d IH]; intros H; simpl; [reflexivity|].
  destruct (String.eqb_spec k k') as [->|N].
  - exfalso. apply H. now left.
  - f_equal. apply IH. intros I. apply H. now right.
Qed.

Lemma getitem_in {V} (d : Py.dict V) k v :
  NoDup (Py.keys d) -> In (k, v) d -> Py.getitem d k = Some v.
Proof.
  induction d as [|[k' v'] d IH]; intros N I; simpl; [contradiction|].
  inversion N as [|? ? Hn N']; subst.
  destruct I as [E|I].
  - inversion E; subst. now rewrite String.eqb_refl.
  - destruct (String.eqb_spec k k') as [->|_].
    + exfalso. apply Hn. change k' with (fst (k', v)). now apply in_map.
    + now apply IH.
Qed.

Lemma getitem_some_in {V} (d : Py.dict V) k v :
  Py.getitem d k = Some v -> In (k, v) d.
Proof.
  induction d as [|[k' v'] d IH]; simpl; [discriminate|].
  destruct (String.eqb_spec k k') as [->|_].
  - intros [= ->]. now left.
  - intros H. right. now apply IH.
Qed.

Lemma fold_raise df e cols :
  fold_left
    (fun acc c =>
       profile <- acc ;;
       col_info <- column_info df (snd c) ;;
       Py.Ok (set_columns_info profile
                (Py.setitem (columns_info profile) (fst c) col_info)))
    cols (Py.Raise e) = Py.Raise e.
Proof. induction cols; simpl; auto. Qed.

Lemma analyze_loop df p0 cols : forall acc,
  NoDup (Py.keys acc ++ map fst cols) ->
  fold_left
    (fun acc c =>
       profile <- acc ;;
       col_info <- column_info df (snd c) ;;
       Py.Ok (set_columns_info profile
                (Py.setitem (columns_info profile) (fst c) col_info)))
    cols (Py.Ok (set_columns_info p0 acc))
  = (infos <- column_infos df cols ;;
     Py.Ok (set_columns_info p0 (acc ++ infos))).
Proof.
  induction cols as [|c rest IH]; intros acc N; simpl.
  - now rewrite app_nil_r.
  - destruct (column_info df (snd c)) as [ci|e]; simpl.
    + rewrite setitem_fresh.
      2: { intros I. apply NoDup_remove_2 in N. apply N. apply in_or_app. now left. }
      change (set_columns_info (set_columns_info p0 acc) (acc ++ [(fst c, ci)]))
        with (set_columns_info p0 (acc ++ [(fst c, ci)])).
      rewrite IH.
      * destruct (column_infos df rest); simpl; [|reflexivity].
        now rewrite <- app_assoc.
      * unfold Py.keys. rewrite map_app. simpl. rewrite <- app_assoc. exact N.
    + apply fold_raise.
Qed.

Lemma analyze_dataframe_eq df name :
  NoDup (map fst (Pd.columns df)) ->
  analyze_dataframe df name
  = (infos <- column_infos df (Pd.columns df) ;;
     Py.Ok (set_columns_info (empty_profile df name) infos)).
Proof.
  intros N. exact (analyze_loop df (empty_profile df name) (Pd.columns df) [] N).
Qed.

Lemma column_infos_ok df cols infos :
  column_infos df cols = Py.Ok infos ->
  Forall2 (fun c i => fst i = fst c /\ column_info df (snd c) = Py.Ok (snd i)) cols infos.
Proof.
  revert infos. induction cols as [|c rest IH]; simpl; intros infos H.
  - injection H as <-. constructor.
  - destruct (column_info df (snd c)) as [ci|e] eqn:E; simpl in H; [|discriminate].
    destruct (column_infos df rest) as [infos0|e]; simpl in H; [|discriminate].
    injection H as <-. constructor; [now split|]. now apply IH.
Qed.

Lemma column_infos_keys df cols infos :
  column_infos df cols = Py.Ok infos -> Py.keys infos = map fst cols.
Proof.
  intros H. apply column_infos_ok in H. induction H as [|c i cs infos0 [E _] _ IH]; simpl; [reflexivity|].
  now rewrite E, IH.
Qed.

(** Inversion of a successful analysis: every column has its entry. *)
Lemma analyze_dataframe_inv df name p :
  Pd.well_formed df -> analyze_dataframe df name = Py.Ok p ->
  rows p = df_len df
  /\ duplicates p = duplicates (empty_profile df name)
  /\ Py.keys (columns_info p) = map fst (Pd.columns df)
  /\ (forall k s, In (k, s) (Pd.columns df) ->
        exists ci, Py.getitem (columns_info p) k = Some ci
                   /\ column_info df s = Py.Ok ci)
  /\ (forall k ci, In (k, ci) (columns_info p) ->
        exists s, In (k, s) (Pd.columns df) /\ column_info df s = Py.Ok ci).
Proof.
  intros [_ N] H. rewrite analyze_dataframe_eq in H by assumption.
  destruct (column_infos df (Pd.columns df)) as [infos|e] eqn:E; simpl in H; [|discriminate].
  injection H as <-. simpl.
  pose proof (column_infos_keys _ _ _ E) as K.
  pose proof (column_infos_ok _ _ _ E) as F.
  repeat split; try assumption.
  - intros k s I.
    assert (X : exists ci, In (k, ci) infos /\ column_info df s = Py.Ok ci).
    { clear K E N. induction F as [|c i cs infos0 [E1 E2] _ IH]; [contradiction|].
      destruct I as [->|I].
      - exists (snd i). split; [left; destruct i; simpl in *; congruence|exact E2].
      - destruct (IH I) as (ci & I' & E'). exists ci. split; [now right|assumption]. }
    destruct X as (ci & I' & E'). exists ci. split; [|assumption].
    apply getitem_in; [rewrite K; assumption|assumption].
  - intros k ci I. clear K E N.
    induction F as [|c i cs infos0 [E1 E2] _ IH]; [contradiction|].
    destruct I as [->|I].
    + exists (snd c). split; [left; destruct c; simpl in *; congruence|exact E2].
    + destruct (IH I) as (s & I' & E'). exists s. split; [now right|assumption].
Qed.

Lemma column_info_fields df s ci :
  column_info df s = Py.Ok ci ->
  dtype ci = Pd.dtype s
  /\ non_null ci = Pd.sum_bool (Pd.notna s)
  /\ null ci = Pd.sum_bool (Pd.isna s)
  /\ null_percentage ci
     = Np.round2 (Np.int64_truediv (Pd.sum_bool (Pd.isna s)) (df_len df) * 100)%float
  /\ unique ci = Pd.nunique s.
Proof.
  unfold column_info. intros H.
  destruct (Pd.is_numeric_dtype s).
  - injection H as <-. repeat split.
  - destruct (Pd.is_string_dtype s).
    + destruct (Py.int_ (Pd.len_min (Pd.str_len s))); simpl in H; [|discriminate].
      destruct (Py.int_ (Pd.len_max (Pd.str_len s))); simpl in H; [|discriminate].
      injection H as <-. repeat split.
    + injection H as <-. repeat split.
Qed.

Lemma sum_bool_length bs : 0 <= Pd.sum_bool bs <= Z.of_nat (length bs).
Proof.
  unfold Pd.sum_bool. pose proof (filter_length_le (fun b : bool => b) bs). lia.
Qed.

Lemma sum_bool_negb bs :
  Pd.sum_bool (map negb bs) + Pd.sum_bool bs = Z.of_nat (length bs).
Proof.
  unfold Pd.sum_bool.
  assert (H : (length (filter (fun b : bool => b) (map negb bs))
               + length (filter (fun b : bool => b) bs) = length bs)%nat).
  { induction bs as [|[] bs IH]; simpl; lia. }
  lia.
Qed.

Lemma isna_length s : length (Pd.isna s) = Pd.len s.
Proof. unfold Pd.isna, Pd.len. apply length_map. Qed.

Lemma notna_isna_count s :
  Pd.sum_bool (Pd.notna s) + Pd.sum_bool (Pd.isna s) = Z.of_nat (Pd.len s).
Proof. unfold Pd.notna. rewrite sum_bool_negb. now rewrite isna_length. Qed.

Lemma present_all xs :
  forallb (fun o : option string => match o with Some _ => true | None => false end) xs = true ->
  xs <> [] ->
  Pd.present (Pd.str_len (Pd.Object xs)) <> [].
Proof.
  destruct xs as [|[t|] xs]; simpl; try congruence; discriminate.
Qed.

(** Only a text column without rows makes the column loop raise. *)
Lemma column_info_returns df s :
  Pd.len s <> 0%nat -> exists ci, column_info df s = Py.Ok ci.
Proof.
  intros L. unfold column_info.
  destruct (Pd.is_numeric_dtype s); [eexists; reflexivity|].
  destruct (Pd.is_string_dtype s) eqn:S; [|eexists; reflexivity].
  destruct s as [xs|xs|xs]; try discriminate. simpl in S.
  assert (N : Pd.present (Pd.str_len (Pd.Object xs)) <> []).
  { apply present_all; [assumption|]. intros ->. now apply L. }
  unfold Pd.len_min, Pd.len_max.
  destruct (Pd.present (Pd.str_len (Pd.Object xs))); [congruence|]. simpl.
  eexists; reflexivity.
Qed.

Lemma column_infos_returns df cols :
  Forall (fun c => Pd.len (snd c) <> 0%nat) cols ->
  exists infos, column_infos df cols = Py.Ok infos.
Proof.
  induction 1 as [|c cs H _ [infos IH]]; simpl; [eexists; reflexivity|].
  destruct (column_info_returns df (snd c) H) as [ci ->]. rewrite IH. simpl.
  eexists; reflexivity.
Qed.

Lemma analyze_dataframe_returns df name :
  Pd.well_formed df -> Pd.index_len df <> 0%nat ->
  Py.returns (analyze_dataframe df name).
Proof.
  intros [L N] H. unfold Py.returns. rewrite analyze_dataframe_eq by assumption.
  destruct (column_infos_returns df (Pd.columns df)) as [infos ->].
  - eapply Forall_impl; [|exact L]. simpl. intros c E. now rewrite E.
  - simpl. eexists; reflexivity.
Qed.

Lemma sum_bool_map {A} (g : A -> bool) l :
  Pd.sum_bool (map g l) = Z.of_nat (length (filter g l)).
Proof.
  unfold Pd.sum_bool. f_equal. induction l as [|x l IH]; simpl; [reflexivity|].
  destruct (g x); simpl; congruence.
Qed.

Lemma notna_count s :
  Pd.sum_bool (Pd.notna s)
  = Z.of_nat (length (filter (fun c => negb (Pd.is_na c)) (Pd.cells s))).
Proof.
  unfold Pd.sum_bool, Pd.notna, Pd.isna. f_equal.
  induction (Pd.cells s) as [|c l IH]; simpl; [reflexivity|].
  destruct (Pd.is_na c); simpl; congruence.
Qed.

Lemma isna_count s :
  Pd.sum_bool (Pd.isna s) = Z.of_nat (length (filter Pd.is_na (Pd.cells s))).
Proof. unfold Pd.isna. apply sum_bool_map. Qed.

(** Claim C3.  For every frame and every column of it, the profile that
    the analysis returns has an entry under the name of the column;
    [null] and [non_null] of this entry are the numbers of missing and
    of present entries of the column, they add up to [rows], which is
    the length of the frame, and [null_percentage] is
    [null / rows * 100] rounded to two decimals (the quotient and the
    product are binary64 operations, the rounding is [round(x, 2)]).  On
    a frame with at least one row the analysis returns. *)
Theorem column_counts_partition_rows df name :
  Pd.well_formed df ->
  (Pd.index_len df <> 0%nat -> Py.returns (analyze_dataframe df name))
  /\ forall p, analyze_dataframe df name = Py.Ok p ->
     rows p = Z.of_nat (Pd.index_len df)
     /\ forall col s, In (col, s) (Pd.columns df) ->
        exists ci,
          Py.getitem (columns_info p) col = Some ci
          /\ null ci = Z.of_nat (length (filter Pd.is_na (Pd.cells s)))
          /\ non_null ci
             = Z.of_nat (length (filter (fun c => negb (Pd.is_na c)) (Pd.cells s)))
          /\ non_null ci + null ci = rows p
          /\ null_percentage ci
             = Np.round2 (Np.int64_truediv (null ci) (rows p) * 100)%float.
Proof.
  intros W. split; [now apply analyze_dataframe_returns|].
  intros p H.
  destruct (analyze_dataframe_inv df name p W H) as (R & _ & _ & Fwd & _).
  split; [exact R|]. intros col s Is.
  destruct (Fwd col s Is) as (ci & G & E). exists ci. split; [exact G|].
  destruct (column_info_fields df s ci E) as (_ & Hnn & Hn & Hp & _).
  destruct W as [L _]. rewrite Forall_forall in L. specialize (L _ Is). simpl in L.
  split; [rewrite Hn; apply isna_count|].
  split; [rewrite Hnn; apply notna_count|].
  rewrite R, Hnn, Hn, Hp. split; [|reflexivity].
  rewrite notna_isna_count, L. reflexivity.
Qed.

(** ** Distinct values and duplicate rows *)

(** float equality *)
Lemma SFeqb_iff a b :
  valid_binary a = true -> valid_binary b = true ->
  SFeqb a b = true <-> a <> S754_nan /\ b <> S754_nan /\ key a = key b.
Proof.
  intros Va Vb. unfold SFeqb.
  destruct (nan_dec a) as [->|Na].
  { cbn [SFcompare]. split; [discriminate|]. intros (H & _); congruence. }
  destruct (nan_dec b) as [->|Nb].
  { replace (SFcompare a S754_nan) with (@None comparison) by (destruct a; reflexivity).
    split; [discriminate|]. intros (_ & H & _); congruence. }
  rewrite SFcompare_key by assumption.
  destruct (Z.compare_spec (key a) (key b)); split; try discriminate; try tauto;
    try (intros _; repeat split; assumption || lia); intros (_ & _ & H'); lia.
Qed.

Lemma eqb_iff x y :
  (x =? y)%float = true <-> not_nan x /\ not_nan y /\ fkey x = fkey y.
Proof. rewrite FloatAxioms.eqb_spec. apply SFeqb_iff; apply Prim2SF_valid. Qed.

Lemma float_eqb_sym x y : (x =? y)%float = (y =? x)%float.
Proof.
  destruct (x =? y)%float eqn:A, (y =? x)%float eqn:B; try reflexivity.
  - apply eqb_iff in A as (? & ? & ?).
    assert (C : (y =? x)%float = true) by (apply eqb_iff; auto). congruence.
  - apply eqb_iff in B as (? & ? & ?).
    assert (C : (x =? y)%float = true) by (apply eqb_iff; auto). congruence.
Qed.

Lemma float_eqb_trans x y z :
  (x =? y)%float = true -> (y =? z)%float = true -> (x =? z)%float = true.
Proof.
  rewrite !eqb_iff. intros (? & ? & ?) (? & ? & ?). repeat split; auto. congruence.
Qed.

Lemma cell_eqb_sym a b : Pd.cell_eqb a b = Pd.cell_eqb b a.
Proof.
  destruct a, b; simpl; try reflexivity.
  - apply Z.eqb_sym.
  - apply float_eqb_sym.
  - apply String.eqb_sym.
Qed.

Lemma cell_eqb_trans a b c :
  Pd.cell_eqb a b = true -> Pd.cell_eqb b c = true -> Pd.cell_eqb a c = true.
Proof.
  destruct a, b, c; simpl; try discriminate; try reflexivity.
  - rewrite !Z.eqb_eq. congruence.
  - apply float_eqb_trans.
  - rewrite !String.eqb_eq. congruence.
Qed.

Section Classes.
Context {A : Type} (eqb : A -> A -> bool).
Hypothesis eqb_sym : forall a b, eqb a b = eqb b a.
Hypothesis eqb_trans : forall a b c, eqb a b = true -> eqb b c = true -> eqb a c = true.

Lemma eqb_congr x y z : eqb x y = true -> eqb x z = eqb y z.
Proof.
  intros H. destruct (eqb x z) eqn:X, (eqb y z) eqn:Y; try reflexivity.
  - rewrite eqb_sym in H. rewrite (eqb_trans _ _ _ H X) in Y. discriminate.
  - rewrite (eqb_trans _ _ _ H Y) in X. discriminate.
Qed.

Lemma mem_congr x y l : eqb x y = true -> existsb (eqb x) l = existsb (eqb y) l.
Proof.
  intros H. induction l as [|z l IH]; simpl; [reflexivity|].
  now rewrite IH, (eqb_congr x y z H).
Qed.
End Classes.

Lemma row_eqb_sym a b : Pd.row_eqb a b = Pd.row_eqb b a.
Proof.
  revert b. induction a as [|x a IH]; destruct b as [|y b]; simpl; try reflexivity.
  now rewrite cell_eqb_sym, IH.
Qed.

Lemma row_eqb_trans a b c :
  Pd.row_eqb a b = true -> Pd.row_eqb b c = true -> Pd.row_eqb a c = true.
Proof.
  revert b c. induction a as [|x a IH]; destruct b as [|y b], c as [|z c]; simpl;
    try discriminate; try reflexivity.
  rewrite !andb_true_iff. intros [H1 H2] [H3 H4]. split.
  - eapply cell_eqb_trans; eassumption.
  - eapply IH; eassumption.
Qed.

(** *** Distinct values *)

Lemma count_distinct_remove x l :
  count_distinct l
  = ((if existsb (Pd.cell_eqb x) l then 1 else 0)
     + count_distinct (filter (fun y => negb (Pd.cell_eqb x y)) l))%nat.
Proof.
  induction l as [|y r IH]; simpl; [reflexivity|].
  destruct (Pd.cell_eqb x y) eqn:E; simpl.
  - rewrite IH.
    rewrite <- (mem_congr Pd.cell_eqb cell_eqb_sym cell_eqb_trans x y r E).
    destruct (existsb (Pd.cell_eqb x) r); simpl; lia.
  - rewrite IH.
    assert (M : existsb (Pd.cell_eqb y) (filter (fun y0 => negb (Pd.cell_eqb x y0)) r)
                = existsb (Pd.cell_eqb y) r).
    { clear IH. induction r as [|z r IHr]; simpl; [reflexivity|].
      destruct (Pd.cell_eqb x z) eqn:Z; simpl.
      - rewrite IHr. destruct (Pd.cell_eqb y z) eqn:Y; [|reflexivity].
        exfalso. rewrite cell_eqb_sym in Y.
        rewrite (cell_eqb_trans _ _ _ Z Y) in E. discriminate.
      - now rewrite IHr. }
    rewrite M. destruct (existsb (Pd.cell_eqb x) r), (existsb (Pd.cell_eqb y) r); simpl; lia.
Qed.

Lemma unique_from_length seen l :
  length (Pd.unique_from seen l)
  = count_distinct (filter (fun y => negb (existsb (Pd.cell_eqb y) seen)) l).
Proof.
  revert seen. induction l as [|x r IH]; intros seen; simpl; [reflexivity|].
  destruct (existsb (Pd.cell_eqb x) seen) eqn:E; simpl.
  - apply IH.
  - rewrite IH.
    rewrite (count_distinct_remove x
               (filter (fun y => negb (existsb (Pd.cell_eqb y) seen)) r)).
    assert (F : filter (fun y => negb (existsb (Pd.cell_eqb y) (x :: seen))) r
                = filter (fun y => negb (Pd.cell_eqb x y))
                    (filter (fun y => negb (existsb (Pd.cell_eqb y) seen)) r)).
    { clear. induction r as [|z r IHr]; simpl; [reflexivity|].
      rewrite (cell_eqb_sym z x).
      destruct (existsb (Pd.cell_eqb z) seen); simpl.
      - rewrite orb_true_r. simpl. exact IHr.
      - rewrite orb_false_r. destruct (Pd.cell_eqb x z); simpl; [exact IHr|now f_equal]. }
    rewrite F.
    destruct (existsb (Pd.cell_eqb x) (filter (fun y => negb (existsb (Pd.cell_eqb y) seen)) r));
      simpl; lia.
Qed.

Lemma cell_eqb_na y : Pd.is_na y = false -> Pd.cell_eqb y Pd.NA = false.
Proof. destruct y; simpl; congruence. Qed.

Lemma unique_from_dropna seen seen' l :
  (forall y, Pd.is_na y = false ->
             existsb (Pd.cell_eqb y) seen = existsb (Pd.cell_eqb y) seen') ->
  filter (fun c => negb (Pd.is_na c)) (Pd.unique_from seen l)
  = Pd.unique_from seen' (filter (fun c => negb (Pd.is_na c)) l).
Proof.
  revert seen seen'. induction l as [|x r IH]; intros seen seen' H; simpl; [reflexivity|].
  destruct (Pd.is_na x) eqn:N; simpl.
  - destruct (existsb (Pd.cell_eqb x) seen); simpl.
    + now apply IH.
    + rewrite N. simpl. apply IH. intros y Hy. simpl.
      destruct x; try discriminate. rewrite (cell_eqb_na y Hy). simpl. now apply H.
  - rewrite <- (H x N). destruct (existsb (Pd.cell_eqb x) seen); simpl.
    + now apply IH.
    + rewrite N. simpl. f_equal. apply IH. intros y Hy. simpl. now rewrite H.
Qed.

Lemma count_distinct_le l : (count_distinct l <= length l)%nat.
Proof.
  induction l as [|x r IH]; simpl; [lia|].
  destruct (existsb (Pd.cell_eqb x) r); simpl; lia.
Qed.

Lemma filter_true {A} (l : list A) : filter (fun _ => true) l = l.
Proof. induction l; simpl; congruence. Qed.

Lemma nunique_distinct s :
  Pd.nunique s
  = Z.of_nat (count_distinct (filter (fun c => negb (Pd.is_na c)) (Pd.cells s))).
Proof.
  unfold Pd.nunique, Pd.unique. f_equal.
  rewrite (unique_from_dropna [] [] (Pd.cells s)) by reflexivity.
  rewrite unique_from_length. simpl. now rewrite filter_true.
Qed.

(** Claim C8.  For every column of an analysed frame, [unique] is the
    number of distinct values among the non-missing entries of the column
    (missing entries are left out of the distinct set), and it is at most
    the [non_null] count. *)
Theorem unique_counts_distinct_non_null df name p :
  Pd.well_formed df -> analyze_dataframe df name = Py.Ok p ->
  forall col s, In (col, s) (Pd.columns df) ->
    exists ci,
      Py.getitem (columns_info p) col = Some ci
      /\ unique ci
         = Z.of_nat (count_distinct (filter (fun c => negb (Pd.is_na c)) (Pd.cells s)))
      /\ unique ci <= non_null ci.
Proof.
  intros W H col s I.
  destruct (analyze_dataframe_inv df name p W H) as (_ & _ & _ & Fwd & _).
  destruct (Fwd col s I) as (ci & G & E). exists ci. split; [exact G|].
  destruct (column_info_fields df s ci E) as (_ & Hnn & _ & _ & Hu).
  rewrite Hu, Hnn, nunique_distinct, notna_count. split; [reflexivity|].
  apply Nat2Z.inj_le. apply count_distinct_le.
Qed.

Lemma duplicated_from_spec (f : nat -> list Pd.cell) n : forall a seen,
  (forall r, existsb (Pd.row_eqb r) seen
             = existsb (fun j => Pd.row_eqb r (f j)) (seq 0 a)) ->
  Pd.duplicated_from seen (map f (seq a n))
  = map (fun i => existsb (fun j => Pd.row_eqb (f i) (f j)) (seq 0 i)) (seq a n).
Proof.
  induction n as [|n IH]; intros a seen Inv; simpl; [reflexivity|].
  rewrite (Inv (f a)).
  destruct (existsb (fun j => Pd.row_eqb (f a) (f j)) (seq 0 a)) eqn:E; f_equal.
  - apply IH. intros r. rewrite seq_S, existsb_app. simpl. rewrite orb_false_r.
    rewrite Inv. destruct (Pd.row_eqb r (f a)) eqn:R; [|now rewrite orb_false_r].
    rewrite orb_true_r. rewrite <- Inv.
    rewrite (mem_congr Pd.row_eqb row_eqb_sym row_eqb_trans r (f a) seen R).
    now rewrite Inv.
  - apply IH. intros r. rewrite seq_S, existsb_app. simpl. rewrite orb_false_r.
    rewrite Inv. apply orb_comm.
Qed.

Lemma duplicated_count df :
  Pd.columns df <> [] \/ Pd.index_len df = 0%nat ->
  Pd.sum_bool (Pd.duplicated df)
  = Z.of_nat (length (filter (earlier_duplicate df) (seq 0 (Pd.index_len df)))).
Proof.
  intros H. unfold Pd.duplicated, Pd.empty.
  destruct (Pd.index_len df) as [|n] eqn:N; [reflexivity|].
  destruct (Pd.columns df) as [|c cs] eqn:C.
  { destruct H; congruence. }
  cbn [length Nat.eqb orb]. unfold Pd.rows. rewrite N.
  rewrite (duplicated_from_spec (Pd.row df) (S n) 0 []) by reflexivity.
  apply sum_bool_map.
Qed.

Lemma duplicated_le df :
  0 <= Pd.sum_bool (Pd.duplicated df) <= Z.of_nat (Pd.index_len df).
Proof.
  destruct (Pd.empty df) eqn:E.
  - unfold Pd.duplicated. rewrite E. unfold Pd.sum_bool. simpl. lia.
  - assert (H : Pd.columns df <> [] \/ Pd.index_len df = 0%nat).
    { left. unfold Pd.empty in E. destruct (Pd.columns df); [|discriminate].
      simpl in E. now rewrite orb_true_r in E. }
    rewrite (duplicated_count df H).
    pose proof (filter_length_le (earlier_duplicate df) (seq 0 (Pd.index_len df))) as L.
    rewrite length_seq in L. lia.
Qed.

Lemma earlier_duplicate_iff df i :
  earlier_duplicate df i = true
  <-> exists j, (j < i)%nat /\ Pd.row_eqb (Pd.row df i) (Pd.row df j) = true.
Proof.
  unfold earlier_duplicate. rewrite existsb_exists. split.
  - intros (j & I & E). exists j. split; [apply in_seq in I; lia|exact E].
  - intros (j & L & E). exists j. split; [apply in_seq; lia|exact E].
Qed.

(** Claim C4, amended.  For a frame with at least one column the
    duplicate count is the number of rows equal, entry by entry, to an
    earlier row; [percentage] is [total / rows * 100] rounded to two
    decimals; and with at least one row (and an [int64] row count) the
    percentage lies between 0 and 100. *)
Theorem duplicate_statistics df name p :
  Pd.well_formed df -> analyze_dataframe df name = Py.Ok p ->
  (Pd.columns df <> [] ->
     total (duplicates p)
     = Z.of_nat (length (filter (earlier_duplicate df) (seq 0 (Pd.index_len df)))))
  /\ percentage (duplicates p)
     = Np.round2 (Np.int64_truediv (total (duplicates p)) (rows p) * 100)%float
  /\ (Pd.index_len df <> 0%nat -> Z.of_nat (Pd.index_len df) < 2 ^ 63 ->
        (0 <=? percentage (duplicates p))%float = true
        /\ (percentage (duplicates p) <=? 100)%float = true).
Proof.
  intros W H.
  destruct (analyze_dataframe_inv df name p W H) as (R & D & _).
  rewrite D, R. cbn [total percentage duplicates empty_profile].
  split; [|split].
  - intros C. apply duplicated_count. now left.
  - reflexivity.
  - intros N B. pose proof (duplicated_le df) as L.
    apply percentage_range; unfold df_len; lia.
Qed.

(** ** The quality score *)

Lemma fold_left_map {A B C} (f : A -> B -> A) (g : C -> B) l a :
  fold_left f (map g l) a = fold_left (fun x c => f x (g c)) l a.
Proof. revert a. induction l; simpl; auto. Qed.

Lemma generate_quality_score_of p :
  generate_quality_score p
  = score_of (map null_percentage (Py.values (columns_info p)))
             (percentage (duplicates p)).
Proof.
  unfold generate_quality_score, score_of. cbv zeta.
  now rewrite (fold_left_map (fun s a => (s - a * 0.5)%float) null_percentage).
Qed.

(** Claim C1.  The quality score of every profile is
    [max(0.0, 100.0 - sum of null_percentage * 0.5 - duplicate percentage * 2.0)],
    the penalties being subtracted from 100 one after the other, columns
    first and in their order, as the scoring loop does. *)
Theorem quality_score_formula p :
  Py.to_float (generate_quality_score p) = score_formula p.
Proof.
  unfold generate_quality_score, score_formula, penalties, Py.max0, max0_float.
  cbv zeta. rewrite fold_left_app, fold_left_map. simpl fold_left.
  match goal with |- context [(0 <? ?x)%float] => destruct (0 <? x)%float end;
    reflexivity.
Qed.

(** *** The scorer on the interpreter state *)

Section Scorer.

Import Obj.

Lemma pure_ret {A} (a : A) : pure (ret a).
Proof. intros st. reflexivity. Qed.

Lemma pure_throw {A} e : pure (@throw A e).
Proof. intros st. reflexivity. Qed.

Lemma pure_bind {A B} (c : M A) (k : A -> M B) :
  pure c -> (forall a, pure (k a)) -> pure (bind c k).
Proof.
  intros Hc Hk st. unfold bind. specialize (Hc st).
  destruct (c st) as [[a|e] st']; cbn in Hc; subst st'; [apply Hk|reflexivity].
Qed.

Lemma pure_deref v e : pure (deref v e).
Proof.
  intros st. unfold deref. destruct v; try reflexivity.
  destruct (nth_error (heap st) r); reflexivity.
Qed.

Lemma pure_getitem d key : pure (getitem d key).
Proof.
  apply pure_bind; [apply pure_deref|]. intros o.
  destruct (Py.getitem o key); [apply pure_ret|apply pure_throw].
Qed.

Lemma pure_values d : pure (values d).
Proof. apply pure_bind; [apply pure_deref|]. intros o. apply pure_ret. Qed.

Lemma pure_number v : pure (number v).
Proof. destruct v; first [apply pure_ret|apply pure_throw]. Qed.

Lemma pure_float_of_int z : pure (float_of_int z).
Proof.
  unfold float_of_int. cbv zeta.
  destruct (is_infinity _); [apply pure_throw|apply pure_ret].
Qed.

Lemma pure_as_float n : pure (as_float n).
Proof. destruct n; [apply pure_float_of_int|apply pure_ret]. Qed.

Lemma pure_mul a b : pure (mul a b).
Proof.
  destruct a, b; cbn [mul]; try apply pure_ret;
    (apply pure_bind; [apply pure_as_float|intros x;
     apply pure_bind; [apply pure_as_float|intros y; apply pure_ret]]).
Qed.

Lemma pure_sub a b : pure (sub a b).
Proof.
  destruct a, b; cbn [sub]; try apply pure_ret;
    (apply pure_bind; [apply pure_as_float|intros x;
     apply pure_bind; [apply pure_as_float|intros y; apply pure_ret]]).
Qed.

Lemma pure_for_each {A B} (xs : list A) (body : B -> A -> M B) :
  (forall acc x, pure (body acc x)) -> forall acc, pure (for_each xs acc body).
Proof.
  intros Hb. induction xs as [|x xs IH]; intros acc; cbn [for_each].
  - apply pure_ret.
  - apply pure_bind; [apply Hb|exact IH].
Qed.

Create HintDb pure.
#[local] Hint Resolve pure_ret pure_throw pure_getitem pure_values pure_number
  pure_mul pure_sub : pure.

Lemma pure_generate_quality_score v : pure (Obj.generate_quality_score v).
Proof.
  unfold Obj.generate_quality_score.
  repeat first [ solve [auto with pure]
               | apply pure_for_each; intros
               | apply pure_bind; [|intro] ].
Qed.

(** What a read gives on a state that holds the object. *)
Lemma getitem_at st r o key v :
  nth_error (heap st) r = Some o -> Py.getitem o key = Some v ->
  getitem (VDict r) key st = (Return v, st).
Proof. intros H G. unfold getitem, bind, deref. rewrite H, G. reflexivity. Qed.

Lemma values_at st r o :
  nth_error (heap st) r = Some o -> values (VDict r) st = (Return (Py.values o), st).
Proof. intros H. unfold values, bind, deref. rewrite H. reflexivity. Qed.

Lemma for_each_at st vs : forall nulls score,
  Forall2 (column_at st) vs nulls ->
  for_each vs (Py.Float score)
    (fun score col_info =>
       bind (getitem col_info "null_percentage") (fun v =>
       bind (number v) (fun null_pct =>
       bind (mul null_pct (Py.Float 0.5)) (fun penalty =>
       sub score penalty)))) st
  = (Return (Py.Float (fold_left (fun s a => (s - a * 0.5)%float) nulls score)), st).
Proof.
  induction vs as [|v vs IH]; intros nulls score F; inversion F as [|? a ? nulls' Hv F']; subst.
  - reflexivity.
  - destruct Hv as (r & o & -> & H & G).
    cbn [for_each]. unfold bind at 1. unfold bind at 1.
    rewrite (getitem_at st r o _ _ H G). cbn.
    apply (IH nulls' _ F').
Qed.

Lemma float_of_two st : float_of_int 2 st = (Return 2%float, st).
Proof. reflexivity. Qed.

Lemma generate_quality_score_at st v p :
  profile_at st v p ->
  Obj.generate_quality_score v st = (Return (Profiler.generate_quality_score p), st).
Proof.
  intros (r & o & rc & oc & rd & od & -> & H & Gc & Hc & _ & F & Gd & Hd & Gp).
  unfold Obj.generate_quality_score.
  unfold bind at 1. rewrite (getitem_at st r o _ _ H Gc).
  unfold bind at 1. rewrite (values_at st rc oc Hc).
  unfold bind at 1. rewrite (for_each_at st _ _ 100%float F).
  unfold bind at 1. rewrite (getitem_at st r o _ _ H Gd).
  unfold bind at 1. rewrite (getitem_at st rd od _ _ Hd Gp).
  cbn. rewrite generate_quality_score_of. reflexivity.
Qed.

(** Objects stay where they are when the heap grows. *)
Lemma nth_error_grow {A} (h l : list A) r o :
  nth_error h r = Some o -> nth_error (h ++ l) r = Some o.
Proof.
  intros H. rewrite nth_error_app1; [exact H|].
  apply nth_error_Some. congruence.
Qed.

Lemma nth_error_last {A} (h l : list A) o :
  nth_error (h ++ o :: l) (length h) = Some o.
Proof. rewrite nth_error_app2 by lia. now rewrite Nat.sub_diag. Qed.

Lemma column_at_grow h c l c' v pct :
  column_at {| heap := h; console := c |} v pct ->
  column_at {| heap := h ++ l; console := c' |} v pct.
Proof.
  intros (r & o & -> & H & G). exists r, o. cbn in *.
  split; [reflexivity|]. split; [now apply nth_error_grow|exact G].
Qed.

Lemma bind_return {A B} (c : M A) (k : A -> M B) st a st' :
  c st = (Return a, st') -> bind c k st = k a st'.
Proof. intros E. unfold bind. now rewrite E. Qed.

Lemma store_columns_spec cs : forall st,
  exists o l,
    store_columns cs st = (Return o, {| heap := heap st ++ l; console := console st |})
    /\ Py.keys o = Py.keys cs
    /\ Forall2 (column_at {| heap := heap st ++ l; console := console st |})
               (Py.values o) (map null_percentage (Py.values cs)).
Proof.
  induction cs as [|[col c] cs IH]; intros st.
  - exists [], []. rewrite app_nil_r. destruct st. repeat split. constructor.
  - cbn [store_columns]. unfold store_column.
    set (oc := _ ++ store_stats (stats c)).
    destruct (IH {| heap := heap st ++ [oc]; console := console st |}) as (o & l & E & K & F).
    cbn [heap console] in *.
    rewrite (bind_return (alloc oc) _ st _ _ eq_refl).
    rewrite (bind_return _ _ _ _ _ E). cbn [ret].
    exists ((col, VDict (length (heap st))) :: o), (oc :: l).
    replace (heap st ++ oc :: l) with ((heap st ++ [oc]) ++ l)
      by (rewrite <- app_assoc; reflexivity).
    split; [reflexivity|]. split; [cbn; unfold Py.keys in K; now rewrite K|].
    cbn [Py.values map snd]. constructor; [|exact F].
    exists (length (heap st)), oc. cbn [heap]. split; [reflexivity|]. split.
    + rewrite <- app_assoc. apply nth_error_last.
    + reflexivity.
Qed.

(** A stored profile is there for the scorer to read, and storing it
    prints nothing. *)
Lemma store_profile_at p st :
  exists v st',
    store p st = (Return v, st')
    /\ profile_at st' v p
    /\ console st' = console st.
Proof.
  unfold store.
  set (od := [("total"%string, _); _]).
  destruct (store_columns_spec (columns_info p)
              {| heap := heap st ++ [od]; console := console st |}) as (o & l & E & K & F).
  cbn [heap console] in *.
  rewrite (bind_return (alloc od) _ st _ _ eq_refl).
  rewrite (bind_return _ _ _ _ _ E).
  rewrite (bind_return (alloc o) _ _ _ _ eq_refl).
  unfold alloc. cbn [heap console].
  set (h2 := (heap st ++ [od]) ++ l) in *.
  set (po := [("filename"%string, _); _; _; _; _; _]).
  eexists _, _. split; [reflexivity|]. split; [|reflexivity].
  exists (length (h2 ++ [o])), po, (length h2), o, (length (heap st)), od. cbn [heap].
  split; [reflexivity|]. split; [apply nth_error_last|].
  split; [reflexivity|].
  split; [rewrite <- app_assoc; apply nth_error_last|].
  split; [exact K|].
  split.
  { eapply Forall2_impl; [|exact F]. intros v pct H.
    rewrite <- app_assoc. now apply column_at_grow with (c := console st). }
  split; [reflexivity|]. split; [|reflexivity].
  unfold h2. rewrite <- !app_assoc. apply nth_error_last.
Qed.

(** A line on the console is seen in the state. *)
Lemma print_is_seen line st : snd (print line st) <> st.
Proof.
  unfold print. cbn [snd]. intros E.
  apply (f_equal (fun s => length (console s))) in E. cbn in E.
  rewrite length_app in E. cbn in E. lia.
Qed.

End Scorer.

(** Claim C9.  A call of the scorer, on any argument and in any state of
    the interpreter, leaves the state as it found it: the heap, where
    the profile and every other object live, and the console (no side
    effect).  Hence two calls one after the other have the same outcome.
    When the state holds a profile behind the argument, the call returns
    the score of that profile, whatever else the heap and the console
    hold (no hidden state). *)
Theorem scorer_is_pure st v :
  snd (Obj.generate_quality_score v st) = st
  /\ Obj.twice v st = (Obj.both (fst (Obj.generate_quality_score v st)), st)
  /\ forall p, profile_at st v p ->
       fst (Obj.generate_quality_score v st)
       = Obj.Return (generate_quality_score p).
Proof.
  pose proof (pure_generate_quality_score v st) as P.
  split; [exact P|]. split.
  - unfold Obj.twice, Obj.bind.
    destruct (Obj.generate_quality_score v st) as [[a|e] st'] eqn:E; cbn in P; subst st';
      [|reflexivity].
    rewrite E. reflexivity.
  - intros p H. now rewrite (generate_quality_score_at st v p H).
Qed.

(** *** Monotonicity of the score *)
Lemma fin_half : fin 0.5 = true /\ 0 < fkey 0.5.
Proof. split; vm_compute; reflexivity. Qed.

Lemma fin_two : fin 2 = true /\ 0 < fkey 2.
Proof. split; vm_compute; reflexivity. Qed.

(** One deduction: [a] percent from the first score, [a'] from the
    second, where [a'] is [a] or larger. *)
Lemma deduct_behind s s' a a' c :
  fin c = true -> 0 < fkey c ->
  behind s' s -> a' = a \/ (a <=? a')%float = true ->
  behind (s' - a' * c) (s - a * c).
Proof.
  intros Fc Kc B [->|H]; apply sub_behind; auto.
  - apply leb_refl_or_nan.
  - right. now apply mul_pos_leb.
Qed.

Lemma deduct_all_behind l : forall s s',
  behind s' s ->
  behind (fold_left (fun s a => (s - a * 0.5)%float) l s')
         (fold_left (fun s a => (s - a * 0.5)%float) l s).
Proof.
  destruct fin_half as [F K].
  induction l as [|a l IH]; intros s s' B; simpl; [exact B|].
  apply IH. apply deduct_behind; auto.
Qed.

Lemma max0_mono s s' :
  (s' <=? s)%float = true ->
  (Py.to_float (Py.max0 s') <=? Py.to_float (Py.max0 s))%float = true.
Proof.
  intros H. unfold Py.max0.
  destruct (0 <? s')%float eqn:A, (0 <? s)%float eqn:B; simpl Py.to_float.
  - exact H.
  - exfalso. apply ltb_iff in A as (N0 & _ & K). apply leb_iff in H as (_ & Ns & K').
    assert (C : (0 <? s)%float = true) by (apply ltb_iff; repeat split; auto; lia).
    congruence.
  - apply ltb_iff in B as (N0 & Ns & K). apply leb_iff. repeat split; auto.
    change (Py.float_of_int 0) with 0%float. lia.
  - reflexivity.
Qed.

Lemma max0_nonneg s : (0 <=? Py.to_float (Py.max0 s))%float = true.
Proof.
  unfold Py.max0. destruct (0 <? s)%float eqn:A; simpl Py.to_float.
  - apply ltb_iff in A as (N0 & Ns & K). apply leb_iff. repeat split; auto. lia.
  - reflexivity.
Qed.

Lemma max0_behind s s' :
  behind s' s ->
  (Py.to_float (Py.max0 s') <=? Py.to_float (Py.max0 s))%float = true.
Proof.
  intros [B|[B|B]].
  - assert (A : (0 <? s')%float = false).
    { destruct (0 <? s')%float eqn:A; [|reflexivity].
      apply ltb_iff in A as (_ & N & _). contradiction. }
    unfold Py.max0 at 1. rewrite A. apply max0_nonneg.
  - assert (A : (0 <? s')%float = false).
    { destruct (0 <? s')%float eqn:A; [|reflexivity].
      apply ltb_iff in A as (_ & _ & K). destruct (inf_key _ _ B) as [_ K'].
      rewrite K', fkey_zero in K. unfold sgn in K. pose proof key_inf_pos. lia. }
    unfold Py.max0 at 1. rewrite A. apply max0_nonneg.
  - now apply max0_mono.
Qed.

(** Claim C5.  When two profiles differ only in one column's
    [null_percentage], which is larger in the second, the score of the
    second is at most the score of the first; this holds for all
    binary64 values of the other percentages, NaN and the infinities
    included. *)
Theorem quality_score_monotone p1 p2 before col c v after :
  columns_info p1 = before ++ (col, c) :: after ->
  columns_info p2 = before ++ (col, with_null_percentage c v) :: after ->
  duplicates p2 = duplicates p1 ->
  (null_percentage c <=? v)%float = true ->
  (Py.to_float (generate_quality_score p2)
   <=? Py.to_float (generate_quality_score p1))%float = true.
Proof.
  intros E1 E2 D Hv.
  rewrite !generate_quality_score_of, E1, E2, D. unfold score_of, Py.values.
  rewrite !map_map, !map_app, !fold_left_app. simpl map. simpl fold_left.
  destruct fin_half as [F K]. destruct fin_two as [F2 K2].
  assert (B0 : behind 100 100) by (right; right; reflexivity).
  pose proof (deduct_all_behind (map (fun x => null_percentage (snd x)) before) _ _ B0) as B1.
  pose proof (deduct_behind _ _ (null_percentage c) v 0.5%float F K B1 (or_intror Hv)) as B2.
  pose proof (deduct_all_behind (map (fun x => null_percentage (snd x)) after) _ _ B2) as B3.
  pose proof (deduct_behind _ _ (percentage (duplicates p1)) _ 2%float F2 K2 B3
                (or_introl eq_refl)) as B4.
  apply max0_behind. exact B4.
Qed.

(** *** Numeric columns without a value *)
Lemma no_value_no_valid_values col :
  Pd.is_numeric_dtype col = true -> Pd.sum_bool (Pd.notna col) = 0 ->
  Pd.valid_values col = [].
Proof.
  intros Hn H. rewrite notna_count in H.
  destruct col as [xs|xs|xs]; try discriminate; simpl in *.
  - destruct xs; [reflexivity|]. simpl in H. lia.
  - induction xs as [|x xs IH]; [reflexivity|]. simpl in *.
    unfold Pd.cell_of_float in *. destruct (is_nan x); simpl in *; [auto|lia].
Qed.

(** Claim C6.  For a numeric column without a non-missing value the
    column analysis returns (it does not raise), and mean, median, min,
    max and standard deviation are all NaN, the undefined value. *)
Theorem numeric_stats_undefined_without_values df col :
  Pd.is_numeric_dtype col = true -> Pd.sum_bool (Pd.notna col) = 0 ->
  exists ci,
    column_info df col = Py.Ok ci
    /\ stats ci = NumericStats nan nan nan nan nan.
Proof.
  intros Hn H. unfold column_info. rewrite Hn. eexists. split; [reflexivity|].
  cbn [stats]. unfold Pd.mean, Pd.median, Pd.min, Pd.max, Pd.std.
  rewrite (no_value_no_valid_values col Hn H). reflexivity.
Qed.

(** *** The average null percentage of the summary table *)
Lemma sum_floats xs a :
  fold_left Py.add (map Py.Float xs) (Py.Float a)
  = Py.Float (fold_left PrimFloat.add xs a).
Proof. revert a. induction xs as [|x xs IH]; intros a; simpl; [reflexivity|]. apply IH. Qed.

Lemma sum_nonempty x xs :
  Py.sum (map Py.Float (x :: xs)) = Py.Float (Pd.fsum (x :: xs)).
Proof. unfold Py.sum, Pd.fsum. simpl. apply sum_floats. Qed.

Lemma avg_null_raises p e : avg_null p = Py.Raise e -> e = Py.ZeroDivisionError.
Proof.
  unfold avg_null, Py.truediv, Py.int_truediv.
  destruct (Py.sum _); [|discriminate].
  destruct (_ =? 0); [|discriminate]. congruence.
Qed.

Lemma table_row_raises f p e : table_row f p = Py.Raise e -> e = Py.ZeroDivisionError.
Proof.
  unfold table_row. destruct (avg_null p) eqn:E; simpl; [discriminate|].
  intros [= <-]. now apply avg_null_raises in E.
Qed.

Lemma print_profile_table_raises profiles e :
  print_profile_table profiles = Py.Raise e -> e = Py.ZeroDivisionError.
Proof.
  induction profiles as [|[f p] rest IH]; simpl; [discriminate|].
  destruct (table_row f p) eqn:E; simpl.
  - destruct (print_profile_table rest); simpl; [discriminate|].
    intros [= <-]. now apply IH.
  - intros [= <-]. now apply table_row_raises in E.
Qed.

(** Claim C10.  A profile without columns makes the summary table raise
    [ZeroDivisionError]; for a profile with at least one column the
    average null percentage is computed and is the mean of the columns'
    [null_percentage]. *)
Theorem average_null_percentage p :
  (columns_info p = [] ->
     forall profiles filename, In (filename, p) profiles ->
       print_profile_table profiles = Py.Raise Py.ZeroDivisionError)
  /\ (columns_info p <> [] ->
        avg_null p
        = Py.Ok (Pd.mean_of (map null_percentage (Py.values (columns_info p))))).
Proof.
  split.
  - intros E profiles filename I.
    assert (R : table_row filename p = Py.Raise Py.ZeroDivisionError).
    { unfold table_row, avg_null. rewrite E. reflexivity. }
    induction profiles as [|[f q] rest IH]; [contradiction|]. simpl.
    destruct (table_row f q) as [r|e] eqn:T; simpl.
    + destruct I as [I|I]; [inversion I; subst; congruence|].
      rewrite (IH I). reflexivity.
    + f_equal. now apply table_row_raises in T.
  - intros N. unfold avg_null.
    replace (length (columns_info p)) with (length (Py.values (columns_info p)))
      by apply length_map.
    assert (V : Py.values (columns_info p) <> []).
    { unfold Py.values. destruct (columns_info p); [congruence|discriminate]. }
    destruct (Py.values (columns_info p)) as [|v vs]; [congruence|].
    rewrite <- (map_map null_percentage Py.Float).
    change (map null_percentage (v :: vs))
      with (null_percentage v :: map null_percentage vs).
    rewrite sum_nonempty. cbn [Py.truediv]. unfold Pd.mean_of, Pd.count.
    cbn [length]. rewrite length_map. reflexivity.
Qed.

(** *** Three rows, two columns, one missing value *)
Lemma two_entries {V} (d : Py.dict V) a b x y :
  Py.keys d = [a; b] -> a <> b ->
  Py.getitem d a = Some x -> Py.getitem d b = Some y ->
  d = [(a, x); (b, y)].
Proof.
  destruct d as [|[k1 v1] [|[k2 v2] [|? ?]]]; simpl; try discriminate.
  intros [= -> ->] N. rewrite String.eqb_refl.
  destruct (String.eqb_spec b a) as [E|_]; [congruence|].
  rewrite String.eqb_refl. congruence.
Qed.

Lemma scenario_profile df name a sa b sb :
  Pd.well_formed df -> Pd.index_len df = 3%nat ->
  Pd.columns df = [(a, sa); (b, sb)] \/ Pd.columns df = [(b, sb); (a, sa)] ->
  Pd.sum_bool (Pd.isna sa) = 1 -> Pd.sum_bool (Pd.isna sb) = 0 ->
  Pd.sum_bool (Pd.duplicated df) = 0 ->
  exists p ca cb,
    analyze_dataframe df name = Py.Ok p
    /\ (columns_info p = [(a, ca); (b, cb)] \/ columns_info p = [(b, cb); (a, ca)])
    /\ Py.getitem (columns_info p) a = Some ca
    /\ null_percentage ca = Np.round2 (Np.int64_truediv 1 3 * 100)%float
    /\ null_percentage cb = Np.round2 (Np.int64_truediv 0 3 * 100)%float
    /\ percentage (duplicates p) = Np.round2 (Np.int64_truediv 0 3 * 100)%float.
Proof.
  intros W L C Ha Hb Hd.
  destruct (analyze_dataframe_returns df name W ltac:(lia)) as [p H].
  destruct (analyze_dataframe_inv df name p W H) as (R & D & K & Fwd & _).
  assert (Ia : In (a, sa) (Pd.columns df)) by (destruct C as [-> | ->]; simpl; auto).
  assert (Ib : In (b, sb) (Pd.columns df)) by (destruct C as [-> | ->]; simpl; auto).
  destruct (Fwd a sa Ia) as (ca & Ga & Ea). destruct (Fwd b sb Ib) as (cb & Gb & Eb).
  destruct (column_info_fields df sa ca Ea) as (_ & _ & _ & Pa & _).
  destruct (column_info_fields df sb cb Eb) as (_ & _ & _ & Pb & _).
  assert (Lz : df_len df = 3) by (unfold df_len; rewrite L; reflexivity).
  assert (Nab : a <> b).
  { destruct W as [_ N]. destruct C as [E|E]; rewrite E in N; simpl in N;
      inversion N as [|? ? Hn _]; subst; intros ->; apply Hn; now left. }
  exists p, ca, cb. repeat split.
  - exact H.
  - destruct C as [E|E]; rewrite E in K; simpl in K.
    + left. now apply two_entries.
    + right. apply two_entries; auto.
  - exact Ga.
  - now rewrite Pa, Ha, Lz.
  - now rewrite Pb, Hb, Lz.
  - rewrite D. cbn [percentage duplicates empty_profile]. now rewrite Hd, Lz.
Qed.

(** Claim C7, amended.  For a frame of 3 rows and 2 columns with exactly
    one missing value in column [a], none in the other column and no
    duplicate row, the profile gives [a] a [null_percentage] of 33.33 and
    the score is [100 - 33.33 * 0.5] as computed in binary64
    (83.33500000000001): the score is not rounded. *)
Theorem scenario_one_null_in_three_rows df name a sa b sb :
  Pd.well_formed df -> Pd.index_len df = 3%nat ->
  Pd.columns df = [(a, sa); (b, sb)] \/ Pd.columns df = [(b, sb); (a, sa)] ->
  Pd.sum_bool (Pd.isna sa) = 1 -> Pd.sum_bool (Pd.isna sb) = 0 ->
  Pd.sum_bool (Pd.duplicated df) = 0 ->
  exists p ci,
    analyze_dataframe df name = Py.Ok p
    /\ Py.getitem (columns_info p) a = Some ci
    /\ null_percentage ci = 33.33%float
    /\ generate_quality_score p = Py.Float (100 - 33.33 * 0.5)%float.
Proof.
  intros W L C Ha Hb Hd.
  destruct (scenario_profile df name a sa b sb W L C Ha Hb Hd)
    as (p & ca & cb & H & Cs & G & Pa & Pb & Pd).
  exists p, ca. split; [exact H|]. split; [exact G|]. split.
  - rewrite Pa. vm_compute. reflexivity.
  - rewrite generate_quality_score_of, Pd.
    destruct Cs as [-> | ->]; cbn [Py.values map snd]; rewrite Pa, Pb;
      vm_compute; reflexivity.
Qed.

(** *** Frames without rows *)
Lemma sub_nan_r x : (x - nan)%float = nan.
Proof.
  apply Prim2SF_inj. rewrite FloatAxioms.sub_spec.
  change (Prim2SF nan) with S754_nan. unfold SF64sub.
  destruct (Prim2SF x) as [[]|[]| |]; reflexivity.
Qed.

Lemma score_of_nan_duplicates nulls : score_of nulls nan = Py.Int 0.
Proof.
  unfold score_of. change (nan * 2)%float with nan. rewrite sub_nan_r. reflexivity.
Qed.

Lemma column_line_raises p c e : column_line p c = Py.Raise e -> e = Py.ZeroDivisionError.
Proof.
  unfold column_line, Py.int_truediv. destruct (rows p =? 0); simpl; [congruence|discriminate].
Qed.

Lemma column_lines_raises p cs e :
  column_lines p cs = Py.Raise e -> e = Py.ZeroDivisionError.
Proof.
  induction cs as [|c cs IH]; simpl; [discriminate|].
  destruct (column_line p c) eqn:E; simpl.
  - destruct (column_lines p cs); simpl; [discriminate|]. intros [= <-]. now apply IH.
  - intros [= <-]. now apply column_line_raises in E.
Qed.

Lemma report_section_raises f p e :
  report_section f p = Py.Raise e -> e = Py.ZeroDivisionError.
Proof.
  unfold report_section. destruct (column_lines p (columns_info p)) eqn:E; simpl;
    [discriminate|]. intros [= <-]. now apply column_lines_raises in E.
Qed.

Lemma report_section_zero_rows f p :
  rows p = 0 -> columns_info p <> [] ->
  report_section f p = Py.Raise Py.ZeroDivisionError.
Proof.
  intros R N. unfold report_section. destruct (columns_info p) as [|c cs]; [congruence|].
  simpl. unfold column_line, Py.int_truediv. rewrite R. reflexivity.
Qed.

Lemma report_sections_raise profiles f p :
  In (f, p) profiles -> report_section f p = Py.Raise Py.ZeroDivisionError ->
  report_sections profiles = Py.Raise Py.ZeroDivisionError.
Proof.
  intros I R. induction profiles as [|[g q] rest IH]; [contradiction|]. simpl.
  destruct (report_section g q) as [s|e] eqn:S; simpl.
  - destruct I as [I|I]; [inversion I; subst; congruence|]. now rewrite (IH I).
  - f_equal. now apply report_section_raises in S.
Qed.

Lemma in_insert_item x y l : In x (insert_item y l) <-> x = y \/ In x l.
Proof.
  induction l as [|z l IH]; simpl; [intuition|].
  destruct (String.compare (fst y) (fst z)); simpl; rewrite ?IH; intuition.
Qed.

Lemma in_sorted_items x l : In x (sorted_items l) <-> In x l.
Proof.
  unfold sorted_items. induction l as [|y l IH]; simpl; [tauto|].
  rewrite in_insert_item, IH. intuition.
Qed.

Lemma report_zero_rows profiles f p :
  In (f, p) profiles -> rows p = 0 -> columns_info p <> [] ->
  generate_markdown_report profiles = Py.Raise Py.ZeroDivisionError.
Proof.
  intros I R N. unfold generate_markdown_report.
  destruct (Py.truediv _ _) as [avg|e] eqn:A; simpl.
  - rewrite (report_sections_raise (sorted_items profiles) f p); [reflexivity| |].
    + now apply in_sorted_items.
    + now apply report_section_zero_rows.
  - f_equal. unfold Py.truediv, Py.int_truediv in A.
    destruct (Py.sum _); [|discriminate]. destruct (_ =? 0); congruence.
Qed.

Lemma empty_series_isna s : Pd.len s = 0%nat -> Pd.sum_bool (Pd.isna s) = 0.
Proof.
  unfold Pd.len, Pd.isna. intros H. apply length_zero_iff_nil in H. now rewrite H.
Qed.

Lemma column_infos_numeric df cols :
  Forall (fun c => Pd.is_numeric_dtype (snd c) = true) cols ->
  exists infos, column_infos df cols = Py.Ok infos.
Proof.
  induction 1 as [|c cs H _ [infos IH]]; simpl; [eexists; reflexivity|].
  unfold column_info at 1. rewrite H. simpl. rewrite IH. simpl. eexists; reflexivity.
Qed.

(** Claim C2, amended.  For a frame without rows whose columns are all
    numeric, profiling returns: the NumPy quotient 0/0 raises nothing and
    is NaN, so [rows] is 0, every [null_percentage] and the duplicate
    percentage are NaN and the score is 0; the report divides two Python
    [int]s by the row count and raises [ZeroDivisionError] as soon as the
    profile has a column. *)
Theorem zero_row_profile df name :
  Pd.well_formed df -> Pd.index_len df = 0%nat ->
  Forall (fun c => Pd.is_numeric_dtype (snd c) = true) (Pd.columns df) ->
  exists p,
    analyze_dataframe df name = Py.Ok p
    /\ rows p = 0
    /\ (forall col ci, In (col, ci) (columns_info p) -> null_percentage ci = nan)
    /\ percentage (duplicates p) = nan
    /\ generate_quality_score p = Py.Int 0
    /\ (Pd.columns df <> [] ->
          forall profiles, In (name, p) profiles ->
            generate_markdown_report profiles = Py.Raise Py.ZeroDivisionError).
Proof.
  intros W L Num.
  assert (Lz : df_len df = 0) by (unfold df_len; now rewrite L).
  assert (Hp : exists p, analyze_dataframe df name = Py.Ok p).
  { destruct W as [_ N]. rewrite analyze_dataframe_eq by assumption.
    destruct (column_infos_numeric df (Pd.columns df) Num) as [infos ->].
    simpl. eexists; reflexivity. }
  destruct Hp as [p H]. exists p.
  destruct (analyze_dataframe_inv df name p W H) as (R & D & K & _ & Back).
  assert (Dn : percentage (duplicates p) = nan).
  { rewrite D. cbn [percentage duplicates empty_profile].
    unfold Pd.duplicated, Pd.empty. rewrite L, Lz. reflexivity. }
  repeat split.
  - exact H.
  - now rewrite R.
  - intros col ci I. destruct (Back col ci I) as (s & Is & E).
    destruct (column_info_fields df s ci E) as (_ & _ & _ & P & _).
    destruct W as [Len _]. rewrite Forall_forall in Len. specialize (Len _ Is).
    simpl in Len. rewrite L in Len.
    rewrite P, (empty_series_isna s Len), Lz. reflexivity.
  - exact Dn.
  - rewrite generate_quality_score_of, Dn. apply score_of_nan_duplicates.
  - intros C profiles I. apply (report_zero_rows profiles name p I); [now rewrite R|].
    intros E. apply C. apply (f_equal Py.keys) in E. rewrite K in E. simpl in E.
    now apply map_eq_nil in E.
Qed.

(** * Further properties of the profiler *)

(** ** The shape of a profile *)

Lemma analyze_dataframe_ok df name p :
  Pd.well_formed df -> analyze_dataframe df name = Py.Ok p ->
  exists infos,
    column_infos df (Pd.columns df) = Py.Ok infos
    /\ p = set_columns_info (empty_profile df name) infos.
Proof.
  intros [_ ND] H. rewrite analyze_dataframe_eq in H by exact ND.
  destruct (column_infos df (Pd.columns df)) as [infos|e]; simpl in H; [|discriminate].
  exists infos. split; [reflexivity|congruence].
Qed.

(** Property X1.  The profile of a well-formed frame carries the file
    name it was given, the number of rows of the frame, one
    [columns_info] entry per column under the column's name and in the
    order of the frame, and a [columns] count equal to the number of
    these entries. *)
Theorem profile_header df name p :
  Pd.well_formed df -> analyze_dataframe df name = Py.Ok p ->
  filename p = name
  /\ rows p = Z.of_nat (Pd.index_len df)
  /\ Py.keys (columns_info p) = map fst (Pd.columns df)
  /\ columns p = Z.of_nat (length (columns_info p)).
Proof.
  intros W H. destruct (analyze_dataframe_ok df name p W H) as (infos & Hi & ->).
  pose proof (column_infos_keys _ _ _ Hi) as K.
  cbn. repeat split; try assumption.
  f_equal. rewrite <- (length_map fst (Pd.columns df)), <- K.
  unfold Py.keys. now rewrite length_map.
Qed.

(** ** Percentages of analysed frames *)

Lemma analysed_null_percentage df name p col ci :
  Pd.well_formed df -> Pd.index_len df <> 0%nat ->
  Z.of_nat (Pd.index_len df) < 2 ^ 63 ->
  analyze_dataframe df name = Py.Ok p -> In (col, ci) (columns_info p) ->
  (0 <=? null_percentage ci)%float = true
  /\ (null_percentage ci <=? 100)%float = true.
Proof.
  intros W Hn Hb H I.
  destruct (analyze_dataframe_inv df name p W H) as (_ & _ & _ & _ & Hc).
  destruct (Hc col ci I) as (s & Is & Hs).
  destruct (column_info_fields df s ci Hs) as (_ & _ & _ & -> & _).
  apply percentage_range; unfold df_len; [|lia].
  pose proof (sum_bool_length (Pd.isna s)) as L. rewrite isna_length in L.
  destruct W as [Wl _]. rewrite Forall_forall in Wl.
  specialize (Wl (col, s) Is). cbn in Wl. rewrite Wl in L. exact L.
Qed.

Lemma analysed_duplicate_percentage df name p :
  Pd.well_formed df -> Pd.index_len df <> 0%nat ->
  Z.of_nat (Pd.index_len df) < 2 ^ 63 ->
  analyze_dataframe df name = Py.Ok p ->
  (0 <=? percentage (duplicates p))%float = true
  /\ (percentage (duplicates p) <=? 100)%float = true.
Proof.
  intros W Hn Hb H.
  destruct (analyze_dataframe_inv df name p W H) as (_ & -> & _).
  cbn. apply percentage_range; unfold df_len; [|lia]. apply duplicated_le.
Qed.

(** Property X2.  For a frame with at least one row every column's
    [null_percentage] lies between 0 and 100. *)
Theorem null_percentage_range df name p :
  Pd.well_formed df -> Pd.index_len df <> 0%nat ->
  Z.of_nat (Pd.index_len df) < 2 ^ 63 ->
  analyze_dataframe df name = Py.Ok p ->
  forall col ci, In (col, ci) (columns_info p) ->
    (0 <=? null_percentage ci)%float = true
    /\ (null_percentage ci <=? 100)%float = true.
Proof. intros W Hn Hb H col ci I. now apply (analysed_null_percentage df name p col ci). Qed.

(** ** The range of the score *)

Lemma behind_100 s' a c :
  fin c = true -> 0 < fkey c -> (100 - 0 * c)%float = 100%float ->
  behind s' 100 -> (0 <=? a)%float = true -> behind (s' - a * c) 100.
Proof.
  intros F K E B Ha.
  pose proof (deduct_behind 100 s' 0 a c F K B (or_intror Ha)) as H.
  rewrite E in H. exact H.
Qed.

Lemma deduct_all_behind_100 l : forall s',
  Forall (fun a => (0 <=? a)%float = true) l ->
  behind s' 100 ->
  behind (fold_left (fun s a => (s - a * 0.5)%float) l s') 100.
Proof.
  destruct fin_half as [F K].
  induction l as [|a l IH]; intros s' N B; simpl; [exact B|].
  inversion N as [|? ? Ha N']; subst. apply IH; [exact N'|].
  apply behind_100; auto.
Qed.

Lemma score_of_range nulls dup :
  Forall (fun a => (0 <=? a)%float = true) nulls ->
  (0 <=? dup)%float = true ->
  (Py.to_float (score_of nulls dup) <=? 100)%float = true.
Proof.
  intros N D. unfold score_of. destruct fin_two as [F2 K2].
  assert (B0 : behind 100 100) by (right; right; reflexivity).
  pose proof (deduct_all_behind_100 nulls _ N B0) as B1.
  pose proof (behind_100 _ dup 2%float F2 K2 eq_refl B1 D) as B2.
  apply max0_behind in B2. exact B2.
Qed.

(** Property X3.  The score is never negative and never NaN, whatever
    the profile; when no percentage is negative or NaN it is at most
    100. *)
Theorem quality_score_bounds p :
  (0 <=? Py.to_float (generate_quality_score p))%float = true
  /\ (Forall (fun c => (0 <=? null_percentage c)%float = true)
             (Py.values (columns_info p)) ->
      (0 <=? percentage (duplicates p))%float = true ->
      (Py.to_float (generate_quality_score p) <=? 100)%float = true).
Proof.
  split; [apply max0_nonneg|]. intros N D.
  rewrite generate_quality_score_of. apply score_of_range; [|exact D].
  rewrite Forall_map. exact N.
Qed.

(** Property X4.  The score of the profile of a frame with at least one
    row lies between 0 and 100. *)
Theorem analysed_score_range df name :
  Pd.well_formed df -> Pd.index_len df <> 0%nat ->
  Z.of_nat (Pd.index_len df) < 2 ^ 63 ->
  exists p,
    analyze_dataframe df name = Py.Ok p
    /\ (0 <=? Py.to_float (generate_quality_score p))%float = true
    /\ (Py.to_float (generate_quality_score p) <=? 100)%float = true.
Proof.
  intros W Hn Hb. destruct (analyze_dataframe_returns df name W Hn) as [p H].
  exists p. split; [exact H|]. split; [apply max0_nonneg|].
  rewrite generate_quality_score_of. apply score_of_range.
  - rewrite Forall_map. unfold Py.values. rewrite Forall_map.
    apply Forall_forall. intros [col ci] I.
    apply (analysed_null_percentage df name p col ci W Hn Hb H I).
  - apply (analysed_duplicate_percentage df name p W Hn Hb H).
Qed.

(** ** Errors of the analysis *)

Lemma present_str_len xs :
  Pd.present (Pd.str_len (Pd.Object xs))
  = map (fun t => Z.of_nat (Py.len t))
        (flat_map (fun o => match o with Some t => [t] | None => [] end) xs).
Proof.
  unfold Pd.str_len. induction xs as [|[t|] xs IH]; cbn; [reflexivity| |exact IH].
  now rewrite IH.
Qed.

(** The analysis of one column raises for an [object] column without
    entries, and for that column alone. *)
Lemma column_info_raises df s e :
  column_info df s = Py.Raise e <-> e = Py.ValueError /\ s = Pd.Object [].
Proof.
  split.
  - unfold column_info. destruct s as [xs|xs|xs]; cbn [Pd.is_numeric_dtype]; try discriminate.
    destruct (Pd.is_string_dtype (Pd.Object xs)) eqn:S; [|discriminate].
    destruct xs as [|[t|] xs].
    + cbn. intros H. split; [congruence|reflexivity].
    + cbn. discriminate.
    + cbn in S. discriminate.
  - intros [-> ->]. reflexivity.
Qed.

Lemma analyze_fold_raises df e cols : forall acc,
  fold_left
    (fun acc c =>
       profile <- acc ;;
       col_info <- column_info df (snd c) ;;
       Py.Ok (set_columns_info profile
                (Py.setitem (columns_info profile) (fst c) col_info)))
    cols (Py.Ok acc) = Py.Raise e
  <-> e = Py.ValueError /\ exists col, In (col, Pd.Object []) cols.
Proof.
  induction cols as [|[k s] cols IH]; intros acc; cbn [fold_left].
  - split; [discriminate|]. intros (_ & col & []).
  - cbn [Py.bind fst snd]. destruct (column_info df s) as [ci|e'] eqn:C.
    + cbn [Py.bind]. rewrite IH. split.
      * intros (-> & col & I). split; [reflexivity|]. exists col. now right.
      * intros (-> & col & [I|I]); [|split; [reflexivity|now exists col]].
        injection I as -> ->.
        assert (R : column_info df (Pd.Object []) = Py.Raise Py.ValueError)
          by (apply column_info_raises; auto).
        congruence.
    + cbn [Py.bind]. rewrite fold_raise.
      apply column_info_raises in C as [-> ->]. split.
      * intros H. injection H as <-. split; [reflexivity|]. exists k. now left.
      * intros [-> _]. reflexivity.
Qed.

(** Property X5.  The analysis of a frame with distinct column names
    raises exactly when the frame has an [object] column without entries
    (a file with a header and no row), and the exception is then
    [ValueError], from [int(nan)]; on every other such frame it returns
    a profile. *)
Theorem analyze_dataframe_raises df name :
  Pd.well_formed df ->
  (forall e, analyze_dataframe df name = Py.Raise e
             <-> e = Py.ValueError
                 /\ exists col, In (col, Pd.Object []) (Pd.columns df))
  /\ (Py.returns (analyze_dataframe df name)
      <-> forall col, ~ In (col, Pd.Object []) (Pd.columns df)).
Proof.
  intros _.
  assert (R : forall e, analyze_dataframe df name = Py.Raise e
                        <-> e = Py.ValueError
                            /\ exists col, In (col, Pd.Object []) (Pd.columns df)).
  { intros e. unfold analyze_dataframe. apply analyze_fold_raises. }
  split; [exact R|]. split.
  - intros [p H] col I.
    assert (X : analyze_dataframe df name = Py.Raise Py.ValueError)
      by (apply R; split; [reflexivity|now exists col]).
    congruence.
  - intros N. destruct (analyze_dataframe df name) as [p|e] eqn:H; [now exists p|].
    destruct (proj1 (R e) eq_refl) as (_ & col & I). exfalso. exact (N col I).
Qed.

(** ** Text columns *)

Lemma fold_min_spec l : forall a,
  fold_left Z.min l a <= a
  /\ (forall z, In z l -> fold_left Z.min l a <= z)
  /\ In (fold_left Z.min l a) (a :: l).
Proof.
  induction l as [|x l IH]; intros a; cbn [fold_left].
  - split; [lia|]. split; [intros z []|now left].
  - destruct (IH (Z.min a x)) as (H1 & H2 & H3). split; [lia|]. split.
    + intros z [->|I]; [lia|auto].
    + destruct H3 as [H3|H3]; [|right; now right].
      rewrite <- H3. destruct (Z.min_spec a x) as [[_ ->]|[_ ->]]; [now left|right; now left].
Qed.

Lemma fold_max_spec l : forall a,
  a <= fold_left Z.max l a
  /\ (forall z, In z l -> z <= fold_left Z.max l a)
  /\ In (fold_left Z.max l a) (a :: l).
Proof.
  induction l as [|x l IH]; intros a; cbn [fold_left].
  - split; [lia|]. split; [intros z []|now left].
  - destruct (IH (Z.max a x)) as (H1 & H2 & H3). split; [lia|]. split.
    + intros z [->|I]; [lia|auto].
    + destruct H3 as [H3|H3]; [|right; now right].
      rewrite <- H3. destruct (Z.max_spec a x) as [[_ ->]|[_ ->]]; [right; now left|now left].
Qed.

Lemma texts_of_all xs :
  forallb is_text xs = true ->
  forall t, In t (flat_map (fun o => match o with Some t => [t] | None => [] end) xs)
            <-> In (Some t) xs.
Proof.
  intros _ t. rewrite in_flat_map. split.
  - intros ([u|] & I & J); cbn in J; [|contradiction].
    destruct J as [->|[]]. exact I.
  - intros I. exists (Some t). split; [exact I|now left].
Qed.

(** A leading byte is not a continuation byte, so the encoding of a
    [str] has no character only when it has no byte. *)
Lemma trailing_leading c n : Py.trailing c = Some n -> Py.is_continuation c = false.
Proof. destruct c as [? ? ? [] [] [] [] []]; cbn; congruence. Qed.

Lemma length_zero_iff t :
  Py.utf8 t = true -> Z.of_nat (Py.len t) = 0 <-> t = EmptyString.
Proof.
  destruct t as [|c t]; intros U; [now split|].
  unfold Py.utf8 in U. cbn [Py.utf8_from] in U.
  destruct (Py.trailing c) as [n|] eqn:T; [|discriminate].
  cbn [Py.len]. rewrite (trailing_leading c n T). split; [lia|discriminate].
Qed.

Lemma is_str_text xs : forallb is_str xs = true -> forallb is_text xs = true.
Proof.
  induction xs as [|[t|] xs IH]; cbn; [reflexivity| |discriminate].
  intros H. apply andb_prop in H as [_ H]. auto.
Qed.

Lemma count_zero_empty xs :
  forallb is_str xs = true ->
  Pd.count_zero (Pd.str_len (Pd.Object xs))
  = Z.of_nat (length (filter is_empty_text xs)).
Proof.
  intros U. unfold Pd.count_zero, Pd.str_len. rewrite map_map, sum_bool_map. do 2 f_equal.
  induction xs as [|[t|] xs IH]; cbn [filter forallb is_str] in *; [reflexivity| |discriminate].
  apply andb_prop in U as [Ut U]. rewrite (IH U). cbn [option_map is_empty_text].
  destruct (Z.eqb_spec (Z.of_nat (Py.len t)) 0) as [E|E].
  - apply (length_zero_iff t Ut) in E. now subst t.
  - destruct t; [exfalso; now apply E|reflexivity].
Qed.

(** Property X6.  For a text column (an [object] column with at least
    one entry, all of them text, held as UTF-8) the column analysis
    returns; [min_length] and [max_length] are the lengths in characters
    of entries of the column and bound the length of every entry,
    [empty_strings] is the number of entries that are the empty text,
    and it is positive exactly when [min_length] is 0. *)
Theorem text_column_statistics df xs :
  forallb is_str xs = true -> xs <> [] ->
  exists ci mn mx,
    column_info df (Pd.Object xs) = Py.Ok ci
    /\ stats ci = TextStats mn mx (Z.of_nat (length (filter is_empty_text xs)))
    /\ (exists t, In (Some t) xs /\ mn = Z.of_nat (Py.len t))
    /\ (exists t, In (Some t) xs /\ mx = Z.of_nat (Py.len t))
    /\ (forall t, In (Some t) xs -> mn <= Z.of_nat (Py.len t) <= mx)
    /\ (mn = 0 <-> 0 < Z.of_nat (length (filter is_empty_text xs))).
Proof.
  intros U N. pose proof (is_str_text xs U) as A.
  assert (Us : forall t, In (Some t) xs -> Py.utf8 t = true).
  { intros t I. rewrite forallb_forall in U. exact (U _ I). }
  pose proof (texts_of_all xs A) as T.
  unfold column_info. cbn [Pd.is_numeric_dtype].
  change (Pd.is_string_dtype (Pd.Object xs)) with (forallb is_text xs). rewrite A.
  unfold Pd.len_min, Pd.len_max. rewrite present_str_len, (count_zero_empty xs U).
  set (ts := flat_map (fun o => match o with Some t => [t] | None => [] end) xs) in *.
  destruct ts as [|t0 ts'] eqn:Ets.
  { exfalso. destruct xs as [|[t|] xs']; [congruence| |discriminate].
    apply (proj2 (T t)). now left. }
  cbn [map Py.int_ Py.bind].
  set (ls := map (fun t => Z.of_nat (Py.len t)) ts').
  set (l0 := Z.of_nat (Py.len t0)).
  destruct (fold_min_spec ls l0) as (m1 & m2 & m3).
  destruct (fold_max_spec ls l0) as (M1 & M2 & M3).
  assert (Hin : forall z, In z (l0 :: ls) -> exists t, In (Some t) xs /\ z = Z.of_nat (Py.len t)).
  { intros z [<-|I].
    - exists t0. split; [apply T; now left|reflexivity].
    - unfold ls in I. apply in_map_iff in I as (t & <- & I).
      exists t. split; [apply T; now right|reflexivity]. }
  assert (Hall : forall t, In (Some t) xs ->
                   fold_left Z.min ls l0 <= Z.of_nat (Py.len t) <= fold_left Z.max ls l0).
  { intros t I. apply T in I. destruct I as [<-|I]; [fold l0; lia|].
    assert (J : In (Z.of_nat (Py.len t)) ls)
      by (unfold ls; apply (in_map (fun t => Z.of_nat (Py.len t))); exact I).
    split; [now apply m2|now apply M2]. }
  eexists _, _, _. split; [reflexivity|]. cbn [stats].
  split; [reflexivity|]. split; [now apply Hin|]. split; [now apply Hin|].
  split; [exact Hall|].
  split.
  - intros Z0. destruct (Hin _ m3) as (t & I & E). rewrite Z0 in E.
    symmetry in E. apply (length_zero_iff t (Us t I)) in E. subst t.
    assert (J : In (Some EmptyString) (filter is_empty_text xs))
      by (apply filter_In; split; [exact I|reflexivity]).
    destruct (filter is_empty_text xs); [destruct J|cbn; lia].
  - intros P. destruct (filter is_empty_text xs) as [|o r] eqn:F; [cbn in P; lia|].
    assert (J : In o (filter is_empty_text xs)) by (rewrite F; now left).
    apply filter_In in J as [I E]. destruct o as [[|]|]; try discriminate.
    specialize (Hall _ I). cbn in Hall.
    pose proof (Hin _ m3) as (t & _ & E'). lia.
Qed.

(** ** Minimum and maximum of a [float64] column *)

Lemma fold_fmin_spec l : forall a,
  not_nan a -> Forall not_nan l ->
  let m := fold_left Pd.fmin l a in
  In m (a :: l) /\ not_nan m /\ fkey m <= fkey a
  /\ forall v, In v l -> fkey m <= fkey v.
Proof.
  induction l as [|x l IH]; intros a Na Nl; cbn [fold_left].
  - cbv zeta. split; [now left|]. split; [exact Na|]. split; [lia|]. intros v [].
  - inversion Nl as [|? ? Nx Nl']; subst.
    assert (C : not_nan (Pd.fmin a x) /\ fkey (Pd.fmin a x) <= fkey a
                /\ fkey (Pd.fmin a x) <= fkey x
                /\ (Pd.fmin a x = a \/ Pd.fmin a x = x)).
    { unfold Pd.fmin. destruct (a <? x)%float eqn:L.
      - apply ltb_iff in L as (_ & _ & L). repeat split; auto; lia.
      - repeat split; auto; try lia.
        destruct (Z.lt_ge_cases (fkey a) (fkey x)) as [G|G]; [|lia].
        assert (T : (a <? x)%float = true) by (apply ltb_iff; auto). congruence. }
    destruct C as (Nm & Ma & Mx & Mi).
    destruct (IH (Pd.fmin a x) Nm Nl') as (I & N & K & A). cbv zeta.
    split.
    { destruct I as [I|I]; [|right; now right].
      rewrite <- I. destruct Mi as [->| ->]; [now left|right; now left]. }
    split; [exact N|]. split; [lia|].
    intros v [<-|J]; [lia|auto].
Qed.

Lemma fold_fmax_spec l : forall a,
  not_nan a -> Forall not_nan l ->
  let m := fold_left Pd.fmax l a in
  In m (a :: l) /\ not_nan m /\ fkey a <= fkey m
  /\ forall v, In v l -> fkey v <= fkey m.
Proof.
  induction l as [|x l IH]; intros a Na Nl; cbn [fold_left].
  - cbv zeta. split; [now left|]. split; [exact Na|]. split; [lia|]. intros v [].
  - inversion Nl as [|? ? Nx Nl']; subst.
    assert (C : not_nan (Pd.fmax a x) /\ fkey a <= fkey (Pd.fmax a x)
                /\ fkey x <= fkey (Pd.fmax a x)
                /\ (Pd.fmax a x = a \/ Pd.fmax a x = x)).
    { unfold Pd.fmax. destruct (x <? a)%float eqn:L.
      - apply ltb_iff in L as (_ & _ & L). repeat split; auto; lia.
      - repeat split; auto; try lia.
        destruct (Z.lt_ge_cases (fkey x) (fkey a)) as [G|G]; [|lia].
        assert (T : (x <? a)%float = true) by (apply ltb_iff; auto). congruence. }
    destruct C as (Nm & Ma & Mx & Mi).
    destruct (IH (Pd.fmax a x) Nm Nl') as (I & N & K & A). cbv zeta.
    split.
    { destruct I as [I|I]; [|right; now right].
      rewrite <- I. destruct Mi as [->| ->]; [now left|right; now left]. }
    split; [exact N|]. split; [lia|].
    intros v [<-|J]; [lia|auto].
Qed.

Lemma is_nan_false x : is_nan x = false <-> not_nan x.
Proof.
  unfold not_nan. pose proof (is_nan_iff x) as H.
  destruct (is_nan x); split; intros A; try discriminate; try reflexivity.
  - exfalso. apply A. now apply H.
  - intros E. apply H in E. discriminate.
Qed.

Lemma valid_values_float xs v :
  In v (Pd.valid_values (Pd.Float64 xs)) <-> In v xs /\ is_nan v = false.
Proof.
  cbn [Pd.valid_values]. rewrite filter_In. split; intros [I N]; split; auto.
  - now apply negb_true_iff.
  - now rewrite N.
Qed.

(** Property X7.  For a [float64] column with at least one value that
    is not missing the column analysis returns numeric statistics whose
    [min] and [max] are values of the column, not NaN, and bound every
    value that is not missing. *)
Theorem float_column_extremes df xs v0 :
  In v0 xs -> is_nan v0 = false ->
  exists ci mean median mn mx std,
    column_info df (Pd.Float64 xs) = Py.Ok ci
    /\ stats ci = NumericStats mean median mn mx std
    /\ In mn xs /\ is_nan mn = false
    /\ In mx xs /\ is_nan mx = false
    /\ forall v, In v xs -> is_nan v = false ->
         (mn <=? v)%float = true /\ (v <=? mx)%float = true.
Proof.
  intros I0 N0.
  assert (V0 : In v0 (Pd.valid_values (Pd.Float64 xs))) by (apply valid_values_float; auto).
  assert (NV : Forall not_nan (Pd.valid_values (Pd.Float64 xs))).
  { apply Forall_forall. intros v I. apply valid_values_float in I as [_ N].
    now apply is_nan_false. }
  unfold column_info. cbn [Pd.is_numeric_dtype].
  eexists _, _, _, _, _, _. split; [reflexivity|]. cbn [stats].
  split; [reflexivity|].
  unfold Pd.min, Pd.max, Pd.min_of, Pd.max_of.
  destruct (Pd.valid_values (Pd.Float64 xs)) as [|a l] eqn:E; [destruct V0|].
  inversion NV as [|? ? Na Nl]; subst.
  destruct (fold_fmin_spec l a Na Nl) as (Im & Nm & Ka & Kl).
  destruct (fold_fmax_spec l a Na Nl) as (IM & NM & KA & KL).
  assert (Sub : forall v, In v (a :: l) -> In v xs /\ is_nan v = false).
  { intros v I. rewrite <- E in I. now apply valid_values_float. }
  split; [apply (Sub _ Im)|]. split; [apply (Sub _ Im)|].
  split; [apply (Sub _ IM)|]. split; [apply (Sub _ IM)|].
  intros v I N.
  assert (J : In v (a :: l)) by (rewrite <- E; apply valid_values_float; auto).
  assert (Nv : not_nan v) by now apply is_nan_false.
  rewrite !leb_iff. destruct J as [<-|J].
  - repeat split; auto.
  - repeat split; auto.
Qed.

(** ** Frames without a missing value or a repeated row *)

Lemma float_of_zero : Np.float_of_int64 0 = 0%float.
Proof. reflexivity. Qed.

Lemma zero_percentage n :
  1 <= n < 2 ^ 63 -> Np.round2 (Np.int64_truediv 0 n * 100)%float = 0%float.
Proof.
  intros Hn. unfold Np.int64_truediv. rewrite float_of_zero.
  destruct (float_of_int64_normal n Hn) as (m & e & E & _).
  assert (Q : (0 / Np.float_of_int64 n)%float = 0%float).
  { apply Prim2SF_inj. rewrite FloatAxioms.div_spec, E. reflexivity. }
  rewrite Q. reflexivity.
Qed.

Lemma deduct_zeros l :
  Forall (fun a => a = 0%float) l ->
  fold_left (fun s a => (s - a * 0.5)%float) l 100%float = 100%float.
Proof.
  induction l as [|a l IH]; intros H; cbn [fold_left]; [reflexivity|].
  inversion H as [|? ? Ha H']; subst.
  change (100 - 0 * 0.5)%float with 100%float. now apply IH.
Qed.

Lemma no_null_issue (l : Py.dict ColumnInfo) :
  Forall (fun c => null_percentage (snd c) = 0%float) l ->
  flat_map (fun c =>
              if (10 <? null_percentage (snd c))%float
              then [NullValues (fst c) (null_percentage (snd c))] else []) l = [].
Proof.
  induction 1 as [|c l Hc0 _ IH]; [reflexivity|].
  cbn [flat_map]. rewrite Hc0. change (10 <? 0)%float with false. exact IH.
Qed.

(** Property X8.  A frame with at least one row, no missing value in
    any column and no repeated row has the score 100, and the report
    lists no quality issue for it. *)
Theorem clean_frame_scores_100 df name :
  Pd.well_formed df -> Pd.index_len df <> 0%nat ->
  Z.of_nat (Pd.index_len df) < 2 ^ 63 ->
  Forall (fun c => Pd.sum_bool (Pd.isna (snd c)) = 0) (Pd.columns df) ->
  Pd.sum_bool (Pd.duplicated df) = 0 ->
  exists p,
    analyze_dataframe df name = Py.Ok p
    /\ generate_quality_score p = Py.Float 100
    /\ quality_issues p = [].
Proof.
  intros W Hn Hb Hc Hd. destruct (analyze_dataframe_returns df name W Hn) as [p H].
  exists p. split; [exact H|].
  assert (R : 1 <= df_len df < 2 ^ 63) by (unfold df_len; lia).
  destruct (analyze_dataframe_inv df name p W H) as (_ & D & _ & _ & Hci).
  assert (Z0 : Forall (fun c => null_percentage (snd c) = 0%float) (columns_info p)).
  { apply Forall_forall. intros [col ci] I. cbn [snd].
    destruct (Hci col ci I) as (s & Is & Hs).
    destruct (column_info_fields df s ci Hs) as (_ & _ & _ & -> & _).
    rewrite Forall_forall in Hc. specialize (Hc (col, s) Is). cbn [snd] in Hc.
    rewrite Hc. apply (zero_percentage _ R). }
  assert (D0 : percentage (duplicates p) = 0%float).
  { rewrite D. cbn [percentage duplicates empty_profile].
    rewrite Hd. apply (zero_percentage _ R). }
  split.
  - rewrite generate_quality_score_of. unfold score_of. rewrite D0.
    rewrite deduct_zeros; [reflexivity|].
    rewrite Forall_map. unfold Py.values. rewrite Forall_map. exact Z0.
  - unfold quality_issues. rewrite D0. change (5 <? 0)%float with false.
    rewrite app_nil_r. now apply no_null_issue.
Qed.

(** ** Duplicates and NaN in the score *)

(** Property X9.  When two profiles have the same columns and the
    second has the larger duplicate percentage, the score of the second
    is at most the score of the first. *)
Theorem quality_score_monotone_duplicates p1 p2 :
  columns_info p2 = columns_info p1 ->
  (percentage (duplicates p1) <=? percentage (duplicates p2))%float = true ->
  (Py.to_float (generate_quality_score p2)
   <=? Py.to_float (generate_quality_score p1))%float = true.
Proof.
  intros E H. rewrite !generate_quality_score_of, E. unfold score_of.
  destruct fin_two as [F2 K2].
  assert (B0 : behind 100 100) by (right; right; reflexivity).
  pose proof (deduct_all_behind (map null_percentage (Py.values (columns_info p1))) _ _ B0) as B1.
  apply max0_behind. apply deduct_behind; auto.
Qed.

Lemma mul_nan_left x c : Prim2SF x = S754_nan -> Prim2SF (x * c) = S754_nan.
Proof. intros E. rewrite FloatAxioms.mul_spec, E. reflexivity. Qed.

Lemma deduct_nan_stays l : forall s,
  Prim2SF s = S754_nan ->
  Prim2SF (fold_left (fun s a => (s - a * 0.5)%float) l s) = S754_nan.
Proof.
  induction l as [|a l IH]; intros s H; cbn [fold_left]; [exact H|].
  apply IH. now apply sub_nan_left.
Qed.

Lemma deduct_nan_in l : forall s,
  (exists a, In a l /\ Prim2SF a = S754_nan) ->
  Prim2SF (fold_left (fun s a => (s - a * 0.5)%float) l s) = S754_nan.
Proof.
  induction l as [|x l IH]; intros s (a & I & N); [destruct I|].
  cbn [fold_left]. destruct I as [->|I].
  - apply deduct_nan_stays. apply sub_nan_right. now apply mul_nan_left.
  - apply IH. now exists a.
Qed.

Lemma max0_nan s : Prim2SF s = S754_nan -> Py.max0 s = Py.Int 0.
Proof.
  intros H. unfold Py.max0. destruct (0 <? s)%float eqn:A; [|reflexivity].
  apply ltb_iff in A as (_ & N & _). contradiction.
Qed.

(** Property X10.  A NaN among the null percentages or as the duplicate
    percentage makes the score the [int] 0. *)
Theorem nan_percentage_scores_zero p :
  (exists c, In c (Py.values (columns_info p)) /\ is_nan (null_percentage c) = true)
  \/ is_nan (percentage (duplicates p)) = true ->
  generate_quality_score p = Py.Int 0.
Proof.
  intros H. rewrite generate_quality_score_of. unfold score_of. apply max0_nan.
  destruct H as [(c & I & N)|N].
  - apply sub_nan_left. apply deduct_nan_in. exists (null_percentage c).
    split; [now apply in_map|now apply is_nan_iff].
  - apply sub_nan_right. apply mul_nan_left. now apply is_nan_iff.
Qed.

(** ** The summary table *)

Lemma avg_null_value p :
  columns_info p <> [] ->
  avg_null p = Py.Ok (Pd.mean_of (map null_percentage (Py.values (columns_info p)))).
Proof.
  intros N. unfold avg_null.
  replace (length (columns_info p)) with (length (Py.values (columns_info p)))
    by apply length_map.
  assert (V : Py.values (columns_info p) <> []).
  { unfold Py.values. destruct (columns_info p); [congruence|discriminate]. }
  destruct (Py.values (columns_info p)) as [|v vs]; [congruence|].
  rewrite <- (map_map null_percentage Py.Float).
  change (map null_percentage (v :: vs))
    with (null_percentage v :: map null_percentage vs).
  rewrite sum_nonempty. cbn [Py.truediv]. unfold Pd.mean_of, Pd.count.
  cbn [length]. rewrite length_map. reflexivity.
Qed.

Lemma table_row_returns f p :
  columns_info p <> [] ->
  exists r, table_row f p = Py.Ok r
            /\ row_table r = f /\ row_name r = table_name f
            /\ row_rows r = rows p /\ row_columns r = columns p
            /\ row_duplicates r = total (duplicates p)
            /\ row_score r = generate_quality_score p.
Proof.
  intros N. unfold table_row. rewrite (avg_null_value p N). cbn [Py.bind].
  eexists. split; [reflexivity|]. cbn. repeat split.
Qed.

Lemma table_row_no_columns f p :
  columns_info p = [] -> table_row f p = Py.Raise Py.ZeroDivisionError.
Proof. intros E. unfold table_row, avg_null. rewrite E. reflexivity. Qed.

Lemma print_profile_table_spec profiles :
  (Py.returns (print_profile_table profiles)
   <-> Forall (fun fp => columns_info (snd fp) <> []) profiles)
  /\ forall table, print_profile_table profiles = Py.Ok table ->
       Forall2 (fun fp r =>
                  row_table r = fst fp
                  /\ row_name r = table_name (fst fp)
                  /\ row_rows r = rows (snd fp)
                  /\ row_columns r = columns (snd fp)
                  /\ row_duplicates r = total (duplicates (snd fp))
                  /\ row_score r = generate_quality_score (snd fp))
               profiles table.
Proof.
  induction profiles as [|[f p] rest [IHr IHt]]; cbn [print_profile_table].
  - split; [split; [constructor|intros _; now exists []]|].
    intros table H. injection H as <-. constructor.
  - destruct (columns_info p) as [|c cs] eqn:E.
    + rewrite (table_row_no_columns f p E). cbn [Py.bind]. split.
      * split; [intros [t H]; discriminate|].
        intros H. inversion H as [|? ? N _]; subst. cbn in N. congruence.
      * intros table H. discriminate.
    + assert (N : columns_info p <> []) by (rewrite E; discriminate).
      destruct (table_row_returns f p N) as (r & -> & Hr). cbn [Py.bind].
      destruct (print_profile_table rest) as [rs|e] eqn:T; cbn [Py.bind].
      * split.
        -- split; [|intros _; now exists (r :: rs)].
           intros _. constructor; [cbn; rewrite E; discriminate|].
           apply IHr. now exists rs.
        -- intros table H. injection H as <-. constructor; [exact Hr|now apply IHt].
      * split; [|intros table H; discriminate].
        split; [intros [t H]; discriminate|].
        intros H. inversion H as [|? ? _ H']; subst.
        apply IHr in H' as [t H']. discriminate.
Qed.


Lemma plain_cons c r : Py.plain (String c r) = plain_char c && Py.plain r.
Proof. reflexivity. Qed.

Lemma plain_append a b : Py.plain a = true -> Py.plain b = true -> Py.plain (String.append a b) = true.
Proof.
  induction a as [|c a IH]; intros Ha Hb; [exact Hb|].
  cbn [String.append]. rewrite plain_cons in *.
  apply andb_prop in Ha as [Hc Ha]. rewrite Hc. cbn. now apply IH.
Qed.

Lemma replace_from_plain old new s :
  Py.plain new = true -> Py.plain s = true ->
  forall skip, Py.plain (Py.replace_from old new skip s) = true.
Proof.
  intros Hn. induction s as [|c r IH]; intros Hs skip; [reflexivity|].
  rewrite plain_cons in Hs. apply andb_prop in Hs as [Hc Hr].
  cbn [Py.replace_from]. destruct skip as [|k]; [|now apply IH].
  destruct (String.prefix old (String c r)).
  - apply plain_append; [exact Hn|now apply IH].
  - rewrite plain_cons, Hc. cbn. now apply IH.
Qed.

Lemma case_plain_char c :
  plain_char c = true ->
  plain_char (Py.to_upper c) = true /\ plain_char (Py.to_lower c) = true.
Proof.
  destruct c as [[] [] [] [] [] [] [] []]; vm_compute; intros H;
    try discriminate H; split; reflexivity.
Qed.

Lemma title_from_plain s : forall b,
  Py.plain s = true -> Py.plain (Py.title_from b s) = true.
Proof.
  induction s as [|c r IH]; intros b Hs; [reflexivity|].
  rewrite plain_cons in Hs. apply andb_prop in Hs as [Hc Hr].
  cbn [Py.title_from]. rewrite plain_cons, (IH _ Hr), andb_true_r.
  destruct (case_plain_char c Hc) as [U L]. now destruct b.
Qed.

(** The name shown for a plain file name is plain: there is no markup
    for the console to trip over. *)
Lemma table_name_plain f : Py.plain f = true -> Py.plain (table_name f) = true.
Proof.
  intros H. unfold table_name, Py.title, Py.replace.
  apply title_from_plain.
  apply replace_from_plain; [reflexivity|].
  apply replace_from_plain; [reflexivity|exact H].
Qed.

Lemma csv_files_plain : Forall (fun f => Py.plain f = true) CSV_FILES.
Proof. repeat constructor. Qed.

(** Property X11.  For profiles under plain file names (ASCII, no
    console markup, as the expected files are) the summary table is
    built exactly when every profile has at least one column; it then
    has one row per profile, in the order of the dictionary; the row
    shows the name made from the file name (suffix dropped, underscores
    as spaces, words capitalised), which is plain text again, and
    carries the row and column counts, the number of duplicates and the
    score of its profile. *)
Theorem summary_table_rows profiles :
  Forall (fun fp => Py.plain (fst fp) = true) profiles ->
  (Py.returns (print_profile_table profiles)
   <-> Forall (fun fp => columns_info (snd fp) <> []) profiles)
  /\ forall table, print_profile_table profiles = Py.Ok table ->
       Forall2 (fun fp r =>
                  row_table r = fst fp
                  /\ row_name r = table_name (fst fp)
                  /\ Py.plain (row_name r) = true
                  /\ row_rows r = rows (snd fp)
                  /\ row_columns r = columns (snd fp)
                  /\ row_duplicates r = total (duplicates (snd fp))
                  /\ row_score r = generate_quality_score (snd fp))
               profiles table.
Proof.
  intros Hp. destruct (print_profile_table_spec profiles) as [R T].
  split; [exact R|]. intros table H. specialize (T table H).
  clear R H. induction T as [|fp r ps rs (E1 & E2 & E3) _ IH]; [constructor|].
  inversion Hp as [|? ? Hf Hp']; subst.
  constructor; [|now apply IH].
  split; [exact E1|]. split; [exact E2|]. split; [|exact E3].
  rewrite E2. now apply table_name_plain.
Qed.

(** ** The report *)

Lemma column_line_zero p c :
  rows p = 0 -> column_line p c = Py.Raise Py.ZeroDivisionError.
Proof. intros E. unfold column_line, Py.int_truediv. rewrite E. reflexivity. Qed.

Lemma column_lines_returns p cs :
  rows p <> 0 -> Py.returns (column_lines p cs).
Proof.
  intros N. induction cs as [|c cs [ls IH]]; [now exists []|].
  cbn [column_lines]. unfold column_line, Py.int_truediv.
  apply Z.eqb_neq in N. rewrite N. cbn [Py.bind]. rewrite IH. cbn [Py.bind].
  eexists. reflexivity.
Qed.

Lemma report_section_returns_iff f p :
  Py.returns (report_section f p) <-> rows p <> 0 \/ columns_info p = [].
Proof.
  split.
  - intros [s H]. destruct (Z.eq_dec (rows p) 0) as [Z0|N]; [|now left].
    right. destruct (columns_info p) as [|c cs] eqn:E; [reflexivity|].
    assert (Nc : columns_info p <> []) by (rewrite E; discriminate).
    rewrite (report_section_zero_rows f p Z0 Nc) in H. discriminate.
  - intros [N|E]; unfold report_section.
    + destruct (column_lines_returns p (columns_info p) N) as [ls ->].
      cbn [Py.bind]. eexists. reflexivity.
    + rewrite E. cbn. eexists. reflexivity.
Qed.

Lemma report_section_fields f p s :
  report_section f p = Py.Ok s ->
  sec_file s = f /\ sec_score s = generate_quality_score p
  /\ sec_issues s = quality_issues p /\ sec_rows s = rows p.
Proof.
  unfold report_section. destruct (column_lines p (columns_info p)); cbn [Py.bind]; [|discriminate].
  intros H. injection H as <-. cbn. repeat split.
Qed.

Lemma report_sections_returns_iff profiles :
  Py.returns (report_sections profiles)
  <-> Forall (fun fp => rows (snd fp) <> 0 \/ columns_info (snd fp) = []) profiles.
Proof.
  induction profiles as [|[f p] rest IH]; cbn [report_sections].
  - split; [constructor|intros _; now exists []].
  - destruct (report_section f p) as [s|e] eqn:S; cbn [Py.bind].
    + assert (R : rows p <> 0 \/ columns_info p = [])
        by (apply (report_section_returns_iff f p); now exists s).
      destruct (report_sections rest) as [ss|e] eqn:T; cbn [Py.bind].
      * split; [|intros _; eexists; reflexivity].
        intros _. constructor; [exact R|]. apply IH. now exists ss.
      * split; [intros [x H]; discriminate|].
        intros H. inversion H as [|? ? _ H']; subst.
        apply IH in H' as [x H']. discriminate.
    + split; [intros [x H]; discriminate|].
      intros H. inversion H as [|? ? R _]; subst.
      apply (report_section_returns_iff f p) in R as [x R]. congruence.
Qed.

Lemma report_sections_raises profiles e :
  report_sections profiles = Py.Raise e -> e = Py.ZeroDivisionError.
Proof.
  induction profiles as [|[f p] rest IH]; cbn [report_sections]; [discriminate|].
  destruct (report_section f p) as [s|e'] eqn:S; cbn [Py.bind].
  - destruct (report_sections rest) as [ss|e'']; cbn [Py.bind]; [discriminate|].
    intros H. injection H as <-. now apply IH.
  - intros H. injection H as <-. now apply report_section_raises in S.
Qed.

Lemma report_sections_files profiles secs :
  report_sections profiles = Py.Ok secs ->
  Forall2 (fun fp s => sec_file s = fst fp
                       /\ sec_score s = generate_quality_score (snd fp)
                       /\ sec_issues s = quality_issues (snd fp)
                       /\ sec_rows s = rows (snd fp)) profiles secs.
Proof.
  revert secs. induction profiles as [|[f p] rest IH]; intros secs; cbn [report_sections].
  - intros H. injection H as <-. constructor.
  - destruct (report_section f p) as [s|e] eqn:S; cbn [Py.bind]; [|discriminate].
    destruct (report_sections rest) as [ss|e]; cbn [Py.bind]; [|discriminate].
    intros H. injection H as <-. constructor; [|now apply IH].
    apply (report_section_fields f p s S).
Qed.

Lemma average_score_returns_iff profiles :
  Py.returns (Py.truediv (Py.sum (map generate_quality_score (Py.values profiles)))
                         (Z.of_nat (length profiles)))
  <-> profiles <> [].
Proof.
  split.
  - intros [x H] ->. discriminate.
  - intros N. unfold Py.truediv, Py.int_truediv.
    destruct (Py.sum _); [|eexists; reflexivity].
    destruct (Z.eqb_spec (Z.of_nat (length profiles)) 0) as [E|_]; [|eexists; reflexivity].
    destruct profiles; [congruence|cbn in E; lia].
Qed.

Lemma average_score_raises profiles e :
  Py.truediv (Py.sum (map generate_quality_score (Py.values profiles)))
             (Z.of_nat (length profiles)) = Py.Raise e ->
  e = Py.ZeroDivisionError.
Proof.
  unfold Py.truediv, Py.int_truediv. destruct (Py.sum _); [|discriminate].
  destruct (_ =? 0); [|discriminate]. congruence.
Qed.

Lemma sorted_items_forall (P : string * Profile -> Prop) l :
  Forall P (sorted_items l) <-> Forall P l.
Proof.
  rewrite !Forall_forall. split; intros H x I; apply H; now apply in_sorted_items.
Qed.

Lemma generate_markdown_report_spec profiles :
  (Py.returns (generate_markdown_report profiles)
   <-> profiles <> []
       /\ Forall (fun fp => rows (snd fp) <> 0 \/ columns_info (snd fp) = []) profiles)
  /\ forall e, generate_markdown_report profiles = Py.Raise e -> e = Py.ZeroDivisionError.
Proof.
  unfold generate_markdown_report. split.
  - split.
    + intros [r H].
      destruct (Py.truediv _ _) as [avg|e] eqn:A; cbn [Py.bind] in H; [|discriminate].
      destruct (report_sections (sorted_items profiles)) as [secs|e] eqn:S;
        cbn [Py.bind] in H; [|discriminate].
      split.
      * apply average_score_returns_iff. now exists avg.
      * apply sorted_items_forall. apply report_sections_returns_iff. now exists secs.
    + intros [N F].
      apply average_score_returns_iff in N as [avg ->]. cbn [Py.bind].
      apply sorted_items_forall in F. apply report_sections_returns_iff in F as [secs ->].
      cbn [Py.bind]. eexists. reflexivity.
  - intros e H.
    destruct (Py.truediv _ _) as [avg|e'] eqn:A; cbn [Py.bind] in H.
    + destruct (report_sections (sorted_items profiles)) as [secs|e''] eqn:S;
        cbn [Py.bind] in H; [discriminate|].
      injection H as <-. now apply report_sections_raises in S.
    + injection H as <-. now apply average_score_raises in A.
Qed.


(** ** The order of the report *)

Lemma ascii_compare_lt a b :
  Ascii.compare a b = Lt <-> (N_of_ascii a < N_of_ascii b)%N.
Proof. unfold Ascii.compare. apply N.compare_lt_iff. Qed.

Lemma ascii_compare_eq a b : Ascii.compare a b = Eq <-> a = b.
Proof.
  split; [apply Ascii.compare_eq_iff|]. intros ->.
  unfold Ascii.compare. apply N.compare_refl.
Qed.

Lemma string_compare_refl s : String.compare s s = Eq.
Proof.
  induction s as [|c s IH]; cbn; [reflexivity|].
  rewrite (proj2 (ascii_compare_eq c c) eq_refl). exact IH.
Qed.

Lemma name_lt_trans a : forall b c, name_lt a b -> name_lt b c -> name_lt a c.
Proof.
  unfold name_lt. induction a as [|x a IH]; intros [|y b] [|z c]; cbn; try discriminate; auto.
  destruct (Ascii.compare x y) eqn:XY; try discriminate;
    destruct (Ascii.compare y z) eqn:YZ; try discriminate; intros H1 H2.
  - apply ascii_compare_eq in XY, YZ. subst.
    rewrite (proj2 (ascii_compare_eq z z) eq_refl). now apply (IH b c).
  - apply ascii_compare_eq in XY. subst. now rewrite YZ.
  - apply ascii_compare_eq in YZ. subst. now rewrite XY.
  - apply ascii_compare_lt in XY. apply ascii_compare_lt in YZ.
    assert (T : Ascii.compare x z = Lt)
      by (apply ascii_compare_lt; eapply N.lt_trans; eassumption).
    now rewrite T.
Qed.

Lemma name_le_cases a b : name_le a b <-> a = b \/ name_lt a b.
Proof.
  unfold name_le, name_lt. split.
  - intros H. destruct (String.compare a b) eqn:C; [left|now right|congruence].
    now apply String.compare_eq_iff.
  - intros [->|H]; [rewrite string_compare_refl; discriminate|rewrite H; discriminate].
Qed.

Lemma name_le_trans a b c : name_le a b -> name_le b c -> name_le a c.
Proof.
  rewrite !name_le_cases. intros [->|H1] [->|H2]; auto.
  right. now apply (name_lt_trans a b c).
Qed.

Lemma name_gt_le a b : String.compare a b = Gt -> name_le b a.
Proof.
  intros H. unfold name_le. rewrite String.compare_antisym, H. discriminate.
Qed.

Lemma insert_item_sorted x l :
  StronglySorted (fun a b => name_le (fst a) (fst b)) l ->
  StronglySorted (fun a b => name_le (fst a) (fst b)) (insert_item x l).
Proof.
  induction 1 as [|y l S IH F]; cbn [insert_item].
  - constructor; constructor.
  - destruct (String.compare (fst x) (fst y)) eqn:C.
    + constructor; [now constructor|].
      assert (L : name_le (fst x) (fst y)) by (unfold name_le; rewrite C; discriminate).
      constructor; [exact L|].
      eapply Forall_impl; [|exact F]. intros z Hz. now apply (name_le_trans _ (fst y)).
    + constructor; [now constructor|].
      assert (L : name_le (fst x) (fst y)) by (unfold name_le; rewrite C; discriminate).
      constructor; [exact L|].
      eapply Forall_impl; [|exact F]. intros z Hz. now apply (name_le_trans _ (fst y)).
    + constructor; [exact IH|].
      apply Forall_forall. intros z I. apply in_insert_item in I as [->|I].
      * now apply name_gt_le.
      * rewrite Forall_forall in F. now apply F.
Qed.

Lemma sorted_items_sorted l :
  StronglySorted (fun a b => name_le (fst a) (fst b)) (sorted_items l).
Proof.
  induction l as [|x l IH]; cbn; [constructor|]. now apply insert_item_sorted.
Qed.

Lemma insert_item_perm x l : Permutation (insert_item x l) (x :: l).
Proof.
  induction l as [|y l IH]; cbn [insert_item]; [reflexivity|].
  destruct (String.compare (fst x) (fst y)); try reflexivity.
  rewrite IH. apply perm_swap.
Qed.

Lemma sorted_items_perm l : Permutation (sorted_items l) l.
Proof.
  induction l as [|x l IH]; cbn; [reflexivity|].
  rewrite insert_item_perm. now constructor.
Qed.

Lemma sorted_names_strict (names : list string) :
  NoDup names -> StronglySorted name_le names -> StronglySorted name_lt names.
Proof.
  intros ND S. induction S as [|a l S IH F]; [constructor|].
  inversion ND as [|? ? Na ND']; subst. constructor; [now apply IH|].
  apply Forall_forall. intros b I. rewrite Forall_forall in F.
  destruct (proj1 (name_le_cases a b) (F b I)) as [->|L]; [contradiction|exact L].
Qed.

Lemma strongly_sorted_map {A B} (f : A -> B) (R : B -> B -> Prop) l :
  StronglySorted (fun a b => R (f a) (f b)) l -> StronglySorted R (map f l).
Proof.
  induction 1 as [|a l S IH F]; cbn; [constructor|]. constructor; [exact IH|].
  rewrite Forall_map. exact F.
Qed.

Lemma forall2_map_eq {A B C} (f : A -> C) (g : B -> C) l l' :
  Forall2 (fun a b => g b = f a) l l' -> map g l' = map f l.
Proof. induction 1; cbn; congruence. Qed.

Lemma forall2_in_r {A B} (R : A -> B -> Prop) l l' b :
  Forall2 R l l' -> In b l' -> exists a, In a l /\ R a b.
Proof.
  induction 1 as [|x y l l' Hxy F IH]; intros I; [destruct I|].
  destruct I as [->|I]; [exists x; split; [now left|exact Hxy]|].
  destruct (IH I) as (a & Ia & Ra). exists a. split; [now right|exact Ra].
Qed.

Lemma report_sections_spec profiles r :
  NoDup (Py.keys profiles) ->
  generate_markdown_report profiles = Py.Ok r ->
  StronglySorted name_lt (map sec_file (sections r))
  /\ Permutation (map sec_file (sections r)) (Py.keys profiles)
  /\ forall s, In s (sections r) ->
       exists p, In (sec_file s, p) profiles
                 /\ sec_score s = generate_quality_score p
                 /\ sec_issues s = quality_issues p.
Proof.
  intros ND H. unfold generate_markdown_report in H.
  destruct (Py.truediv _ _) as [avg|e]; cbn [Py.bind] in H; [|discriminate].
  destruct (report_sections (sorted_items profiles)) as [secs|e] eqn:S;
    cbn [Py.bind] in H; [|discriminate].
  injection H as <-. cbn [sections].
  pose proof (report_sections_files _ _ S) as F.
  assert (E : map sec_file secs = map fst (sorted_items profiles)).
  { apply forall2_map_eq. eapply Forall2_impl; [|exact F]. cbn. intros a b (H & _). exact H. }
  assert (P : Permutation (map fst (sorted_items profiles)) (Py.keys profiles))
    by (apply Permutation_map, sorted_items_perm).
  split; [|split].
  - rewrite E. apply sorted_names_strict.
    + eapply Permutation_NoDup; [symmetry; exact P|exact ND].
    + apply strongly_sorted_map, sorted_items_sorted.
  - now rewrite E.
  - intros s I. destruct (forall2_in_r _ _ _ _ F I) as ([f p] & J & Hf & Hs & Hi & _).
    cbn [fst snd] in *. exists p. rewrite Hf. split; [|auto].
    now apply (in_sorted_items (f, p) profiles).
Qed.

(** Property X13.  Whatever the order of the dictionary of profiles, the
    report has one section per profile and its sections come in strictly
    ascending order of file name; each section shows the score and the
    quality issues of the profile of its file. *)
Theorem report_sections_sorted profiles r :
  NoDup (Py.keys profiles) ->
  generate_markdown_report profiles = Py.Ok r ->
  StronglySorted name_lt (map sec_file (sections r))
  /\ Permutation (map sec_file (sections r)) (Py.keys profiles)
  /\ forall s, In s (sections r) ->
       exists p, In (sec_file s, p) profiles
                 /\ sec_score s = generate_quality_score p
                 /\ sec_issues s = quality_issues p.
Proof. apply report_sections_spec. Qed.

(** ** Non-null percentages of the report *)

(** Property X14.  For a frame with at least one row (and at most 2^53,
    where the division of two [int]s is the binary64 division of the
    converted operands) every column line of the report is produced and
    its non-null percentage lies between 0 and 100. *)
Theorem report_non_null_percentage df name p :
  Pd.well_formed df -> Pd.index_len df <> 0%nat ->
  Z.of_nat (Pd.index_len df) <= 2 ^ 53 ->
  analyze_dataframe df name = Py.Ok p ->
  forall c, In c (columns_info p) ->
    exists l,
      column_line p c = Py.Ok l
      /\ line_name l = fst c
      /\ (0 <=? line_non_null_pct l)%float = true
      /\ (line_non_null_pct l <=? 100)%float = true.
Proof.
  intros W Hn Hb H [col ci] I.
  destruct (analyze_dataframe_inv df name p W H) as (R & _ & _ & _ & Hc).
  destruct (Hc col ci I) as (s & Is & Hs).
  destruct (column_info_fields df s ci Hs) as (_ & Nn & _).
  assert (Rn : 1 <= rows p < 2 ^ 63).
  { rewrite R. unfold df_len. split; [lia|].
    eapply Z.le_lt_trans; [exact Hb|]. reflexivity. }
  assert (L : 0 <= non_null ci <= rows p).
  { rewrite Nn, R. unfold df_len.
    pose proof (sum_bool_length (Pd.notna s)) as L. unfold Pd.notna in L.
    rewrite length_map, isna_length in L.
    destruct W as [Wl _]. rewrite Forall_forall in Wl.
    specialize (Wl (col, s) Is). cbn in Wl. rewrite Wl in L. exact L. }
  unfold column_line, Py.int_truediv. cbn [fst snd].
  destruct (Z.eqb_spec (rows p) 0) as [E|_]; [lia|]. cbn [Py.bind].
  eexists. split; [reflexivity|]. cbn [line_name line_non_null_pct].
  split; [reflexivity|].
  destruct (truediv_unit (non_null ci) (rows p) L Rn) as [A B].
  destruct fin_100 as [F K].
  destruct (mul_pos_mono 100 _ 1 F K A B) as [A' B'].
  change (1 * 100)%float with 100%float in B'.
  split; [exact A'|exact B'].
Qed.

(** ** The JSON profile *)

Lemma save_profile_json_spec profiles :
  (profiles = [] -> save_profile_json profiles = Py.Raise Py.ZeroDivisionError)
  /\ (profiles <> [] ->
      exists output,
        save_profile_json profiles = Py.Ok output
        /\ json_profiles output = profiles
        /\ total_tables (json_summary output) = Z.of_nat (length profiles)).
Proof.
  split.
  - intros ->. reflexivity.
  - intros N. unfold save_profile_json.
    apply average_score_returns_iff in N as [avg ->]. cbn [Py.bind].
    eexists. split; [reflexivity|]. cbn. split; reflexivity.
Qed.

(** ** The command *)

Lemma csv_files_nodup : NoDup CSV_FILES.
Proof.
  unfold CSV_FILES.
  repeat (constructor; [cbn; intuition discriminate|]). constructor.
Qed.

Lemma load_profiles_step env filename rest profiles :
  load_profiles env (filename :: rest) profiles
  = match loaded env filename with
    | Some df =>
        profile <- analyze_dataframe df filename ;;
        load_profiles env rest (Py.setitem profiles filename profile)
    | None => load_profiles env rest profiles
    end.
Proof.
  cbn [load_profiles]. unfold loaded, load_csv.
  destruct (file_exists env filename); [|reflexivity].
  destruct (read_csv env filename); reflexivity.
Qed.

Lemma loads_loaded env f : loads env f = true <-> exists df, loaded env f = Some df.
Proof.
  unfold loads. destruct (loaded env f) as [df|]; split; try discriminate.
  - intros _. now exists df.
  - reflexivity.
  - intros [df H]. discriminate.
Qed.

(** The loop raises exactly when the frame of some file has an [object]
    column without entries. *)
Lemma load_profiles_raises env e files : forall profiles,
  load_profiles env files profiles = Py.Raise e
  <-> e = Py.ValueError
      /\ exists f df col, In f files /\ loaded env f = Some df
                          /\ In (col, Pd.Object []) (Pd.columns df).
Proof.
  induction files as [|f files IH]; intros profiles.
  - cbn. split; [discriminate|]. intros (_ & f & df & col & [] & _).
  - rewrite load_profiles_step. destruct (loaded env f) as [df|] eqn:L.
    + destruct (analyze_dataframe df f) as [p|e'] eqn:A; cbn [Py.bind].
      * rewrite IH. split.
        -- intros (-> & g & dg & col & I & Lg & C). split; [reflexivity|].
           exists g, dg, col. split; [now right|auto].
        -- intros (-> & g & dg & col & [<-|I] & Lg & C).
           ++ exfalso. rewrite L in Lg. injection Lg as <-.
              assert (R : analyze_dataframe df f = Py.Raise Py.ValueError)
                by (apply analyze_fold_raises; split; [reflexivity|now exists col]).
              congruence.
           ++ split; [reflexivity|]. now exists g, dg, col.
      * pose proof (proj1 (analyze_fold_raises df e' _ _) A) as (-> & col & C).
        split.
        -- intros H. injection H as <-. split; [reflexivity|].
           exists f, df, col. split; [now left|auto].
        -- intros [-> _]. reflexivity.
    + rewrite IH. split.
      * intros (-> & g & dg & col & I & Lg & C). split; [reflexivity|].
        exists g, dg, col. split; [now right|auto].
      * intros (-> & g & dg & col & [<-|I] & Lg & C); [congruence|].
        split; [reflexivity|]. now exists g, dg, col.
Qed.

(** The profiles the loop returns: one per file that exists and loads,
    under the file name and in the order of the list. *)
Lemma load_profiles_returns env files : forall profiles result,
  NoDup files -> (forall f, In f files -> ~ In f (Py.keys profiles)) ->
  load_profiles env files profiles = Py.Ok result ->
  exists ps,
    result = profiles ++ ps
    /\ Py.keys ps = filter (loads env) files
    /\ forall f p, In (f, p) ps ->
         exists df, loaded env f = Some df /\ analyze_dataframe df f = Py.Ok p.
Proof.
  induction files as [|f files IH]; intros profiles result ND Fr H.
  - cbn in H. injection H as <-. exists []. rewrite app_nil_r. repeat split. intros f p [].
  - inversion ND as [|? ? Nf ND']; subst.
    rewrite load_profiles_step in H. cbn [filter]. unfold loads at 1.
    destruct (loaded env f) as [df|] eqn:L.
    + destruct (analyze_dataframe df f) as [p|e] eqn:A; cbn [Py.bind] in H; [|discriminate].
      rewrite setitem_fresh in H by (apply Fr; now left).
      destruct (IH (profiles ++ [(f, p)]) result ND') as (ps & -> & K & P); [|exact H|].
      { intros g Ig. unfold Py.keys. rewrite map_app, in_app_iff. cbn.
        intros [J|[<-|[]]]; [|contradiction]. apply (Fr g); [now right|exact J]. }
      exists ((f, p) :: ps). rewrite <- app_assoc. split; [reflexivity|].
      split; [unfold Py.keys in *; cbn; now rewrite K|].
      intros g q [E|I]; [|now apply P]. injection E as <- <-. now exists df.
    + destruct (IH profiles result ND') as (ps & -> & K & P); [|exact H|].
      { intros g Ig. apply Fr. now right. }
      exists ps. repeat split; auto.
Qed.

Lemma main_profiles env :
  raw_dir_exists env = true ->
  forall profiles, load_profiles env CSV_FILES [] = Py.Ok profiles ->
    Py.keys profiles = filter (loads env) CSV_FILES
    /\ forall f p, In (f, p) profiles ->
         exists df, loaded env f = Some df /\ analyze_dataframe df f = Py.Ok p.
Proof.
  intros _ profiles H.
  destruct (load_profiles_returns env CSV_FILES [] profiles csv_files_nodup) as (ps & -> & K & P);
    [intros f _ []|exact H|].
  split; [exact K|exact P].
Qed.

Lemma filter_nil_iff {A} (f : A -> bool) l :
  filter f l = [] <-> forall x, In x l -> f x = false.
Proof.
  induction l as [|a l IH]; cbn; [split; [intros _ x []|reflexivity]|].
  destruct (f a) eqn:E; split.
  - discriminate.
  - intros H. specialize (H a (or_introl eq_refl)). congruence.
  - intros H x [<-|I]; [exact E|now apply IH].
  - intros H. apply IH. intros x I. apply H. now right.
Qed.

(** Property X16.  The command ends with exit status 1, having produced
    nothing, exactly when the raw data directory is missing or none of
    the expected files exists and loads. *)
Theorem main_exits_without_data env :
  main env = ([], Py.Ok (Exit 1))
  <-> raw_dir_exists env = false
      \/ forall f, In f CSV_FILES -> loads env f = false.
Proof.
  unfold main. destruct (raw_dir_exists env) eqn:R; cbn [negb].
  2: { split; [now left|reflexivity]. }
  destruct (load_profiles env CSV_FILES []) as [profiles|e] eqn:L.
  - destruct (main_profiles env R profiles L) as [K _].
    destruct profiles as [|fp profiles].
    + split; [|reflexivity]. intros _. right. apply filter_nil_iff. now rewrite <- K.
    + split.
      * destruct (print_profile_table _); [|discriminate].
        destruct (save_profile_json _); [|discriminate].
        destruct (generate_markdown_report _); discriminate.
      * intros [H|H]; [discriminate|].
        apply filter_nil_iff in H. rewrite <- K in H. discriminate.
  - split; [discriminate|]. intros [H|H]; [discriminate|].
    apply load_profiles_raises in L as (_ & f & df & _ & I & Lf & _).
    specialize (H f I). unfold loads in H. rewrite Lf in H. discriminate.
Qed.

(** Property X17.  When one of the expected files is a file with a
    header and no row (its frame has an [object] column without
    entries), the command is aborted by a [ValueError] before anything
    is produced; no other input makes it raise [ValueError]. *)
Theorem main_value_error env :
  snd (main env) = Py.Raise Py.ValueError
  <-> raw_dir_exists env = true
      /\ exists f df col, In f CSV_FILES /\ loaded env f = Some df
                          /\ In (col, Pd.Object []) (Pd.columns df).
Proof.
  unfold main. destruct (raw_dir_exists env) eqn:R; cbn [negb].
  2: { cbn. split; [discriminate|]. intros [H _]. discriminate. }
  destruct (load_profiles env CSV_FILES []) as [profiles|e] eqn:L.
  - assert (N : ~ exists f df col, In f CSV_FILES /\ loaded env f = Some df
                                   /\ In (col, Pd.Object []) (Pd.columns df)).
    { intros H.
      assert (X : load_profiles env CSV_FILES [] = Py.Raise Py.ValueError)
        by (apply load_profiles_raises; auto).
      congruence. }
    split; [|intros [_ H]; contradiction].
    destruct profiles as [|fp profiles]; [discriminate|].
    destruct (print_profile_table _) as [t|e] eqn:T.
    + destruct (save_profile_json _) as [o|e] eqn:S.
      * destruct (generate_markdown_report _) as [r|e] eqn:G; [discriminate|].
        apply generate_markdown_report_spec in G. subst e. discriminate.
      * cbn. unfold save_profile_json in S.
        destruct (Py.truediv _ _) as [a|e'] eqn:A; cbn [Py.bind] in S; [discriminate|].
        injection S as <-. apply average_score_raises in A. subst e'. discriminate.
    + cbn. apply print_profile_table_raises in T. subst e. discriminate.
  - cbn [snd]. pose proof (proj1 (load_profiles_raises env e CSV_FILES []) L) as (-> & H).
    split; [intros _; split; [reflexivity|exact H]|reflexivity].
Qed.

Lemma main_value_error_nothing env :
  snd (main env) = Py.Raise Py.ValueError -> fst (main env) = [].
Proof.
  unfold main. destruct (raw_dir_exists env); cbn [negb]; [|reflexivity].
  destruct (load_profiles env CSV_FILES []) as [profiles|e] eqn:L; [|reflexivity].
  destruct profiles as [|fp profiles]; [reflexivity|].
  destruct (print_profile_table _) as [t|e] eqn:T; [|reflexivity].
  destruct (save_profile_json _) as [o|e] eqn:S.
  - destruct (generate_markdown_report _) as [r|e] eqn:G; [discriminate|].
    apply generate_markdown_report_spec in G. subst e. discriminate.
  - cbn. unfold save_profile_json in S.
    destruct (Py.truediv _ _) as [a|e'] eqn:A; cbn [Py.bind] in S; [discriminate|].
    injection S as <-. apply average_score_raises in A. subst e'. discriminate.
Qed.

Lemma load_profiles_total env :
  (forall f df col, In f CSV_FILES -> loaded env f = Some df ->
                    ~ In (col, Pd.Object []) (Pd.columns df)) ->
  exists profiles, load_profiles env CSV_FILES [] = Py.Ok profiles.
Proof.
  intros H. destruct (load_profiles env CSV_FILES []) as [profiles|e] eqn:L; [now exists profiles|].
  apply load_profiles_raises in L as (_ & f & df & col & I & Lf & C).
  exfalso. exact (H f df col I Lf C).
Qed.

Lemma analysed_columns_info df name p :
  Pd.well_formed df -> analyze_dataframe df name = Py.Ok p ->
  Pd.columns df <> [] -> columns_info p <> [].
Proof.
  intros W H N E.
  destruct (analyze_dataframe_inv df name p W H) as (_ & _ & K & _).
  rewrite E in K. cbn in K. destruct (Pd.columns df); [congruence|discriminate].
Qed.

Lemma analysed_rows df name p :
  Pd.well_formed df -> analyze_dataframe df name = Py.Ok p ->
  rows p = Z.of_nat (Pd.index_len df).
Proof.
  intros W H. now destruct (analyze_dataframe_inv df name p W H) as (R & _).
Qed.

Lemma no_empty_object_column df :
  Pd.well_formed df -> Pd.index_len df <> 0%nat ->
  forall col, ~ In (col, Pd.Object []) (Pd.columns df).
Proof.
  intros [Wl _] N col I. rewrite Forall_forall in Wl.
  specialize (Wl _ I). cbn in Wl. congruence.
Qed.

(** Property X18.  When the raw data directory exists, at least one
    expected file exists and loads, and every frame loaded has at least
    one row and one column, the command runs to its end: it shows the
    table, saves the JSON profile and writes the report, each covering
    exactly the files that loaded (table and JSON in the order of the
    list of expected files). *)
Theorem main_completes env :
  raw_dir_exists env = true ->
  (exists f, In f CSV_FILES /\ loads env f = true) ->
  (forall f df, In f CSV_FILES -> loaded env f = Some df ->
     Pd.well_formed df /\ Pd.index_len df <> 0%nat /\ Pd.columns df <> []) ->
  exists table output report,
    main env = ([ConsoleTable table; JsonProfile output; MarkdownReport report],
                Py.Ok Completed)
    /\ map row_table table = filter (loads env) CSV_FILES
    /\ Py.keys (json_profiles output) = filter (loads env) CSV_FILES
    /\ Permutation (map sec_file (sections report)) (filter (loads env) CSV_FILES).
Proof.
  intros R (f0 & I0 & L0) H.
  destruct (load_profiles_total env) as [profiles L].
  { intros f df col I Lf. destruct (H f df I Lf) as (W & N & _).
    now apply no_empty_object_column. }
  destruct (main_profiles env R profiles L) as [K P].
  assert (ND : NoDup (Py.keys profiles)).
  { rewrite K. apply NoDup_filter, csv_files_nodup. }
  assert (In0 : In f0 (Py.keys profiles)) by (rewrite K; apply filter_In; auto).
  assert (Ne : profiles <> []) by (intros ->; destruct In0).
  assert (Inside : forall f p, In (f, p) profiles ->
                     columns_info p <> [] /\ rows p <> 0).
  { intros f p I. destruct (P f p I) as (df & Lf & A).
    assert (If : In f CSV_FILES).
    { assert (J : In f (Py.keys profiles)) by (apply (in_map fst _ _ I)).
      rewrite K in J. now apply filter_In in J as [J _]. }
    destruct (H f df If Lf) as (W & N & C). split.
    - now apply (analysed_columns_info df f p).
    - rewrite (analysed_rows df f p W A). lia. }
  destruct (print_profile_table_spec profiles) as [[_ Tr] Tf].
  destruct Tr as [table T].
  { apply Forall_forall. intros [f p] I. now apply (Inside f p). }
  destruct (save_profile_json_spec profiles) as [_ Sj].
  destruct (Sj Ne) as (output & S & Jp & _).
  destruct (generate_markdown_report_spec profiles) as [[_ Rr] _].
  destruct Rr as [report G].
  { split; [exact Ne|]. apply Forall_forall. intros [f p] I. left. now apply (Inside f p). }
  exists table, output, report. unfold main. rewrite R, L. cbn [negb].
  destruct profiles as [|fp profiles']; [congruence|].
  rewrite T, S, G. split; [reflexivity|].
  split; [|split].
  - rewrite <- K. apply (forall2_map_eq fst row_table).
    eapply Forall2_impl; [|apply (Tf table T)]. cbn. intros a b (E & _). exact E.
  - now rewrite Jp.
  - rewrite <- K. now apply (report_sections_spec _ report ND G).
Qed.

Lemma empty_object_column df :
  csv_frame df -> Pd.index_len df = 0%nat ->
  exists col, In (col, Pd.Object []) (Pd.columns df).
Proof.
  intros ([Wl _] & N & O) Z. specialize (O Z).
  destruct (Pd.columns df) as [|[col s] cs]; [congruence|].
  exists col. left. f_equal.
  inversion Wl as [|? ? L _]; subst. inversion O as [|? ? D _]; subst.
  cbn in L, D. rewrite Z in L.
  destruct s as [xs|xs|xs]; try discriminate.
  destruct xs; [reflexivity|discriminate].
Qed.

Lemma main_runs env profiles :
  raw_dir_exists env = true ->
  load_profiles env CSV_FILES [] = Py.Ok profiles ->
  profiles <> [] ->
  (forall f p, In (f, p) profiles -> columns_info p <> [] /\ rows p <> 0) ->
  exists table output report,
    main env = ([ConsoleTable table; JsonProfile output; MarkdownReport report],
                Py.Ok Completed)
    /\ print_profile_table profiles = Py.Ok table
    /\ save_profile_json profiles = Py.Ok output
    /\ generate_markdown_report profiles = Py.Ok report.
Proof.
  intros R L Ne Inside.
  destruct (print_profile_table_spec profiles) as [[_ Tr] _].
  destruct Tr as [table T].
  { apply Forall_forall. intros [f p] I. now apply (Inside f p). }
  destruct (save_profile_json_spec profiles) as [_ Sj].
  destruct (Sj Ne) as (output & S & _).
  destruct (generate_markdown_report_spec profiles) as [[_ Rr] _].
  destruct Rr as [report G].
  { split; [exact Ne|]. apply Forall_forall. intros [f p] I. left. now apply (Inside f p). }
  exists table, output, report. unfold main. rewrite R, L. cbn [negb].
  destruct profiles as [|fp profiles']; [congruence|].
  rewrite T, S, G. repeat split.
Qed.

(** Property X19.  On frames as [pd.read_csv] returns them (at least
    one column; all columns of dtype [object] when the file has a header
    and no row) a run of the command has three outcomes and no other:
    exit status 1 with nothing produced; a [ValueError] with nothing
    produced, which a file with a header and no row among the expected
    files causes; or the end of [main] with the table, the JSON profile
    and the report, every loaded file having a row.  The
    [ZeroDivisionError] of the report is out of reach of the command. *)
Theorem main_outcomes env :
  (forall f df, In f CSV_FILES -> loaded env f = Some df -> csv_frame df) ->
  main env = ([], Py.Ok (Exit 1))
  \/ (main env = ([], Py.Raise Py.ValueError)
      /\ exists f df, In f CSV_FILES /\ loaded env f = Some df
                      /\ Pd.index_len df = 0%nat)
  \/ ((forall f df, In f CSV_FILES -> loaded env f = Some df ->
         Pd.index_len df <> 0%nat)
      /\ exists table output report,
           main env = ([ConsoleTable table; JsonProfile output; MarkdownReport report],
                       Py.Ok Completed)).
Proof.
  intros H. destruct (raw_dir_exists env) eqn:R.
  2: { left. unfold main. now rewrite R. }
  destruct (load_profiles env CSV_FILES []) as [profiles|e] eqn:L.
  - destruct profiles as [|fp0 ps].
    { left. unfold main. now rewrite R, L. }
    right. right. set (profiles := fp0 :: ps) in *.
    assert (Ne : profiles <> []) by discriminate. clearbody profiles.
    assert (Rows : forall f df, In f CSV_FILES -> loaded env f = Some df ->
                     Pd.index_len df <> 0%nat).
    { intros f df I Lf Z.
      destruct (empty_object_column df (H f df I Lf) Z) as [col C].
      assert (X : load_profiles env CSV_FILES [] = Py.Raise Py.ValueError).
      { apply load_profiles_raises. split; [reflexivity|].
        exists f, df, col. split; [exact I|]. split; [exact Lf|exact C]. }
      congruence. }
    split; [exact Rows|].
    destruct (main_profiles env R profiles L) as [K P].
    destruct (main_runs env profiles R L) as (table & output & report & M & _).
    + exact Ne.
    + intros f p I. destruct (P f p I) as (df & Lf & A).
      assert (If : In f CSV_FILES).
      { assert (J : In f (Py.keys profiles)) by (apply (in_map fst _ _ I)).
        rewrite K in J. now apply filter_In in J as [J _]. }
      destruct (H f df If Lf) as (W & C & _). split.
      * now apply (analysed_columns_info df f p).
      * rewrite (analysed_rows df f p W A). specialize (Rows f df If Lf). lia.
    + now exists table, output, report.
  - right. left.
    pose proof (proj1 (load_profiles_raises env e CSV_FILES []) L)
      as (-> & f & df & col & I & Lf & C).
    split; [unfold main; now rewrite R, L|].
    exists f, df. split; [exact I|]. split; [exact Lf|].
    destruct (H f df I Lf) as ([Wl _] & _). rewrite Forall_forall in Wl.
    specialize (Wl _ C). cbn in Wl. congruence.
Qed.

(** ** Sums and quotients of binary64 values *)

Lemma key_unit_pos : 0 < key_unit.
Proof. reflexivity. Qed.

(** ** Addition rounds the exact sum *)

Lemma SFadd_key x y :
  valid_binary x = true -> valid_binary y = true ->
  is_fin x = true -> is_fin y = true ->
  SF64add x y <> S754_nan
  /\ key (SF64add x y) = round_skey 0 (key x + key y).
Proof.
  intros Vx Vy Fx Fy. unfold SF64add.
  destruct x as [sx|sx| |sx mx ex]; try discriminate;
    destruct y as [sy|sy| |sy my ey]; try discriminate; cbn [SFadd].
  - split; [destruct sx, sy; discriminate|].
    replace (key (S754_zero sx) + key (S754_zero sy)) with 0 by reflexivity.
    unfold round_skey. simpl (0 <? 0). rewrite round_key_0 by lia. destruct sx, sy; reflexivity.
  - split; [discriminate|].
    rewrite <- (round_skey_valid _ Vy eq_refl) at 1. f_equal.
  - split; [discriminate|].
    rewrite <- (round_skey_valid _ Vx eq_refl) at 1. f_equal. cbn [key]. lia.
  - pose proof (valid_finite _ _ _ Vx) as (Hex & _). pose proof (valid_finite _ _ _ Vy) as (Hey & _).
    set (ez := Z.min ex ey).
    destruct (binary_normalize_key
                (cond_Zopp sx (Zpos (fst (shl_align mx ex ez)))
                 + cond_Zopp sy (Zpos (fst (shl_align my ey ez)))) ez false 0 ltac:(lia) ltac:(unfold ez; lia))
      as [Hn Hk].
    split; [exact Hn|]. rewrite Hk. f_equal.
    pose proof (shl_align_spec mx ex ez) as [_ ->].
    pose proof (shl_align_spec my ey ez) as [_ ->].
    replace (Z.min ex ez) with ez by (unfold ez; lia).
    replace (Z.min ey ez) with ez by (unfold ez; lia).
    rewrite !cond_Zopp_sgn. cbn [key]. rewrite Z.add_0_r, Z.mul_add_distr_r.
    rewrite <- !Z.mul_assoc, <- !Z.pow_add_r by (unfold ez; lia).
    replace (ex - ez + (ez + 1074)) with (ex + 1074) by lia.
    replace (ey - ez + (ez + 1074)) with (ey + 1074) by lia. reflexivity.
Qed.

Lemma add_fin x y :
  fin x = true -> fin y = true ->
  not_nan (x + y) /\ fkey (x + y)%float = round_skey 0 (fkey x + fkey y).
Proof.
  intros Fx Fy. unfold not_nan, fkey. rewrite FloatAxioms.add_spec.
  apply SFadd_key; auto using Prim2SF_valid.
Qed.

(** ** Integers below 2^53 are floats *)

Lemma round_key_int m :
  0 <= m < 2 ^ 53 -> round_key 0 (m * key_unit) = m * key_unit.
Proof.
  intros Hm. destruct (Z.eq_dec m 0) as [->|Hz]; [now rewrite Z.mul_0_l, round_key_0|].
  unfold round_key, key_unit. cbv zeta.
  rewrite log2_mul_pow2 by lia.
  assert (L : Z.log2 m < 53) by (apply Z.log2_lt_pow2; lia).
  pose proof (Z.log2_nonneg m) as L0.
  set (k := Z.max (Z.log2 m + 1074 + 1 - 53) 0).
  assert (Hk : 0 <= k <= 1074) by (unfold k; lia).
  replace (m * 2 ^ 1074) with (m * 2 ^ (1074 - k) * 2 ^ k)
    by (rewrite <- Z.mul_assoc, <- Z.pow_add_r by lia; do 2 f_equal; lia).
  rewrite rne_shift_exact by lia. rewrite Z.sub_0_r.
  apply Z.min_l.
  rewrite <- Z.mul_assoc, <- Z.pow_add_r by lia.
  replace (1074 - k + k) with 1074 by lia.
  unfold key_inf. change (2 ^ 2098) with (2 ^ 1024 * 2 ^ 1074).
  apply Z.mul_le_mono_nonneg_r; [apply Z.pow_nonneg; lia|].
  apply Z.lt_le_incl. eapply Z.lt_le_trans; [apply Hm|]. apply Z.pow_le_mono_r; lia.
Qed.

Lemma float_of_small_int m :
  0 <= m < 2 ^ 53 ->
  fin (Np.float_of_int64 m) = true
  /\ fkey (Np.float_of_int64 m) = m * key_unit.
Proof.
  intros Hm.
  assert (R : 0 <= m < 2 ^ 63).
  { split; [lia|]. eapply Z.lt_trans; [apply Hm|]. reflexivity. }
  destruct (float_of_int64_key m R) as [N K].
  change (2 ^ 1074) with key_unit in K. rewrite round_key_int in K by exact Hm.
  split; [|exact K].
  destruct (fin (Np.float_of_int64 m)) eqn:F; [reflexivity|exfalso].
  destruct (fkey_not_fin _ N F) as [E|E]; rewrite E in K.
  - assert (m * key_unit < key_inf); [|lia].
    unfold key_inf, key_unit. change (2 ^ 2098) with (2 ^ 1024 * 2 ^ 1074).
    apply Z.mul_lt_mono_pos_r; [reflexivity|].
    eapply Z.lt_trans; [apply Hm|]. reflexivity.
  - pose proof key_inf_pos. pose proof key_unit_pos. nia.
Qed.

(** ** Quotients below an integer bound *)

(** A quotient with no integer part, at the bottom of the range, rounds
    to zero or to the least positive float. *)
Lemma round_aux_zero s e l :
  e <= -1074 ->
  binary_round_aux prec emax s 0 e l <> S754_nan
  /\ 0 <= sgn s * key (binary_round_aux prec emax s 0 e l) <= 1.
Proof.
  intros He. unfold binary_round_aux, shr_fexp.
  change (Zdigits2 0) with 0. rewrite fexp_eq.
  replace (Z.max (0 + e - 53) (-1074) - e) with (- 1074 - e) by lia.
  pose proof (shr_rep (loc_code l) 0 e l (- 1074 - e) ltac:(lia) ltac:(lia) ltac:(lia)) as R.
  destruct (shr (shr_record_of_loc 0 l) e (- 1074 - e)) as [mrs e'].
  destruct R as [R ->].
  pose proof (loc_code_range l) as Hl.
  rewrite (rne_of_rep (loc_code l) (2 + (- 1074 - e)) mrs) by (lia || exact R).
  replace (e + (- 1074 - e)) with (- 1074) by lia.
  pose proof (rne_shift_bounds (loc_code l) (2 + (- 1074 - e)) ltac:(lia)) as B.
  assert (Q : loc_code l / 2 ^ (2 + (- 1074 - e)) = 0).
  { apply Z.div_small. split; [lia|].
    assert (2 ^ 2 <= 2 ^ (2 + (- 1074 - e))) by (apply Z.pow_le_mono_r; lia).
    change (2 ^ 2) with 4 in H. lia. }
  rewrite Q in B.
  assert (C : Np.rne_shift (loc_code l) (2 + (- 1074 - e)) = 0
              \/ Np.rne_shift (loc_code l) (2 + (- 1074 - e)) = 1) by lia.
  destruct C as [-> | ->].
  - cbn. split; [discriminate|]. destruct s; cbn; lia.
  - cbn. split; [discriminate|]. destruct s; cbn; lia.
Qed.

Lemma shifted_mantissa m s :
  0 <= s ->
  match s with
  | 0 => m
  | Zpos _ => Z.shiftl m s
  | Zneg _ => 0
  end = m * 2 ^ s.
Proof.
  intros Hs. destruct s as [|p|p]; [cbn; lia| |lia].
  now rewrite Z.shiftl_mul_pow2.
Qed.

Lemma SFdiv_bound mx ex my ey b :
  valid_binary (S754_finite false mx ex) = true ->
  valid_binary (S754_finite false my ey) = true ->
  1 <= b < 2 ^ 53 ->
  Zpos mx * 2 ^ (ex + 1074) <= b * (Zpos my * 2 ^ (ey + 1074)) ->
  SF64div (S754_finite false mx ex) (S754_finite false my ey) <> S754_nan
  /\ 0 <= key (SF64div (S754_finite false mx ex) (S754_finite false my ey))
       <= b * key_unit.
Proof.
  intros Vx Vy Hb Hle.
  pose proof (valid_finite _ _ _ Vx) as (Hex & Hmx & _ & _).
  pose proof (valid_finite _ _ _ Vy) as (Hey & Hmy & _ & _).
  pose proof key_unit_pos as Pu. clear Vx Vy.
  unfold SF64div. cbn [SFdiv xorb]. unfold SFdiv_core_binary.
  rewrite !Zdigits2_log2 by lia. rewrite fexp_eq.
  pose proof (log2_digits_bounds (Zpos mx) ltac:(lia)) as [Lx Ux].
  pose proof (log2_digits_bounds (Zpos my) ltac:(lia)) as [Ly Uy].
  pose proof (Z.log2_nonneg (Zpos mx)) as Nx. pose proof (Z.log2_nonneg (Zpos my)) as Ny.
  set (d1 := Z.log2 (Zpos mx) + 1) in *. set (d2 := Z.log2 (Zpos my) + 1) in *.
  replace (Z.log2 (Zpos mx)) with (d1 - 1) in Lx by (unfold d1; lia).
  replace (Z.log2 (Zpos my)) with (d2 - 1) in Ly by (unfold d2; lia).
  set (e' := Z.min (Z.max (d1 + ex - (d2 + ey) - 53) (-1074)) (ex - ey)).
  set (s := ex - ey - e').
  assert (Hs : 0 <= s) by (unfold s, e'; lia).
  rewrite (shifted_mantissa (Zpos mx) s Hs).
  set (m' := Zpos mx * 2 ^ s).
  pose proof (pow2_pos s Hs) as Ps.
  pose proof (pow2_pos (ex + 1074) ltac:(lia)) as Pex.
  pose proof (pow2_pos (ey + 1074) ltac:(lia)) as Pey.
  (* the exponent of the quotient is not positive *)
  assert (HD : d1 + ex - (d2 + ey) < 54).
  { assert (A : 2 ^ (d1 - 1) * 2 ^ (ex + 1074) <= Zpos mx * 2 ^ (ex + 1074))
      by (apply Z.mul_le_mono_nonneg_r; lia).
    assert (B : b * (Zpos my * 2 ^ (ey + 1074)) < 2 ^ 53 * (2 ^ d2 * 2 ^ (ey + 1074))).
    { apply Z.mul_lt_mono_nonneg; try lia.
      apply Z.mul_lt_mono_pos_r; lia. }
    rewrite <- !Z.pow_add_r in A, B by (unfold d1, d2; lia).
    rewrite <- (Z.pow_add_r 2 53 (d2 + (ey + 1074))) in B by (unfold d2; lia).
    assert (C : 2 ^ (d1 - 1 + (ex + 1074)) < 2 ^ (53 + (d2 + (ey + 1074)))) by lia.
    apply Z.pow_lt_mono_r_iff in C; unfold d1, d2 in *; lia. }
  assert (He0 : e' <= 0) by (unfold e'; lia).
  pose proof (Z.div_mod m' (Zpos my) ltac:(lia)) as Hdm.
  pose proof (Z.mod_pos_bound m' (Zpos my) ltac:(lia)) as Hr.
  unfold Z.div, Z.modulo in Hdm, Hr.
  destruct (Z.div_eucl m' (Zpos my)) as [q r].
  assert (Hm' : 0 < m') by (unfold m'; lia).
  assert (Hq0 : 0 <= q) by nia.
  (* the quotient is at most b * 2^(-e') *)
  set (P := b * 2 ^ (- e')).
  pose proof (pow2_pos (- e') ltac:(lia)) as Pe.
  assert (HmP : m' <= P * Zpos my).
  { assert (A : m' * 2 ^ (ey + 1074) <= P * Zpos my * 2 ^ (ey + 1074)).
    { unfold m', P.
      replace (Zpos mx * 2 ^ s * 2 ^ (ey + 1074)) with (Zpos mx * 2 ^ (ex + 1074) * 2 ^ (- e')).
      - replace (b * 2 ^ (- e') * Zpos my * 2 ^ (ey + 1074))
          with (b * (Zpos my * 2 ^ (ey + 1074)) * 2 ^ (- e')) by ring.
        apply Z.mul_le_mono_nonneg_r; lia.
      - rewrite <- !Z.mul_assoc, <- !Z.pow_add_r by lia. do 2 f_equal. unfold s. lia. }
    apply Z.mul_le_mono_pos_r in A; lia. }
  assert (HqP : q <= P) by nia.
  pose proof (loc_code_range (new_location (Zpos my) r)) as Hc.
  assert (Hcode : 4 * q + loc_code (new_location (Zpos my) r) <= 4 * P).
  { destruct (Z.eq_dec q P) as [E|N]; [|lia].
    assert (Hr0 : r = 0) by nia. subst r. rewrite new_location_0. cbn [loc_code]. lia. }
  destruct (Z.eq_dec q 0) as [Hz|Hnz].
  - (* no integer part *)
    subst q.
    assert (Hlow : e' <= -1074).
    { assert (A : 2 ^ (d1 - 1) * 2 ^ s <= m') by (unfold m'; apply Z.mul_le_mono_nonneg_r; lia).
      rewrite <- Z.pow_add_r in A by (unfold d1; lia).
      assert (C : 2 ^ (d1 - 1 + s) < 2 ^ d2) by lia.
      apply Z.pow_lt_mono_r_iff in C; unfold d2, s, e' in *; lia. }
    destruct (round_aux_zero false e' (new_location (Zpos my) r) Hlow) as [Hn Hk].
    split; [exact Hn|]. unfold sgn in Hk. nia.
  - assert (Hq : 0 < q) by lia.
    assert (Hal : e' <= fexp prec emax (Zdigits2 q + e')).
    { rewrite Zdigits2_log2, fexp_eq by lia.
      destruct (Z.le_gt_cases e' (-1074)) as [L|G]; [lia|].
      assert (S53 : d2 - d1 + 53 <= s) by (unfold s, e' in *; lia).
      assert (A : 2 ^ (d1 - 1) * 2 ^ s <= m') by (unfold m'; apply Z.mul_le_mono_nonneg_r; lia).
      rewrite <- Z.pow_add_r in A by (unfold d1; lia).
      assert (B : 2 ^ (d2 + 52) <= 2 ^ (d1 - 1 + s)) by (apply Z.pow_le_mono_r; unfold d2; lia).
      assert (C : 2 ^ 52 <= q).
      { rewrite Z.pow_add_r in B by (unfold d2; lia).
        assert (Zpos my * 2 ^ 52 <= m') by nia. nia. }
      assert (52 <= Z.log2 q) by (apply Z.log2_le_pow2; lia). lia. }
    destruct (round_aux_key false q e' (new_location (Zpos my) r) 1000 Hq ltac:(lia)
                ltac:(unfold e'; lia) Hal) as [Hn Hk].
    split; [exact Hn|]. rewrite Hk. unfold sgn. rewrite Z.mul_1_l.
    set (t := e' - 2 + 1074 + 1000).
    assert (Ht : 0 <= t) by (unfold t, e'; lia).
    pose proof (pow2_pos t Ht) as Pt.
    split.
    { apply round_key_nonneg; [lia|]. apply Z.mul_nonneg_nonneg; lia. }
    rewrite <- (round_key_int b) by lia.
    rewrite <- (round_key_scale 0 1000 (b * key_unit)) by lia.
    apply round_key_mono; [lia|]. split; [apply Z.mul_nonneg_nonneg; lia|].
    unfold key_unit.
    replace (b * 2 ^ 1074 * 2 ^ 1000) with (4 * P * 2 ^ t).
    + apply Z.mul_le_mono_nonneg_r; lia.
    + unfold P. change 4 with (2 ^ 2).
      rewrite <- !Z.mul_assoc. rewrite <- !Z.pow_add_r by lia.
      rewrite (Z.mul_comm (2 ^ 2)), <- Z.mul_assoc, <- Z.pow_add_r by lia.
      do 2 f_equal. unfold t. lia.
Qed.

(** ** Averages of percentages *)

Lemma fkey_100 : fkey 100 = 100 * key_unit.
Proof. reflexivity. Qed.

Lemma small_key_fin x b :
  not_nan x -> 0 <= b < 2 ^ 53 -> 0 <= fkey x <= b * key_unit -> fin x = true.
Proof.
  intros N Hb K. destruct (fin x) eqn:F; [reflexivity|exfalso].
  assert (L : b * key_unit < key_inf).
  { unfold key_inf, key_unit. change (2 ^ 2098) with (2 ^ 1024 * 2 ^ 1074).
    apply Z.mul_lt_mono_pos_r; [reflexivity|].
    eapply Z.lt_trans; [apply Hb|]. reflexivity. }
  pose proof key_inf_pos.
  destruct (fkey_not_fin _ N F) as [E|E]; rewrite E in K; lia.
Qed.

Lemma percent_key a :
  percent a -> fin a = true /\ 0 <= fkey a <= 100 * key_unit.
Proof.
  intros [H0 H1]. apply leb_iff in H0 as (_ & N & K0). apply leb_iff in H1 as (_ & _ & K1).
  rewrite fkey_zero in K0. rewrite fkey_100 in K1.
  split; [|lia]. apply (small_key_fin a 100 N); [|lia]. split; [lia|reflexivity].
Qed.

Lemma round_skey_int m :
  0 <= m < 2 ^ 53 -> round_skey 0 (m * key_unit) = m * key_unit.
Proof.
  intros Hm. unfold round_skey. pose proof key_unit_pos.
  destruct (Z.ltb_spec (m * key_unit) 0) as [L|_]; [nia|]. now apply round_key_int.
Qed.

(** One more term of a sum of percentages. *)
Lemma add_percent s a k :
  0 <= k -> (k + 1) * 100 < 2 ^ 53 ->
  fin s = true -> 0 <= fkey s <= k * 100 * key_unit ->
  fin a = true -> 0 <= fkey a <= 100 * key_unit ->
  fin (s + a) = true /\ 0 <= fkey (s + a)%float <= (k + 1) * 100 * key_unit.
Proof.
  intros Hk Hb Fs Ks Fa Ka.
  destruct (add_fin s a Fs Fa) as [N E].
  pose proof (round_skey_mono 0 0 (fkey s + fkey a) ltac:(lia) ltac:(lia)) as M0.
  pose proof (round_skey_mono 0 (fkey s + fkey a) ((k + 1) * 100 * key_unit)
                ltac:(lia) ltac:(lia)) as M1.
  rewrite round_skey_int in M1 by lia.
  change 0 with (0 * key_unit) in M0 at 2. rewrite round_skey_int in M0 by (split; [lia|reflexivity]).
  rewrite <- E in M0, M1.
  assert (K : 0 <= fkey (s + a)%float <= (k + 1) * 100 * key_unit) by lia.
  split; [|exact K].
  apply (small_key_fin _ ((k + 1) * 100) N); lia.
Qed.

Lemma fsum_percent l : forall s k,
  0 <= k -> (k + Z.of_nat (length l)) * 100 < 2 ^ 53 ->
  fin s = true -> 0 <= fkey s <= k * 100 * key_unit ->
  Forall percent l ->
  fin (fold_left PrimFloat.add l s) = true
  /\ 0 <= fkey (fold_left PrimFloat.add l s)
       <= (k + Z.of_nat (length l)) * 100 * key_unit.
Proof.
  induction l as [|a l IH]; intros s k Hk Hb Fs Ks P; cbn [fold_left length].
  - rewrite Z.add_0_r. auto.
  - inversion P as [|? ? Pa P']; subst. destruct (percent_key a Pa) as [Fa Ka].
    cbn [length] in Hb. rewrite Nat2Z.inj_succ in *.
    destruct (add_percent s a k Hk ltac:(lia) Fs Ks Fa Ka) as [F' K'].
    destruct (IH (s + a)%float (k + 1) ltac:(lia) ltac:(lia) F' K' P') as [F'' K''].
    split; [exact F''|]. replace (k + Z.succ (Z.of_nat (length l)))
      with (k + 1 + Z.of_nat (length l)) by lia. exact K''.
Qed.

(** The quotient of a sum of at most [n] percentages by [n]. *)
Lemma div_percent s n :
  1 <= n -> n * 100 < 2 ^ 53 ->
  fin s = true -> 0 <= fkey s <= n * 100 * key_unit ->
  percent (s / Np.float_of_int64 n).
Proof.
  intros Hn Hb Fs Ks. pose proof key_unit_pos as Pu.
  destruct (float_of_small_int n ltac:(lia)) as [Fn Kn].
  assert (Q : not_nan (s / Np.float_of_int64 n)
              /\ 0 <= fkey (s / Np.float_of_int64 n)%float <= 100 * key_unit).
  { unfold not_nan, fkey, fin in *. rewrite FloatAxioms.div_spec.
    pose proof (Prim2SF_valid s) as Vs.
    pose proof (Prim2SF_valid (Np.float_of_int64 n)) as Vn.
    destruct (Prim2SF (Np.float_of_int64 n)) as [sn|sn| |sn mn en]; try discriminate.
    { cbn [key] in Kn. nia. }
    destruct sn.
    { exfalso. cbn [key] in Kn. unfold sgn in Kn.
      pose proof (key_finite_bounds _ _ _ Vn). nia. }
    destruct (Prim2SF s) as [ss|ss| |ss ms es]; try discriminate.
    - unfold SF64div. cbn [SFdiv xorb key]. split; [discriminate|]. clear - Pu. lia.
    - destruct ss.
      { exfalso. cbn [key] in Ks. unfold sgn in Ks.
        pose proof (key_finite_bounds _ _ _ Vs). nia. }
      cbn [key] in Ks, Kn. unfold sgn in Ks, Kn. rewrite Z.mul_1_l in Ks, Kn.
      apply (SFdiv_bound ms es mn en 100 Vs Vn); [split; [lia|reflexivity]|].
      rewrite Kn. lia. }
  destruct Q as [N K]. split; apply leb_iff.
  - rewrite fkey_zero. repeat split; [discriminate|exact N|lia].
  - rewrite fkey_100. repeat split; [exact N|discriminate|lia].
Qed.

Lemma mean_percent l :
  l <> [] -> Z.of_nat (length l) * 100 < 2 ^ 53 ->
  Forall percent l -> percent (Pd.mean_of l).
Proof.
  intros N Hb P. unfold Pd.mean_of, Pd.count, Pd.fsum.
  destruct l as [|a l']; [congruence|]. set (l := a :: l') in *.
  assert (Hn : 1 <= Z.of_nat (length l)) by (unfold l; cbn [length]; lia).
  destruct (fsum_percent l 0%float 0 ltac:(lia) ltac:(lia) eq_refl) as [F K];
    [rewrite fkey_zero; lia|exact P|].
  apply div_percent; auto.
Qed.

(** ** The average null percentage of the table *)

(** Property X20.  For a frame with at least one row and one column the
    average null percentage of the summary table is computed and lies
    between 0 and 100 (for fewer than 2^53 / 100 columns, where the sum
    of the percentages cannot leave the integers of binary64). *)
Theorem average_null_percentage_range df name p :
  Pd.well_formed df -> Pd.index_len df <> 0%nat ->
  Z.of_nat (Pd.index_len df) < 2 ^ 63 ->
  Pd.columns df <> [] -> Z.of_nat (length (Pd.columns df)) * 100 < 2 ^ 53 ->
  analyze_dataframe df name = Py.Ok p ->
  exists avg,
    avg_null p = Py.Ok avg
    /\ (0 <=? avg)%float = true /\ (avg <=? 100)%float = true.
Proof.
  intros W Hn Hb Hc Hl H.
  destruct (analyze_dataframe_inv df name p W H) as (_ & _ & K & _).
  assert (Len : length (columns_info p) = length (Pd.columns df)).
  { rewrite <- (length_map fst (Pd.columns df)), <- K. unfold Py.keys. now rewrite length_map. }
  assert (Nc : columns_info p <> []).
  { intros E. rewrite E in Len. destruct (Pd.columns df); [congruence|discriminate]. }
  rewrite (avg_null_value p Nc). eexists. split; [reflexivity|].
  apply mean_percent.
  - unfold Py.values. destruct (columns_info p); [congruence|discriminate].
  - unfold Py.values. rewrite !length_map, Len. exact Hl.
  - rewrite Forall_map. unfold Py.values. rewrite Forall_map.
    apply Forall_forall. intros [col ci] I.
    apply (analysed_null_percentage df name p col ci W Hn Hb H I).
Qed.

(** ** The average score *)

Lemma percent_zero : percent 0.
Proof. split; reflexivity. Qed.

Lemma score_value_of p :
  (Py.to_float (generate_quality_score p) <=? 100)%float = true ->
  score_value (generate_quality_score p).
Proof.
  unfold generate_quality_score. cbv zeta.
  set (x := (_ - _)%float). unfold Py.max0.
  destruct (0 <? x)%float eqn:A; cbn [Py.to_float]; intros H; [right|now left].
  exists x. split; [reflexivity|]. split; [|exact H].
  apply ltb_iff in A as (N0 & Nx & K). apply leb_iff. repeat split; auto. lia.
Qed.

Lemma score_sum_add k acc v :
  0 <= k -> (k + 1) * 100 < 2 ^ 53 ->
  score_sum k acc -> score_value v -> score_sum (k + 1) (Py.add acc v).
Proof.
  intros Hk Hb A V. pose proof key_unit_pos as Pu.
  destruct (percent_key 0 percent_zero) as [F0 K0].
  destruct A as [->|(s & -> & Fs & Ks)]; destruct V as [->|(f & -> & Pf)].
  - now left.
  - right. destruct (percent_key f Pf) as [Ff Kf]. cbn [Py.add Py.to_float].
    change (Py.float_of_int 0) with 0%float.
    destruct (add_percent 0 f k Hk Hb F0 ltac:(rewrite fkey_zero; nia) Ff Kf) as [F K].
    eexists. split; [reflexivity|]. auto.
  - right. cbn [Py.add Py.to_float]. change (Py.float_of_int 0) with 0%float.
    destruct (add_percent s 0 k Hk Hb Fs Ks F0 K0) as [F K].
    eexists. split; [reflexivity|]. auto.
  - right. destruct (percent_key f Pf) as [Ff Kf]. cbn [Py.add Py.to_float].
    destruct (add_percent s f k Hk Hb Fs Ks Ff Kf) as [F K].
    eexists. split; [reflexivity|]. auto.
Qed.

Lemma score_sum_fold l : forall acc k,
  0 <= k -> (k + Z.of_nat (length l)) * 100 < 2 ^ 53 ->
  score_sum k acc -> Forall score_value l ->
  score_sum (k + Z.of_nat (length l)) (fold_left Py.add l acc).
Proof.
  induction l as [|v l IH]; intros acc k Hk Hb A V; cbn [fold_left length].
  - now rewrite Z.add_0_r.
  - inversion V as [|? ? Hv V']; subst. cbn [length] in Hb. rewrite Nat2Z.inj_succ in *.
    replace (k + Z.succ (Z.of_nat (length l))) with (k + 1 + Z.of_nat (length l)) by lia.
    apply IH; try lia; [|exact V'].
    apply score_sum_add; auto; lia.
Qed.

Lemma average_of_scores l :
  l <> [] -> Z.of_nat (length l) * 100 < 2 ^ 53 -> Forall score_value l ->
  exists avg,
    Py.truediv (Py.sum l) (Z.of_nat (length l)) = Py.Ok avg /\ percent avg.
Proof.
  intros N Hb V.
  assert (Hn : 1 <= Z.of_nat (length l)) by (destruct l; [congruence|cbn [length]; lia]).
  pose proof (score_sum_fold l (Py.Int 0) 0 ltac:(lia) ltac:(lia) (or_introl eq_refl) V) as S.
  rewrite Z.add_0_l in S. fold (Py.sum l) in S.
  destruct S as [->|(s & -> & Fs & Ks)]; cbn [Py.truediv].
  - unfold Py.int_truediv. destruct (Z.eqb_spec (Z.of_nat (length l)) 0) as [E|_]; [lia|].
    eexists. split; [reflexivity|].
    change (Py.float_of_int 0) with 0%float.
    apply (div_percent 0 _ Hn Hb eq_refl). rewrite fkey_zero. pose proof key_unit_pos. nia.
  - eexists. split; [reflexivity|]. now apply (div_percent s _ Hn Hb Fs Ks).
Qed.

(** Property X21.  For a non-empty dictionary of profiles whose scores
    are at most 100 (fewer than 2^53 / 100 profiles), the average score
    saved in the JSON profile lies between 0 and 100, and the average of
    the report, whenever the report is produced, is the same number. *)
Theorem average_quality_score_range profiles :
  profiles <> [] -> Z.of_nat (length profiles) * 100 < 2 ^ 53 ->
  Forall (fun fp => (Py.to_float (generate_quality_score (snd fp)) <=? 100)%float = true)
         profiles ->
  exists output,
    save_profile_json profiles = Py.Ok output
    /\ (0 <=? avg_quality_score (json_summary output))%float = true
    /\ (avg_quality_score (json_summary output) <=? 100)%float = true
    /\ forall r, generate_markdown_report profiles = Py.Ok r ->
         avg_score r = avg_quality_score (json_summary output).
Proof.
  intros N Hb V.
  destruct (average_of_scores (map generate_quality_score (Py.values profiles))) as (avg & A & P0 & P1).
  - unfold Py.values. destruct profiles; [congruence|discriminate].
  - unfold Py.values. now rewrite !length_map.
  - rewrite Forall_map. unfold Py.values. rewrite Forall_map.
    eapply Forall_impl; [|exact V]. intros fp H. now apply score_value_of.
  - unfold Py.values in A. rewrite !length_map in A.
    unfold save_profile_json, generate_markdown_report, Py.values. rewrite A. cbn [Py.bind].
    eexists. split; [reflexivity|]. cbn [json_summary avg_quality_score].
    split; [exact P0|]. split; [exact P1|].
    intros r H. destruct (report_sections _); cbn [Py.bind] in H; [|discriminate].
    injection H as <-. reflexivity.
Qed.

(** ** The average score of the JSON profile *)

Lemma SFdiv_nonneg mx ex my ey :
  valid_binary (S754_finite false mx ex) = true ->
  valid_binary (S754_finite false my ey) = true ->
  SF64div (S754_finite false mx ex) (S754_finite false my ey) <> S754_nan
  /\ 0 <= key (SF64div (S754_finite false mx ex) (S754_finite false my ey)).
Proof.
  intros Vx Vy.
  pose proof (valid_finite _ _ _ Vx) as (Hex & Hmx & _ & _).
  pose proof (valid_finite _ _ _ Vy) as (Hey & Hmy & _ & _).
  clear Vx Vy.
  unfold SF64div. cbn [SFdiv xorb]. unfold SFdiv_core_binary.
  rewrite !Zdigits2_log2 by lia. rewrite fexp_eq.
  pose proof (log2_digits_bounds (Zpos mx) ltac:(lia)) as [Lx Ux].
  pose proof (log2_digits_bounds (Zpos my) ltac:(lia)) as [Ly Uy].
  pose proof (Z.log2_nonneg (Zpos mx)) as Nx. pose proof (Z.log2_nonneg (Zpos my)) as Ny.
  set (d1 := Z.log2 (Zpos mx) + 1) in *. set (d2 := Z.log2 (Zpos my) + 1) in *.
  replace (Z.log2 (Zpos mx)) with (d1 - 1) in Lx by (unfold d1; lia).
  replace (Z.log2 (Zpos my)) with (d2 - 1) in Ly by (unfold d2; lia).
  set (e' := Z.min (Z.max (d1 + ex - (d2 + ey) - 53) (-1074)) (ex - ey)).
  set (s := ex - ey - e').
  assert (Hs : 0 <= s) by (unfold s, e'; lia).
  rewrite (shifted_mantissa (Zpos mx) s Hs).
  set (m' := Zpos mx * 2 ^ s).
  pose proof (pow2_pos s Hs) as Ps.
  pose proof (Z.div_mod m' (Zpos my) ltac:(lia)) as Hdm.
  pose proof (Z.mod_pos_bound m' (Zpos my) ltac:(lia)) as Hr.
  unfold Z.div, Z.modulo in Hdm, Hr.
  destruct (Z.div_eucl m' (Zpos my)) as [q r].
  assert (Hm' : 0 < m') by (unfold m'; lia).
  assert (Hq0 : 0 <= q) by nia.
  assert (A : 2 ^ (d1 - 1) * 2 ^ s <= m') by (unfold m'; apply Z.mul_le_mono_nonneg_r; lia).
  rewrite <- Z.pow_add_r in A by (unfold d1; lia).
  destruct (Z.eq_dec q 0) as [Hz|Hnz].
  - subst q.
    assert (Hlow : e' <= -1074).
    { assert (C : 2 ^ (d1 - 1 + s) < 2 ^ d2) by lia.
      apply Z.pow_lt_mono_r_iff in C; unfold d2, s, e' in *; lia. }
    destruct (round_aux_zero false e' (new_location (Zpos my) r) Hlow) as [Hn Hk].
    split; [exact Hn|]. unfold sgn in Hk. lia.
  - assert (Hq : 0 < q) by lia.
    assert (Hal : e' <= fexp prec emax (Zdigits2 q + e')).
    { rewrite Zdigits2_log2, fexp_eq by lia.
      destruct (Z.le_gt_cases e' (-1074)) as [L|G]; [lia|].
      assert (S53 : d2 - d1 + 53 <= s) by (unfold s, e' in *; lia).
      assert (B : 2 ^ (d2 + 52) <= 2 ^ (d1 - 1 + s)) by (apply Z.pow_le_mono_r; unfold d2; lia).
      assert (C : 2 ^ 52 <= q).
      { rewrite Z.pow_add_r in B by (unfold d2; lia).
        assert (Zpos my * 2 ^ 52 <= m') by nia. nia. }
      assert (52 <= Z.log2 q) by (apply Z.log2_le_pow2; lia). lia. }
    destruct (round_aux_key false q e' (new_location (Zpos my) r) 1000 Hq ltac:(lia)
                ltac:(unfold e'; lia) Hal) as [Hn Hk].
    split; [exact Hn|]. rewrite Hk. unfold sgn. rewrite Z.mul_1_l.
    pose proof (loc_code_range (new_location (Zpos my) r)) as Hc.
    apply round_key_nonneg; [lia|].
    apply Z.mul_nonneg_nonneg; [lia|].
    apply Z.lt_le_incl, pow2_pos. unfold e'. lia.
Qed.

(** A float that is zero or above: not NaN, and its key is not negative. *)
Lemma nonneg_iff x : (0 <=? x)%float = true <-> not_nan x /\ 0 <= fkey x.
Proof.
  rewrite leb_iff, fkey_zero. split; [intros (_ & N & K); auto|].
  intros [N K]. split; [discriminate|auto].
Qed.

Lemma nonneg_class x :
  (0 <=? x)%float = true ->
  (fin x = true /\ 0 <= fkey x) \/ Prim2SF x = S754_infinity false.
Proof.
  intros H. apply nonneg_iff in H as [N K].
  destruct (float_class x N) as [[F _]|[[E _]|[_ E]]]; [now left|now right|].
  pose proof key_inf_pos. lia.
Qed.

Lemma add_nonneg a b :
  (0 <=? a)%float = true -> (0 <=? b)%float = true -> (0 <=? a + b)%float = true.
Proof.
  intros Ha Hb. apply nonneg_iff.
  destruct (nonneg_class a Ha) as [[Fa Ka]|Ea], (nonneg_class b Hb) as [[Fb Kb]|Eb].
  - destruct (add_fin a b Fa Fb) as [N K]. split; [exact N|]. rewrite K.
    unfold round_skey. destruct (Z.ltb_spec (fkey a + fkey b) 0); [lia|].
    apply round_key_nonneg; lia.
  - assert (E : Prim2SF (a + b) = S754_infinity false).
    { rewrite FloatAxioms.add_spec, Eb. unfold fin in Fa.
      destruct (Prim2SF a); try discriminate; reflexivity. }
    unfold not_nan, fkey. rewrite E. split; [discriminate|]. cbn [key sgn]. pose proof key_inf_pos. lia.
  - assert (E : Prim2SF (a + b) = S754_infinity false).
    { rewrite FloatAxioms.add_spec, Ea. unfold fin in Fb.
      destruct (Prim2SF b); try discriminate; reflexivity. }
    unfold not_nan, fkey. rewrite E. split; [discriminate|]. cbn [key sgn]. pose proof key_inf_pos. lia.
  - assert (E : Prim2SF (a + b) = S754_infinity false).
    { rewrite FloatAxioms.add_spec, Ea, Eb. reflexivity. }
    unfold not_nan, fkey. rewrite E. split; [discriminate|]. cbn [key sgn]. pose proof key_inf_pos. lia.
Qed.

Lemma div_nonneg s n :
  1 <= n < 2 ^ 63 -> (0 <=? s)%float = true ->
  (0 <=? s / Py.float_of_int n)%float = true.
Proof.
  intros Hn Hs. apply nonneg_iff.
  change (Py.float_of_int n) with (Np.float_of_int64 n).
  destruct (float_of_int64_normal n Hn) as (m & e & E & _).
  pose proof (Prim2SF_valid (Np.float_of_int64 n)) as Vn. rewrite E in Vn.
  apply nonneg_iff in Hs as [Ns Ks].
  unfold not_nan, fkey in *. rewrite FloatAxioms.div_spec, E.
  pose proof (Prim2SF_valid s) as Vs.
  destruct (Prim2SF s) as [sg|sg| |sg ms es].
  - cbn [SF64div SFdiv key]. split; [discriminate|lia].
  - destruct sg; cbn [key sgn SF64div SFdiv xorb] in Ks |- *; [pose proof key_inf_pos; lia|].
    split; [discriminate|]. pose proof key_inf_pos. lia.
  - congruence.
  - destruct sg.
    + exfalso. cbn [key] in Ks. pose proof (pow2_pos (es + 1074)) as P.
      pose proof (valid_finite _ _ _ Vs) as (Hes & _). specialize (P ltac:(lia)).
      unfold sgn in Ks. nia.
    + apply SFdiv_nonneg; assumption.
Qed.

Lemma score_nonneg p : nonneg_num (generate_quality_score p).
Proof.
  unfold generate_quality_score, Py.max0. cbv zeta.
  match goal with |- context [(0 <? ?x)%float] => destruct (0 <? x)%float eqn:L end.
  - right. eexists. split; [reflexivity|].
    apply ltb_iff in L as (N0 & N & K). apply leb_iff. repeat split; auto. lia.
  - now left.
Qed.

Lemma add_nonneg_num a b : nonneg_num a -> nonneg_num b -> nonneg_num (Py.add a b).
Proof.
  intros [->|(x & -> & Hx)] [->|(y & -> & Hy)].
  - now left.
  - right. eexists. split; [reflexivity|]. now apply add_nonneg.
  - right. eexists. split; [reflexivity|]. now apply add_nonneg.
  - right. eexists. split; [reflexivity|]. now apply add_nonneg.
Qed.

Lemma sum_nonneg_num l : forall acc,
  nonneg_num acc -> Forall nonneg_num l -> nonneg_num (fold_left Py.add l acc).
Proof.
  induction l as [|v l IH]; intros acc Ha Hl; [exact Ha|].
  inversion Hl; subst. cbn [fold_left]. apply IH; [now apply add_nonneg_num|assumption].
Qed.

Lemma average_nonneg l n :
  1 <= n < 2 ^ 63 -> Forall nonneg_num l ->
  exists avg, Py.truediv (Py.sum l) n = Py.Ok avg /\ (0 <=? avg)%float = true.
Proof.
  intros Hn Hl.
  destruct (sum_nonneg_num l (Py.Int 0) (or_introl eq_refl) Hl) as [E|(s & E & Hs)];
    unfold Py.sum; rewrite E; cbn [Py.truediv].
  - unfold Py.int_truediv. destruct (Z.eqb_spec n 0) as [Z|_]; [lia|].
    eexists. split; [reflexivity|]. now apply div_nonneg.
  - eexists. split; [reflexivity|]. now apply div_nonneg.
Qed.

(** Property X15.  On an empty dictionary of profiles the average of
    the JSON profile raises [ZeroDivisionError].  On every other one
    (of fewer than 2^63 profiles) the dictionary for [json.dump] is
    built, whatever the profiles hold: its [total_tables] is their
    number and its [avg_quality_score] is never negative and never NaN,
    also where percentages are NaN or beyond 100. *)
Theorem save_profile_json_returns profiles :
  (profiles = [] -> save_profile_json profiles = Py.Raise Py.ZeroDivisionError)
  /\ (profiles <> [] -> Z.of_nat (length profiles) < 2 ^ 63 ->
      exists output,
        save_profile_json profiles = Py.Ok output
        /\ total_tables (json_summary output) = Z.of_nat (length profiles)
        /\ (0 <=? avg_quality_score (json_summary output))%float = true).
Proof.
  split; [intros ->; reflexivity|].
  intros N B. unfold save_profile_json.
  destruct (average_nonneg (map generate_quality_score (Py.values profiles))
              (Z.of_nat (length profiles))) as (avg & -> & H).
  - destruct profiles; [congruence|cbn [length] in *; lia].
  - apply Forall_forall. intros v I. apply in_map_iff in I as (p & <- & _).
    apply score_nonneg.
  - cbn [Py.bind]. eexists. split; [reflexivity|]. split; [reflexivity|exact H].
Qed.

(** ** The number of duplicates *)

Lemma filter_length_le {A} (f : A -> bool) l : (length (filter f l) <= length l)%nat.
Proof.
  induction l as [|a l IH]; cbn; [lia|]. destruct (f a); cbn; lia.
Qed.

Lemma duplicated_below df :
  Pd.index_len df <> 0%nat ->
  Pd.sum_bool (Pd.duplicated df) <= Z.of_nat (Pd.index_len df) - 1.
Proof.
  intros N. destruct (Pd.columns df) as [|c cs] eqn:E.
  - unfold Pd.duplicated, Pd.empty. rewrite E. cbn [length Nat.eqb].
    rewrite orb_true_r. cbn. lia.
  - rewrite duplicated_count by (left; rewrite E; discriminate).
    destruct (Pd.index_len df) as [|n]; [congruence|].
    cbn [seq filter]. change (earlier_duplicate df 0) with false. cbv iota.
    pose proof (filter_length_le (earlier_duplicate df) (seq 1 n)) as L.
    rewrite length_seq in L. lia.
Qed.

(** Property X22.  In a frame with at least one row the first row is
    never a duplicate: the duplicate count is at most the number of rows
    less one. *)
Theorem duplicates_below_rows df name p :
  Pd.well_formed df -> Pd.index_len df <> 0%nat ->
  analyze_dataframe df name = Py.Ok p ->
  0 <= total (duplicates p) <= rows p - 1.
Proof.
  intros W N H.
  destruct (analyze_dataframe_inv df name p W H) as (R & D & _).
  rewrite R, D. cbn [total duplicates empty_profile]. unfold df_len.
  split; [apply duplicated_le|now apply duplicated_below].
Qed.

(** ** The colour of a table row *)

Lemma geb_max0 x n :
  n = 90 \/ n = 70 ->
  Py.geb (Py.max0 x) n = (Py.float_of_int n <=? Py.to_float (Py.max0 x))%float.
Proof.
  intros Hn. unfold Py.max0. destruct (0 <? x)%float; cbn [Py.geb Py.to_float]; [reflexivity|].
  destruct Hn as [-> | ->]; reflexivity.
Qed.

(** Property X23.  The score of a table row is shown green when it is at
    least 90, yellow when it is at least 70 and below 90, and red below
    70; the [int] 0 that a NaN percentage leaves as the score is red. *)
Theorem table_row_colour f p :
  columns_info p <> [] ->
  exists r,
    table_row f p = Py.Ok r
    /\ (row_color r = "green"%string
        <-> (90 <=? Py.to_float (generate_quality_score p))%float = true)
    /\ (row_color r = "yellow"%string
        <-> (90 <=? Py.to_float (generate_quality_score p))%float = false
            /\ (70 <=? Py.to_float (generate_quality_score p))%float = true)
    /\ (row_color r = "red"%string
        <-> (70 <=? Py.to_float (generate_quality_score p))%float = false).
Proof.
  intros N. unfold table_row. rewrite (avg_null_value p N). cbn [Py.bind].
  eexists. split; [reflexivity|]. cbn [row_color].
  unfold generate_quality_score. cbv zeta. set (x := (_ - _)%float).
  rewrite !geb_max0 by auto.
  change (Py.float_of_int 90) with 90%float. change (Py.float_of_int 70) with 70%float.
  assert (T : (90 <=? Py.to_float (Py.max0 x))%float = true ->
              (70 <=? Py.to_float (Py.max0 x))%float = true).
  { intros H. apply leb_iff in H as (_ & Ns & K). apply leb_iff.
    assert (L : fkey 70 <= fkey 90) by (vm_compute; discriminate).
    repeat split; [discriminate|exact Ns|lia]. }
  destruct (90 <=? Py.to_float (Py.max0 x))%float;
    [rewrite (T eq_refl)|clear T];
    try destruct (70 <=? Py.to_float (Py.max0 x))%float;
    repeat split; intros;
    repeat match goal with H : _ /\ _ |- _ => destruct H end;
    try reflexivity; congruence.
Qed.

(** ** Concrete frames *)

#[local] Open Scope string_scope.

Lemma scenario_frame_well_formed : Pd.well_formed scenario_frame.
Proof. frame_well_formed. Defined.

Lemma float_neq (x y : float) : PrimFloat.Leibniz.eqb x y = false -> x <> y.
Proof. intros H E. apply FloatAxioms.Leibniz.eqb_spec in E. congruence. Qed.

(** Claim C2 as stated fails on a frame of one [float64] column and no
    row: the duplicate percentage is NaN, not 0. *)
Lemma zero_row_claim_fails : ~ zero_row_claim zero_rows_frame "empty.csv".
Proof.
  intros (p & H & _ & _ & D & _). vm_compute in H. injection H as <-.
  revert D. apply float_neq. reflexivity.
Qed.

(** Claim C4 as stated fails on the same frame: NaN is not in [0, 100]. *)
Lemma duplicate_claim_fails : ~ duplicate_claim zero_rows_frame "empty.csv".
Proof.
  intros (p & H & _ & _ & L & _). vm_compute in H. injection H as <-.
  vm_compute in L. discriminate.
Qed.

(** On a frame without columns [duplicated()] is empty, although its
    second row equals its first. *)
Lemma no_columns_duplicates :
  Pd.sum_bool (Pd.duplicated no_columns_frame) = 0
  /\ length (filter (earlier_duplicate no_columns_frame)
                    (seq 0 (Pd.index_len no_columns_frame))) = 1%nat.
Proof. split; reflexivity. Qed.

(** Claim C7 as stated fails on the scenario frame: the score is
    83.33500000000001, not 83.34. *)
Lemma scenario_claim_fails : ~ scenario_claim scenario_frame "orders.csv" "A".
Proof.
  intros (p & ci & H & _ & _ & S). vm_compute in H. injection H as <-.
  revert S. apply float_neq. vm_compute. reflexivity.
Qed.

(** A header-only CSV file gives [object] columns without rows, on which
    the text statistics raise [ValueError]. *)
Lemma header_only_frame_raises :
  analyze_dataframe header_only_frame "empty.csv" = Py.Raise Py.ValueError.
Proof. reflexivity. Qed.

(** *** The theorems at concrete inputs *)
Lemma zero_row_profile_witness :
  exists p,
    analyze_dataframe zero_rows_frame "empty.csv" = Py.Ok p
    /\ rows p = 0
    /\ (forall col ci, In (col, ci) (columns_info p) -> null_percentage ci = nan)
    /\ percentage (duplicates p) = nan
    /\ generate_quality_score p = Py.Int 0
    /\ (Pd.columns zero_rows_frame <> [] ->
          forall profiles, In ("empty.csv", p) profiles ->
            generate_markdown_report profiles = Py.Raise Py.ZeroDivisionError).
Proof.
  apply (zero_row_profile zero_rows_frame "empty.csv").
  - frame_well_formed.
  - reflexivity.
  - repeat constructor.
Defined.

Lemma column_counts_partition_rows_witness :
  (Pd.index_len scenario_frame <> 0%nat ->
   Py.returns (analyze_dataframe scenario_frame "orders.csv"))
  /\ forall p, analyze_dataframe scenario_frame "orders.csv" = Py.Ok p ->
     rows p = Z.of_nat (Pd.index_len scenario_frame)
     /\ forall col s, In (col, s) (Pd.columns scenario_frame) ->
        exists ci,
          Py.getitem (columns_info p) col = Some ci
          /\ null ci = Z.of_nat (length (filter Pd.is_na (Pd.cells s)))
          /\ non_null ci
             = Z.of_nat (length (filter (fun c => negb (Pd.is_na c)) (Pd.cells s)))
          /\ non_null ci + null ci = rows p
          /\ null_percentage ci
             = Np.round2 (Np.int64_truediv (null ci) (rows p) * 100)%float.
Proof.
  apply (column_counts_partition_rows scenario_frame "orders.csv").
  frame_well_formed.
Defined.

Lemma duplicate_statistics_witness :
  (Pd.columns repeated_frame <> [] ->
     total (duplicates repeated_profile)
     = Z.of_nat (length (filter (earlier_duplicate repeated_frame)
                                (seq 0 (Pd.index_len repeated_frame)))))
  /\ percentage (duplicates repeated_profile)
     = Np.round2 (Np.int64_truediv (total (duplicates repeated_profile))
                                   (rows repeated_profile) * 100)%float
  /\ (Pd.index_len repeated_frame <> 0%nat ->
      Z.of_nat (Pd.index_len repeated_frame) < 2 ^ 63 ->
        (0 <=? percentage (duplicates repeated_profile))%float = true
        /\ (percentage (duplicates repeated_profile) <=? 100)%float = true).
Proof.
  apply (duplicate_statistics repeated_frame "cities.csv" repeated_profile).
  - frame_well_formed.
  - reflexivity.
Defined.

Lemma quality_score_monotone_witness :
  (Py.to_float (generate_quality_score (sample_profile "orders.csv" 50))
   <=? Py.to_float (generate_quality_score (sample_profile "orders.csv" 20)))%float = true.
Proof.
  apply (quality_score_monotone (sample_profile "orders.csv" 20)
           (sample_profile "orders.csv" 50)
           [("A", column_with 10)] "B" (column_with 20) 50%float []).
  - reflexivity.
  - reflexivity.
  - reflexivity.
  - reflexivity.
Defined.

Lemma numeric_stats_undefined_without_values_witness :
  exists ci,
    column_info zero_rows_frame (Pd.Float64 [nan; nan]%float) = Py.Ok ci
    /\ stats ci = NumericStats nan nan nan nan nan.
Proof.
  apply (numeric_stats_undefined_without_values zero_rows_frame (Pd.Float64 [nan; nan]%float)).
  - reflexivity.
  - reflexivity.
Defined.

Lemma scenario_one_null_in_three_rows_witness :
  exists p ci,
    analyze_dataframe scenario_frame "orders.csv" = Py.Ok p
    /\ Py.getitem (columns_info p) "A" = Some ci
    /\ null_percentage ci = 33.33%float
    /\ generate_quality_score p = Py.Float (100 - 33.33 * 0.5)%float.
Proof.
  apply (scenario_one_null_in_three_rows scenario_frame "orders.csv"
           "A" (Pd.Float64 [1.5; nan; 2]%float) "B" (Pd.Int64 [1; 2; 3])).
  - frame_well_formed.
  - reflexivity.
  - left. reflexivity.
  - reflexivity.
  - reflexivity.
  - reflexivity.
Defined.

Lemma unique_counts_distinct_non_null_witness :
  exists ci,
    Py.getitem (columns_info repeated_profile) "city" = Some ci
    /\ unique ci
       = Z.of_nat (count_distinct
                     (filter (fun c => negb (Pd.is_na c))
                        (Pd.cells (Pd.Object [Some "rio"; Some "sp"; Some "rio"; Some "sp"]))))
    /\ unique ci <= non_null ci.
Proof.
  apply (unique_counts_distinct_non_null repeated_frame "cities.csv" repeated_profile).
  - frame_well_formed.
  - reflexivity.
  - right. left. reflexivity.
Defined.

Lemma sample_state_profile :
  profile_at sample_state (Obj.VDict 4%nat) (sample_profile "orders.csv" 20).
Proof.
  eexists 4%nat, _, 3%nat, _, 0%nat, _.
  split; [reflexivity|]. split; [reflexivity|]. split; [reflexivity|].
  split; [reflexivity|]. split; [reflexivity|]. split.
  - constructor; [eexists 1%nat, _; repeat split|].
    constructor; [eexists 2%nat, _; repeat split|]. constructor.
  - repeat split.
Qed.

Lemma scorer_is_pure_witness :
  Obj.twice (Obj.VDict 4%nat) sample_state
  = (Obj.Return (generate_quality_score (sample_profile "orders.csv" 20),
                 generate_quality_score (sample_profile "orders.csv" 20)),
     sample_state).
Proof.
  destruct (scorer_is_pure sample_state (Obj.VDict 4%nat)) as (_ & T & F).
  rewrite T, (F _ sample_state_profile). reflexivity.
Defined.

Lemma average_null_percentage_witness :
  print_profile_table [("orders.csv", sample_profile "orders.csv" 20);
                       ("empty.csv", no_columns_profile)]
  = Py.Raise Py.ZeroDivisionError
  /\ avg_null (sample_profile "orders.csv" 20) = Py.Ok 15%float.
Proof.
  split.
  - apply (proj1 (average_null_percentage no_columns_profile) eq_refl _ "empty.csv").
    right. left. reflexivity.
  - apply (proj2 (average_null_percentage (sample_profile "orders.csv" 20))).
    discriminate.
Defined.

(** *** The further properties at concrete inputs *)

Lemma text_frame_well_formed : Pd.well_formed text_frame.
Proof. frame_well_formed. Defined.

Lemma repeated_frame_well_formed : Pd.well_formed repeated_frame.
Proof. frame_well_formed. Defined.

Lemma zero_rows_frame_well_formed : Pd.well_formed zero_rows_frame.
Proof. frame_well_formed. Defined.

Lemma profile_header_witness :
  filename scenario_profile_value = "orders.csv"
  /\ rows scenario_profile_value = Z.of_nat (Pd.index_len scenario_frame)
  /\ Py.keys (columns_info scenario_profile_value) = map fst (Pd.columns scenario_frame)
  /\ columns scenario_profile_value
     = Z.of_nat (length (columns_info scenario_profile_value)).
Proof.
  apply (profile_header scenario_frame "orders.csv" scenario_profile_value).
  - exact scenario_frame_well_formed.
  - vm_compute. reflexivity.
Defined.

Lemma null_percentage_range_witness :
  (0 <=? null_percentage (snd (first_column scenario_profile_value)))%float = true
  /\ (null_percentage (snd (first_column scenario_profile_value)) <=? 100)%float = true.
Proof.
  apply (null_percentage_range scenario_frame "orders.csv" scenario_profile_value
           scenario_frame_well_formed)
    with (col := fst (first_column scenario_profile_value)).
  - discriminate.
  - reflexivity.
  - vm_compute. reflexivity.
  - left. reflexivity.
Defined.

Lemma quality_score_bounds_witness :
  (0 <=? Py.to_float (generate_quality_score (sample_profile "orders.csv" 20)))%float = true
  /\ (Forall (fun c => (0 <=? null_percentage c)%float = true)
             (Py.values (columns_info (sample_profile "orders.csv" 20))) ->
      (0 <=? percentage (duplicates (sample_profile "orders.csv" 20)))%float = true ->
      (Py.to_float (generate_quality_score (sample_profile "orders.csv" 20)) <=? 100)%float
      = true).
Proof. apply (quality_score_bounds (sample_profile "orders.csv" 20)). Defined.

Lemma analysed_score_range_witness :
  exists p,
    analyze_dataframe scenario_frame "orders.csv" = Py.Ok p
    /\ (0 <=? Py.to_float (generate_quality_score p))%float = true
    /\ (Py.to_float (generate_quality_score p) <=? 100)%float = true.
Proof.
  apply (analysed_score_range scenario_frame "orders.csv" scenario_frame_well_formed).
  - discriminate.
  - reflexivity.
Defined.

Lemma header_only_frame_well_formed : Pd.well_formed header_only_frame.
Proof. frame_well_formed. Qed.

Lemma analyze_dataframe_raises_witness :
  analyze_dataframe header_only_frame "empty.csv" = Py.Raise Py.ValueError.
Proof.
  apply (proj1 (analyze_dataframe_raises header_only_frame "empty.csv"
                  header_only_frame_well_formed) Py.ValueError).
  split; [reflexivity|]. exists "A". left. reflexivity.
Defined.

Lemma text_column_statistics_witness :
  exists ci mn mx,
    column_info text_frame (Pd.Object [Some "são"; Some EmptyString; Some "recife"])
    = Py.Ok ci
    /\ stats ci
       = TextStats mn mx
           (Z.of_nat (length (filter is_empty_text
                                [Some "são"; Some EmptyString; Some "recife"])))
    /\ (exists t, In (Some t) [Some "são"; Some EmptyString; Some "recife"]
                  /\ mn = Z.of_nat (Py.len t))
    /\ (exists t, In (Some t) [Some "são"; Some EmptyString; Some "recife"]
                  /\ mx = Z.of_nat (Py.len t))
    /\ (forall t, In (Some t) [Some "são"; Some EmptyString; Some "recife"] ->
                  mn <= Z.of_nat (Py.len t) <= mx)
    /\ (mn = 0
        <-> 0 < Z.of_nat (length (filter is_empty_text
                                    [Some "são"; Some EmptyString; Some "recife"]))).
Proof.
  apply (text_column_statistics text_frame [Some "são"; Some EmptyString; Some "recife"]).
  - reflexivity.
  - discriminate.
Defined.

Lemma float_column_extremes_witness :
  exists ci mean median mn mx std,
    column_info scenario_frame (Pd.Float64 [1.5; nan; 2]%float) = Py.Ok ci
    /\ stats ci = NumericStats mean median mn mx std
    /\ In mn [1.5; nan; 2]%float /\ is_nan mn = false
    /\ In mx [1.5; nan; 2]%float /\ is_nan mx = false
    /\ forall v, In v [1.5; nan; 2]%float -> is_nan v = false ->
         (mn <=? v)%float = true /\ (v <=? mx)%float = true.
Proof.
  apply (float_column_extremes scenario_frame [1.5; nan; 2]%float 1.5%float).
  - left. reflexivity.
  - reflexivity.
Defined.

Lemma clean_frame_scores_100_witness :
  exists p,
    analyze_dataframe text_frame "cities.csv" = Py.Ok p
    /\ generate_quality_score p = Py.Float 100
    /\ quality_issues p = [].
Proof.
  apply (clean_frame_scores_100 text_frame "cities.csv" text_frame_well_formed).
  - discriminate.
  - reflexivity.
  - repeat constructor.
  - reflexivity.
Defined.

Lemma quality_score_monotone_duplicates_witness :
  (Py.to_float (generate_quality_score
                  (with_duplicates (sample_profile "orders.csv" 20) 7))
   <=? Py.to_float (generate_quality_score (sample_profile "orders.csv" 20)))%float = true.
Proof.
  apply (quality_score_monotone_duplicates
           (sample_profile "orders.csv" 20)
           (with_duplicates (sample_profile "orders.csv" 20) 7)).
  - reflexivity.
  - reflexivity.
Defined.

Lemma nan_percentage_scores_zero_witness :
  generate_quality_score (sample_profile "orders.csv" nan) = Py.Int 0.
Proof.
  apply (nan_percentage_scores_zero (sample_profile "orders.csv" nan)).
  left. exists (column_with nan). split; [right; left; reflexivity|reflexivity].
Defined.

Lemma summary_table_rows_witness :
  (Py.returns (print_profile_table sample_profiles)
   <-> Forall (fun fp => columns_info (snd fp) <> []) sample_profiles)
  /\ forall table, print_profile_table sample_profiles = Py.Ok table ->
       Forall2 (fun fp r =>
                  row_table r = fst fp
                  /\ row_name r = table_name (fst fp)
                  /\ Py.plain (row_name r) = true
                  /\ row_rows r = rows (snd fp)
                  /\ row_columns r = columns (snd fp)
                  /\ row_duplicates r = total (duplicates (snd fp))
                  /\ row_score r = generate_quality_score (snd fp))
               sample_profiles table.
Proof.
  apply (summary_table_rows sample_profiles).
  constructor; [reflexivity|]. constructor; [reflexivity|]. constructor.
Defined.


Lemma report_sections_sorted_witness :
  StronglySorted name_lt (map sec_file (sections sample_report))
  /\ Permutation (map sec_file (sections sample_report)) (Py.keys sample_profiles)
  /\ forall s, In s (sections sample_report) ->
       exists p, In (sec_file s, p) sample_profiles
                 /\ sec_score s = generate_quality_score p
                 /\ sec_issues s = quality_issues p.
Proof.
  apply (report_sections_sorted sample_profiles sample_report).
  - repeat constructor; simpl; intuition discriminate.
  - vm_compute. reflexivity.
Defined.

Lemma report_non_null_percentage_witness :
  exists l,
    column_line scenario_profile_value (first_column scenario_profile_value) = Py.Ok l
    /\ line_name l = fst (first_column scenario_profile_value)
    /\ (0 <=? line_non_null_pct l)%float = true
    /\ (line_non_null_pct l <=? 100)%float = true.
Proof.
  apply (report_non_null_percentage scenario_frame "orders.csv" scenario_profile_value
           scenario_frame_well_formed).
  - discriminate.
  - discriminate.
  - vm_compute. reflexivity.
  - left. reflexivity.
Defined.

Lemma save_profile_json_returns_witness :
  exists output,
    save_profile_json sample_profiles = Py.Ok output
    /\ total_tables (json_summary output) = Z.of_nat (length sample_profiles)
    /\ (0 <=? avg_quality_score (json_summary output))%float = true.
Proof.
  apply (proj2 (save_profile_json_returns sample_profiles)).
  - discriminate.
  - reflexivity.
Defined.

Lemma main_exits_without_data_witness : main no_file = ([], Py.Ok (Exit 1)).
Proof.
  apply (proj2 (main_exits_without_data no_file)).
  right. intros f _. reflexivity.
Defined.

Lemma main_value_error_witness :
  snd (main (one_file header_only_frame)) = Py.Raise Py.ValueError.
Proof.
  apply (proj2 (main_value_error (one_file header_only_frame))).
  split; [reflexivity|].
  exists "olist_orders_dataset.csv", header_only_frame, "A".
  split; [left; reflexivity|]. split; [reflexivity|left; reflexivity].
Defined.

Lemma one_file_loaded df f d :
  loaded (one_file df) f = Some d -> d = df.
Proof.
  unfold loaded, one_file. cbn.
  destruct (String.eqb f "olist_orders_dataset.csv"); [congruence|discriminate].
Defined.

Lemma main_completes_witness :
  exists table output report,
    main (one_file scenario_frame)
    = ([ConsoleTable table; JsonProfile output; MarkdownReport report], Py.Ok Completed)
    /\ map row_table table = filter (loads (one_file scenario_frame)) CSV_FILES
    /\ Py.keys (json_profiles output) = filter (loads (one_file scenario_frame)) CSV_FILES
    /\ Permutation (map sec_file (sections report))
                   (filter (loads (one_file scenario_frame)) CSV_FILES).
Proof.
  apply (main_completes (one_file scenario_frame)).
  - reflexivity.
  - exists "olist_orders_dataset.csv". split; [left; reflexivity|reflexivity].
  - intros f df _ L. apply one_file_loaded in L. subst df.
    split; [exact scenario_frame_well_formed|]. split; discriminate.
Defined.

Lemma main_outcomes_witness :
  main (one_file header_only_frame) = ([], Py.Ok (Exit 1))
  \/ (main (one_file header_only_frame) = ([], Py.Raise Py.ValueError)
      /\ exists f df, In f CSV_FILES /\ loaded (one_file header_only_frame) f = Some df
                      /\ Pd.index_len df = 0%nat)
  \/ ((forall f df, In f CSV_FILES -> loaded (one_file header_only_frame) f = Some df ->
         Pd.index_len df <> 0%nat)
      /\ exists table output report,
           main (one_file header_only_frame)
           = ([ConsoleTable table; JsonProfile output; MarkdownReport report],
              Py.Ok Completed)).
Proof.
  apply (main_outcomes (one_file header_only_frame)).
  intros f df _ L. apply one_file_loaded in L. subst df.
  split; [exact header_only_frame_well_formed|]. split; [discriminate|].
  intros _. constructor; [reflexivity|constructor].
Defined.

Lemma average_null_percentage_range_witness :
  exists avg,
    avg_null scenario_profile_value = Py.Ok avg
    /\ (0 <=? avg)%float = true /\ (avg <=? 100)%float = true.
Proof.
  apply (average_null_percentage_range scenario_frame "orders.csv" scenario_profile_value
           scenario_frame_well_formed).
  - discriminate.
  - reflexivity.
  - discriminate.
  - reflexivity.
  - vm_compute. reflexivity.
Defined.

Lemma average_quality_score_range_witness :
  exists output,
    save_profile_json sample_profiles = Py.Ok output
    /\ (0 <=? avg_quality_score (json_summary output))%float = true
    /\ (avg_quality_score (json_summary output) <=? 100)%float = true
    /\ forall r, generate_markdown_report sample_profiles = Py.Ok r ->
         avg_score r = avg_quality_score (json_summary output).
Proof.
  apply (average_quality_score_range sample_profiles).
  - discriminate.
  - reflexivity.
  - repeat constructor.
Defined.

Lemma duplicates_below_rows_witness :
  0 <= total (duplicates repeated_profile) <= rows repeated_profile - 1.
Proof.
  apply (duplicates_below_rows repeated_frame "cities.csv" repeated_profile
           repeated_frame_well_formed).
  - discriminate.
  - vm_compute. reflexivity.
Defined.

Lemma table_row_colour_witness :
  exists r,
    table_row "orders.csv" (sample_profile "orders.csv" 20) = Py.Ok r
    /\ (row_color r = "green"
        <-> (90 <=? Py.to_float (generate_quality_score (sample_profile "orders.csv" 20)))%float
            = true)
    /\ (row_color r = "yellow"
        <-> (90 <=? Py.to_float (generate_quality_score (sample_profile "orders.csv" 20)))%float
            = false
            /\ (70 <=? Py.to_float (generate_quality_score (sample_profile "orders.csv" 20)))%float
               = true)
    /\ (row_color r = "red"
        <-> (70 <=? Py.to_float (generate_quality_score (sample_profile "orders.csv" 20)))%float
            = false).
Proof.
  apply (table_row_colour "orders.csv" (sample_profile "orders.csv" 20)).
  discriminate.
Defined.
